(** * SOC2 compliance API endpoint: a shallow embedding and its properties

    The development follows [examples/soc2-api-endpoint.py]: the credential
    check [validate_api_key], the health endpoint and the three protected
    handlers [receive_security_scan], [get_compliance_report] and
    [get_application_status].  Python values decoded from JSON are the
    inductive [pyval]; the handlers run in a small state-and-exception monad
    over the handler's local variables and the world (table, storage trace,
    log).  Every call to the storage layer, the rollback and the two closing
    calls included, can raise.  The libraries the script calls (datetime,
    json, the float arithmetic of the interpreter, the casts and the
    aggregate functions of the database) are the fields of the class
    [Runtime]. *)

From Stdlib Require Import ZArith QArith Ascii String.
From Stdlib Require PrimFloat Uint63 FloatOps SpecFloat.
From stdpp Require Import gmap strings list sorting pretty.

Local Set Warnings "-register-all".
Local Open Scope Z_scope.
Local Open Scope string_scope.

(* ===================================================================== *)
(** * Python strings *)
(* ===================================================================== *)

(** [str.replace(old, new)] for a non-empty [old]: a single left-to-right
    scan; at an occurrence of [old] the scan emits [new] and skips the
    occurrence, so occurrences are found leftmost first and never overlap.
    [skip] counts the characters of the current occurrence still to drop. *)
Fixpoint replace_from (old new : string) (skip : nat) (s : string) : string :=
  match s with
  | EmptyString => EmptyString
  | String c s' =>
      match skip with
      | S k => replace_from old new k s'
      | O =>
          if String.prefix old s
          then new ++ replace_from old new (pred (String.length old)) s'
          else String c (replace_from old new 0 s')
      end
  end.

(** With an empty [old] Python inserts [new] before every character and at
    the end of the string. *)
Fixpoint replace_empty (new s : string) : string :=
  match s with
  | EmptyString => new
  | String c s' => new ++ String c (replace_empty new s')
  end.

(** [s.replace(old, new)] *)
Definition str_replace (s old new : string) : string :=
  match old with
  | EmptyString => replace_empty new s
  | String _ _ => replace_from old new 0 s
  end.

(** Truth value of a string: [not s] holds exactly for the empty string. *)
Definition str_truthy (s : string) : bool :=
  match s with
  | EmptyString => false
  | String _ _ => true
  end.

(** The suffix of [s] from index [i] on, [s[i:]]. *)
Fixpoint str_drop (i : nat) (s : string) : string :=
  match i, s with
  | O, _ => s
  | S _, EmptyString => EmptyString
  | S k, String _ s' => str_drop k s'
  end.

(** [old] occurs in [s] at index [i]. *)
Definition occurs_at (old s : string) (i : nat) : bool :=
  String.prefix old (str_drop i s).

(** Index [j] of [s] lies inside some occurrence of [old]: an occurrence
    starts at one of the [length old] indices ending at [j]. *)
Definition covered (old s : string) (j : nat) : bool :=
  existsb (fun d => (d <=? j)%nat && occurs_at old s (j - d))
          (seq 0 (String.length old)).

(** The characters of [suffix] that lie in no occurrence of [old] in the
    whole string, [j] being the index of the first character of [suffix]. *)
Fixpoint uncovered_chars (old whole : string) (j : nat) (suffix : string) : string :=
  match suffix with
  | EmptyString => EmptyString
  | String c rest =>
      if covered old whole j
      then uncovered_chars old whole (S j) rest
      else String c (uncovered_chars old whole (S j) rest)
  end.

(** Deleting every occurrence of [old] in [s], said without a scan: keep
    exactly the characters that belong to no occurrence. *)
Definition delete_occurrences (old s : string) : string :=
  uncovered_chars old s 0 s.

(** Some occurrence of [old] in [s]. *)
Fixpoint contains (old s : string) : bool :=
  String.prefix old s ||
  match s with
  | EmptyString => false
  | String _ s' => contains old s'
  end.

(** The pieces joined with [sep] between consecutive ones, [sep.join(pieces)]. *)
Fixpoint join (sep : string) (pieces : list string) : string :=
  match pieces with
  | [] => EmptyString
  | [p] => p
  | p :: ps => p ++ sep ++ join sep ps
  end.

(** Two occurrences of [old] never overlap: none starts inside another. *)
Definition unbordered (old : string) : Prop :=
  ∀ s i d, (1 ≤ d < String.length old)%nat →
           occurs_at old s i = true → occurs_at old s (i + d) = false.

(** What the scan knows at index [j] with [skip] characters left to drop:
    either it is inside the occurrence that started [length old - skip]
    characters ago, or no occurrence that started before [j] reaches [j]. *)
Definition scan_state (old whole : string) (j skip : nat) : Prop :=
  match skip with
  | O => ∀ d, (1 ≤ d < String.length old)%nat → (d ≤ j)%nat →
              occurs_at old whole (j - d) = false
  | S _ => (skip < String.length old)%nat
           ∧ (String.length old - skip ≤ j)%nat
           ∧ occurs_at old whole (j - (String.length old - skip)) = true
  end.

(* ===================================================================== *)
(** * Python values *)
(* ===================================================================== *)

(** What [json.loads] produces: [None], booleans, integers, floats (the
    JSON numbers with a fraction or an exponent), strings, lists and dicts
    with string keys.  A dict keeps its items in the order of the body, as
    a Python dict does; in a decoded dict every key occurs once. *)
Inductive pyval :=
  | PNone
  | PBool (b : bool)
  | PInt (n : Z)
  | PFloat (x : PrimFloat.float)
  | PStr (s : string)
  | PList (l : list pyval)
  | PDict (items : list (string * pyval)).

(** The items of a dict. *)
Abbreviation pydict := (list (string * pyval)).

(** [d[key]], when the key is there. *)
Fixpoint dict_get (key : string) (items : pydict) : option pyval :=
  match items with
  | [] => None
  | (k, v) :: rest => if String.eqb k key then Some v else dict_get key rest
  end.

Global Instance pydict_lookup : Lookup string pyval pydict := dict_get.

(** [{}] *)
Global Instance pydict_empty : Empty pydict := [].

(** Truth value, as tested by [if not data]: [None], [False], zero, and the
    empty string, list and dict are falsy. *)
Definition py_truthy (v : pyval) : bool :=
  match v with
  | PNone => false
  | PBool b => b
  | PInt n => negb (n =? 0)%Z
  | PFloat x => negb (PrimFloat.eqb x PrimFloat.zero)
  | PStr s => str_truthy s
  | PList l => match l with [] => false | _ :: _ => true end
  | PDict d => match d with [] => false | _ :: _ => true end
  end.

(** The exceptions the handlers tell apart: [psycopg2.Error] and its
    subclasses, and every other [Exception] (AttributeError, TypeError,
    ValueError, an HTTP exception raised by the framework). *)
Inductive exn :=
  | PsycopgError
  | OtherException.

Inductive outcome (A : Type) :=
  | Return (a : A)
  | Raise (e : exn).
Arguments Return {A} a.
Arguments Raise {A} e.

(** [v.get(key, dflt)]: only a dict has the method; on any other value the
    attribute lookup raises AttributeError. *)
Definition py_get (v : pyval) (key : string) (dflt : pyval) : outcome pyval :=
  match v with
  | PDict d => Return (default dflt (d !! key))
  | _ => Raise OtherException
  end.

(** [v.replace(old, new)]: only a string has the method. *)
Definition py_replace (v : pyval) (old new : string) : outcome string :=
  match v with
  | PStr s => Return (str_replace s old new)
  | _ => Raise OtherException
  end.

(** [a == lit] for a string literal [lit]. *)
Definition py_eq_str (a : pyval) (lit : string) : bool :=
  match a with
  | PStr s => String.eqb s lit
  | _ => false
  end.

(* ===================================================================== *)
(** * The table of scan records *)
(* ===================================================================== *)

(** The database is outside the script.  The model keeps in a row what the
    INSERT statement passes, as the columns hold it, and evaluates the three
    SELECT statements on the committed rows.  The table itself is declared
    outside the script: the types of its columns are taken from the data
    model of the specification, and what the server makes of a parameter of
    another type is a library function.  Whatever else the server may
    refuse or fail on (the width of an integer, the length of a text, a
    constraint, a lost connection) is covered by [storage_fails] below,
    which ranges over every pattern of failures. *)

(** A point in time, in microseconds since the epoch. *)
Definition datetime := Z.

(** A scalar held in a column. *)
Inductive sqlval :=
  | SNull
  | SBool (b : bool)
  | SInt (n : Z)
  | SText (s : string).

Global Instance sqlval_eq_dec : EqDecision sqlval.
Proof. solve_decision. Defined.

(** Modelled from the spec: the types of the columns.  The data model
    lists strings, integers and booleans; the two workflow identifiers are
    "nullable identifiers", of a type it leaves open. *)
Inductive coltype :=
  | TText
  | TInteger
  | TBoolean
  | TIdentifier.

(** The 23 values of the INSERT statement, in its column order.  [V] is
    [pyval] for the parameter tuple the handler builds and [sqlval] for the
    row the table holds. *)
Record scan (V : Type) := Scan {
  timestamp : datetime;
  repository : V;
  application : V;
  branch : V;
  commit_sha : V;
  scan_type : V;
  overall_status : V;
  total_issues : V;
  severity_threshold : V;
  secrets_scanning : V;
  sast_scanning : V;
  dependency_scanning : V;
  container_scanning : V;
  dast_scanning : V;
  secrets_findings : V;
  sast_findings : V;
  dependency_vulnerabilities : V;
  web_security_grade : V;
  workflow_run_id : V;
  workflow_run_number : V;
  sarif_uploaded : V;
  artifacts_available : V;
  scan_metadata_json : V
}.
Arguments Scan {V}.
Arguments timestamp {V}.
Arguments repository {V}.
Arguments application {V}.
Arguments branch {V}.
Arguments commit_sha {V}.
Arguments scan_type {V}.
Arguments overall_status {V}.
Arguments total_issues {V}.
Arguments severity_threshold {V}.
Arguments secrets_scanning {V}.
Arguments sast_scanning {V}.
Arguments dependency_scanning {V}.
Arguments container_scanning {V}.
Arguments dast_scanning {V}.
Arguments secrets_findings {V}.
Arguments sast_findings {V}.
Arguments dependency_vulnerabilities {V}.
Arguments web_security_grade {V}.
Arguments workflow_run_id {V}.
Arguments workflow_run_number {V}.
Arguments sarif_uploaded {V}.
Arguments artifacts_available {V}.
Arguments scan_metadata_json {V}.

(** A row of [soc2_security_scans]: the generated [id] and the columns. *)
Record row := Row {
  row_id : Z;
  row_cols : scan sqlval
}.

Definition row_timestamp (r : row) : datetime := timestamp (row_cols r).
Definition row_application (r : row) : sqlval := application (row_cols r).
Definition row_overall_status (r : row) : sqlval := overall_status (row_cols r).
Definition row_total_issues (r : row) : sqlval := total_issues (row_cols r).

(** [column = 'lit'] in a WHERE clause or FILTER; NULL matches nothing. *)
Definition sql_eq_text (v : sqlval) (lit : string) : bool :=
  bool_decide (v = SText lit).

(* ===================================================================== *)
(** * The libraries behind the script *)
(* ===================================================================== *)

(** A number in a response: a Python int or a Python float (IEEE
    binary64, carried by the primitive floats). *)
Inductive number :=
  | NumInt (n : Z)
  | NumFloat (x : PrimFloat.float).

(** The library functions the handlers call.  Their results are taken as
    given; the handlers are verified for every implementation. *)
Class Runtime := {
  (** [dt.isoformat()] *)
  isoformat : datetime → string;
  (** [datetime.fromisoformat(s)]; [None] stands for ValueError *)
  fromisoformat : string → option datetime;
  (** [json.dumps(v)] *)
  json_dumps : pyval → string;
  (** [int(s)] on a query-string value; [None] stands for ValueError *)
  py_int : string → option Z;
  (** [a / b] on integers with [b] non-zero *)
  int_truediv : Z → Z → PrimFloat.float;
  (** [x * n] for a float [x] and an integer [n] *)
  float_mul_int : PrimFloat.float → Z → PrimFloat.float;
  (** [round(x, ndigits)] on a float *)
  float_round : PrimFloat.float → Z → PrimFloat.float;
  (** [float(n)] on an integer *)
  float_of_int : Z → PrimFloat.float;
  (** [float(d)] on a Decimal *)
  float_of_decimal : Q → PrimFloat.float;
  (** [a + b] on two numbers one of which at least is a float; [None]
      stands for OverflowError, raised for an int too large for a float *)
  float_add : number → number → option PrimFloat.float;
  (** the value the server stores in a column of type [ty] for a parameter
      of another type than the column's (its assignment cast); [None] when
      the server refuses the parameter *)
  coerce : coltype → pyval → option sqlval;
  (** [AVG(column)] over the selected rows; [None] is NULL *)
  sql_avg : list sqlval → option Q;
  (** [MAX(column)] over the selected rows *)
  sql_max : list sqlval → sqlval
}.

(** What a request sees of the process and of the outside: the secret in
    the process environment, the two clocks, and which storage calls fail.
    [storage_fails n] tells whether the storage call made when [n] calls
    are already on the trace raises [psycopg2.Error]. *)
Record environment := Environment {
  API_SECRET_KEY : option string;
  utcnow : datetime;
  db_now : datetime;
  storage_fails : nat → bool
}.

(** What [request.get_json()] does with the body: it returns the decoded
    value ([None] for the body [null]), or it raises the HTTP exception of
    the framework for a body it refuses: a body that is not JSON and, in
    the current versions of the framework, an absent body as well. *)
Inductive json_result :=
  | Json (v : pyval)
  | JsonRejected.

Definition json_outcome (r : json_result) : outcome pyval :=
  match r with
  | Json v => Return v
  | JsonRejected => Raise OtherException
  end.

(** The parts of a Flask request the handlers read. *)
Record request := Request {
  authorization : option string;
  remote_addr : string;
  get_json : json_result;
  args : gmap string string
}.

(* ===================================================================== *)
(** * World, responses and the handler monad *)
(* ===================================================================== *)

Inductive storage_op :=
  | OpConnect
  | OpCursor
  | OpExecute
  | OpFetch
  | OpCommit
  | OpRollback
  | OpCursorClose
  | OpClose.

Global Instance storage_op_eq_dec : EqDecision storage_op.
Proof. solve_decision. Defined.

Inductive log_level := INFO | WARNING | ERROR.

Inductive log_message :=
  | MsgUnauthorized (addr : string)
  | MsgConnectionFailed
  | MsgStored (scan_id : option Z)
  | MsgNonCompliant (app : pyval)
  | MsgDatabaseError
  | MsgUnexpectedError
  | MsgReportError
  | MsgStatusError.

(** The committed table, the sequence behind [id], every call made to the
    storage layer so far, and the log. *)
Record world := World {
  table : list row;
  next_id : Z;
  trace : list storage_op;
  logs : list (log_level * log_message)
}.

(** The handler's locals next to the world: [f_conn] is [conn] once
    assigned, holding the rows inserted in its open transaction; [f_cur]
    tells whether [cur] is assigned. *)
Record frame := Frame {
  f_conn : option (list row);
  f_cur : bool;
  f_world : world
}.

Definition new_frame (w : world) : frame := Frame None false w.

Definition add_log (lvl : log_level) (m : log_message) (w : world) : world :=
  World (table w) (next_id w) (trace w) (logs w ++ [(lvl, m)]).

Definition add_op (op : storage_op) (w : world) : world :=
  World (table w) (next_id w) (trace w ++ [op]) (logs w).

Definition with_world (g : world → world) (f : frame) : frame :=
  Frame (f_conn f) (f_cur f) (g (f_world f)).

Definition M (A : Type) : Type := frame → outcome A * frame.

Global Instance M_ret : MRet M := λ A a f, (Return a, f).

Global Instance M_bind : MBind M := λ A B k c f,
  match c f with
  | (Return a, f') => k a f'
  | (Raise e, f') => (Raise e, f')
  end.

Global Instance outcome_ret : MRet outcome := λ A a, Return a.

Global Instance outcome_bind : MBind outcome := λ A B k c,
  match c with
  | Return a => k a
  | Raise e => Raise e
  end.

(** A computation without effects inside a handler. *)
Definition lift {A} (o : outcome A) : M A := λ f, (o, f).

(** A change of the locals or of the world. *)
Definition modify (g : frame → frame) : M unit := λ f, (Return (), g f).

(** Reading the locals and the world. *)
Definition gets {A} (g : frame → A) : M A := λ f, (Return (g f), f).

Definition logger (lvl : log_level) (m : log_message) : M unit :=
  modify (with_world (add_log lvl m)).

(** One call to the storage layer: it goes on the trace and fails when the
    environment says so. *)
Definition storage_call (env : environment) (op : storage_op) : M unit :=
  λ f,
    let n := length (trace (f_world f)) in
    let f' := with_world (add_op op) f in
    if storage_fails env n then (Raise PsycopgError, f') else (Return (), f').

(** [get_db_connection()]: logs and re-raises when connecting fails. *)
Definition get_db_connection (env : environment) : M unit :=
  λ f,
    match storage_call env OpConnect f with
    | (Return _, f') => (Return (), f')
    | (Raise e, f') => (Raise e, with_world (add_log ERROR MsgConnectionFailed) f')
    end.

(** [conn = get_db_connection()] *)
Definition assign_conn (env : environment) : M unit :=
  _ ← get_db_connection env;
  modify (λ f, Frame (Some []) (f_cur f) (f_world f)).

(** [cur = conn.cursor()] *)
Definition assign_cur (env : environment) : M unit :=
  _ ← storage_call env OpCursor;
  modify (λ f, Frame (f_conn f) true (f_world f)).

(** ** The INSERT statement *)

(** A string with a NUL character. *)
Fixpoint has_nul (s : string) : bool :=
  match s with
  | EmptyString => false
  | String c s' => Ascii.eqb c Ascii.zero || has_nul s'
  end.

(** What the driver does with one parameter when [cur.execute] builds the
    statement, before anything is sent: a dict has no adapter and the
    driver raises ProgrammingError, a [psycopg2.Error]; a string with a NUL
    character is refused with ValueError; a list is adapted element by
    element; every other value has an adapter. *)
Fixpoint adapt (v : pyval) : outcome unit :=
  match v with
  | PDict _ => Raise PsycopgError
  | PStr s => if has_nul s then Raise OtherException else Return ()
  | PList l =>
      (fix adapt_all (l : list pyval) : outcome unit :=
         match l with
         | [] => Return ()
         | x :: l' =>
             match adapt x with
             | Return _ => adapt_all l'
             | Raise e => Raise e
             end
         end) l
  | _ => Return ()
  end.

(** The driver adapts the parameters in the order of the tuple: the first
    one it refuses ends the call. *)
Definition adapt_params (p : scan pyval) : outcome unit :=
  _ ← adapt (repository p);
  _ ← adapt (application p);
  _ ← adapt (branch p);
  _ ← adapt (commit_sha p);
  _ ← adapt (scan_type p);
  _ ← adapt (overall_status p);
  _ ← adapt (total_issues p);
  _ ← adapt (severity_threshold p);
  _ ← adapt (secrets_scanning p);
  _ ← adapt (sast_scanning p);
  _ ← adapt (dependency_scanning p);
  _ ← adapt (container_scanning p);
  _ ← adapt (dast_scanning p);
  _ ← adapt (secrets_findings p);
  _ ← adapt (sast_findings p);
  _ ← adapt (dependency_vulnerabilities p);
  _ ← adapt (web_security_grade p);
  _ ← adapt (workflow_run_id p);
  _ ← adapt (workflow_run_number p);
  _ ← adapt (sarif_uploaded p);
  _ ← adapt (artifacts_available p);
  adapt (scan_metadata_json p).

(** What a column of type [ty] can hold: NULL or a value of its type,
    and anything for an identifier, whose type is open. *)
Definition has_type (ty : coltype) (c : sqlval) : bool :=
  match ty, c with
  | _, SNull => true
  | TText, SText _ => true
  | TInteger, SInt _ => true
  | TBoolean, SBool _ => true
  | TIdentifier, _ => true
  | _, _ => false
  end.

Section storing.
Context `{Runtime}.

(** What a column of type [ty] holds for the parameter [v]: [None] is NULL,
    a value of the column's own type is kept as it is, and any other value
    is what the server's cast makes of it, which is of the type of the
    column. *)
Definition column_value (ty : coltype) (v : pyval) : option sqlval :=
  match ty, v with
  | _, PNone => Some SNull
  | TText, PStr s => Some (SText s)
  | TInteger, PInt n => Some (SInt n)
  | TBoolean, PBool b => Some (SBool b)
  | _, _ =>
      match coerce ty v with
      | Some c => if has_type ty c then Some c else None
      | None => None
      end
  end.

(** Modelled from the spec: the row the server builds from the parameter
    tuple, each column with the type of the data model; the statement
    fails when the server refuses one of the parameters. *)
Definition store_row (p : scan pyval) : option (scan sqlval) :=
  c1 ← column_value TText (repository p);
  c2 ← column_value TText (application p);
  c3 ← column_value TText (branch p);
  c4 ← column_value TText (commit_sha p);
  c5 ← column_value TText (scan_type p);
  c6 ← column_value TText (overall_status p);
  c7 ← column_value TInteger (total_issues p);
  c8 ← column_value TText (severity_threshold p);
  c9 ← column_value TBoolean (secrets_scanning p);
  c10 ← column_value TBoolean (sast_scanning p);
  c11 ← column_value TBoolean (dependency_scanning p);
  c12 ← column_value TBoolean (container_scanning p);
  c13 ← column_value TBoolean (dast_scanning p);
  c14 ← column_value TInteger (secrets_findings p);
  c15 ← column_value TInteger (sast_findings p);
  c16 ← column_value TInteger (dependency_vulnerabilities p);
  c17 ← column_value TText (web_security_grade p);
  c18 ← column_value TIdentifier (workflow_run_id p);
  c19 ← column_value TIdentifier (workflow_run_number p);
  c20 ← column_value TBoolean (sarif_uploaded p);
  c21 ← column_value TBoolean (artifacts_available p);
  c22 ← column_value TText (scan_metadata_json p);
  Some (Scan (timestamp p) c1 c2 c3 c4 c5 c6 c7 c8 c9 c10 c11 c12 c13 c14
             c15 c16 c17 c18 c19 c20 c21 c22).

(** [cur.execute(insert_query, params)].  The driver first adapts the
    parameters; an exception there ends the call before the statement is
    sent.  The server then appends the row to the open transaction and
    returns its generated id (RETURNING id), or refuses the statement. *)
Definition execute_insert (env : environment) (p : scan pyval) : M (list Z) :=
  match adapt_params p with
  | Raise e =>
      _ ← modify (with_world (add_op OpExecute));
      lift (Raise e)
  | Return _ =>
      _ ← storage_call env OpExecute;
      match store_row p with
      | None => lift (Raise PsycopgError)
      | Some cols =>
          new_id ← gets (λ f, next_id (f_world f));
          _ ← modify (λ f,
                 let w := f_world f in
                 Frame (Some (default [] (f_conn f) ++ [Row new_id cols])%list) (f_cur f)
                       (World (table w) (new_id + 1) (trace w) (logs w)));
          mret [new_id]
      end
  end.

End storing.

(** [cur.execute(query, params)] for a SELECT: the result set is computed
    from the committed table. *)
Definition execute_select {A} (env : environment) (q : list row → list A) : M (list A) :=
  _ ← storage_call env OpExecute;
  gets (λ f, q (table (f_world f))).

(** [cur.fetchone()] *)
Definition fetchone {A} (env : environment) (rs : list A) : M (option A) :=
  _ ← storage_call env OpFetch;
  mret (head rs).

(** [cur.fetchall()] *)
Definition fetchall {A} (env : environment) (rs : list A) : M (list A) :=
  _ ← storage_call env OpFetch;
  mret rs.

(** [conn.commit()]: the rows of the transaction join the table. *)
Definition commit (env : environment) : M unit :=
  _ ← storage_call env OpCommit;
  modify (λ f,
    let w := f_world f in
    Frame (Some []) (f_cur f)
          (World (table w ++ default [] (f_conn f)) (next_id w) (trace w) (logs w))).

(** [conn.rollback()]: a storage call like the others; the rows of the
    open transaction are dropped. *)
Definition rollback (env : environment) : M unit :=
  _ ← storage_call env OpRollback;
  modify (λ f, Frame (Some []) (f_cur f) (f_world f)).

(** The [finally] block: [cur.close()] when [cur] is assigned, then
    [conn.close()] when [conn] is assigned.  Both are storage calls, and an
    exception raised by the first skips the second.  An open transaction
    ends with its connection: only [commit] changes the table. *)
Definition finally (env : environment) : M unit :=
  λ f,
    match (if f_cur f then storage_call env OpCursorClose f else (Return (), f)) with
    | (Raise e, f1) => (Raise e, f1)
    | (Return _, f1) =>
        match f_conn f1 with
        | Some _ => storage_call env OpClose f1
        | None => (Return (), f1)
        end
    end.

(** ** Responses *)

(** The success document of POST /security-scans. *)
Record created := Created {
  created_status : string;
  created_scan_id : option Z;
  created_message : string;
  created_compliance_status : pyval
}.

Record summary := Summary {
  total_scans : Z;
  compliant_scans : Z;
  non_compliant_scans : Z;
  compliance_percentage : number;
  avg_issues_per_scan : number;
  max_issues_in_scan : sqlval
}.

(** A row of the per-application breakdown. *)
Record app_stat := AppStat {
  stat_application : sqlval;
  stat_scans : Z;
  stat_compliant : Z;
  stat_avg_issues : option Q
}.

(** A row of the recent non-compliant list. *)
Record issue := Issue {
  issue_application : sqlval;
  issue_repository : sqlval;
  issue_timestamp : datetime;
  issue_total_issues : sqlval;
  issue_workflow_run_id : sqlval;
  issue_overall_status : sqlval
}.

Record report := Report {
  report_generated : string;
  period_days : Z;
  filter_application : option string;
  report_summary : summary;
  applications : list app_stat;
  recent_non_compliant_scans : list issue
}.

Record coverage := Coverage {
  cov_secrets_scanning : sqlval;
  cov_sast_scanning : sqlval;
  cov_dependency_scanning : sqlval;
  cov_container_scanning : sqlval;
  cov_dast_scanning : sqlval
}.

Record app_status := AppStatus {
  status_application : string;
  current_status : sqlval;
  last_scan : string;
  status_total_issues : sqlval;
  scan_coverage : coverage
}.

(** The documents of the handlers, and [Unhandled e] where there is none
    because the exception [e] left the view function. *)
Inductive body :=
  | ErrorBody (error : string)
  | CreatedBody (c : created)
  | ReportBody (r : report)
  | StatusBody (s : app_status)
  | Unhandled (e : exn).

(** [jsonify(body), code] *)
Record response := Response {
  resp_body : body;
  resp_code : Z
}.

Definition unauthorized : response := Response (ErrorBody "Unauthorized") 401.
Definition bad_request : response := Response (ErrorBody "No JSON data provided") 400.
Definition database_error : response := Response (ErrorBody "Database error occurred") 500.
Definition internal_error : response := Response (ErrorBody "Internal server error") 500.
Definition report_failed : response := Response (ErrorBody "Failed to generate report") 500.
Definition not_found : response := Response (ErrorBody "Application not found") 404.
Definition status_failed : response := Response (ErrorBody "Failed to get status") 500.

(** An exception that no [except] clause of the handler catches leaves the
    view function; the framework then answers the request itself, with
    status 500 and a page of its own. *)
Definition unhandled (e : exn) : response := Response (Unhandled e) 500.

(** Leaving a [try] statement: the [finally] block runs whatever came
    before it, and an exception it raises replaces the value or the
    exception that was on its way out. *)
Definition leave (env : environment) (r : outcome response * frame) : response * world :=
  match finally env r.2 with
  | (Return _, f) =>
      (match r.1 with Return resp => resp | Raise e => unhandled e end, f_world f)
  | (Raise e, f) => (unhandled e, f_world f)
  end.

(** The [except Exception] clause of the two read handlers: the error is
    logged and answered with the handler's own error document. *)
Definition except_all (failed : response) (m : log_message)
    (r : outcome response * frame) : outcome response * frame :=
  match r with
  | (Return resp, f) => (Return resp, f)
  | (Raise _, f) => (Return failed, with_world (add_log ERROR m) f)
  end.

(* ===================================================================== *)
(** * Credential check *)
(* ===================================================================== *)

(** [request.headers.get('Authorization', '').replace('Bearer ', '')] *)
Definition api_key (req : request) : string :=
  str_replace (default "" (authorization req)) "Bearer " "".

(** [validate_api_key(request)] *)
Definition validate_api_key (env : environment) (req : request) : bool :=
  let expected_key := API_SECRET_KEY env in
  if negb (str_truthy (api_key req))
     || negb (bool_decide (Some (api_key req) = expected_key))
  then false
  else true.

(* ===================================================================== *)
(** * POST /security-scans *)
(* ===================================================================== *)

Section handlers.
Context `{Runtime}.

(** The numeric operands of [+]: an int, a bool counting as 0 or 1, a
    float. *)
Definition as_number (v : pyval) : option number :=
  match v with
  | PBool b => Some (NumInt (Z.b2z b))
  | PInt n => Some (NumInt n)
  | PFloat x => Some (NumFloat x)
  | _ => None
  end.

(** [a + b].  Numbers add, as integers when neither is a float; strings
    and lists concatenate; every other pair of operands raises TypeError. *)
Definition py_add (a b : pyval) : outcome pyval :=
  match a, b with
  | PStr x, PStr y => Return (PStr (x ++ y))
  | PList x, PList y => Return (PList (x ++ y)%list)
  | _, _ =>
      match as_number a, as_number b with
      | Some (NumInt x), Some (NumInt y) => Return (PInt (x + y))
      | Some x, Some y =>
          match float_add x y with
          | Some z => Return (PFloat z)
          | None => Raise OtherException
          end
      | _, _ => Raise OtherException
      end
  end.

(** [section.get(k1, {}).get(k2, dflt)] *)
Definition py_get2 (section : pyval) (k1 k2 : string) (dflt : pyval) : outcome pyval :=
  sub ← py_get section k1 (PDict ∅);
  py_get sub k2 dflt.

(** [datetime.fromisoformat(scan_metadata.get('timestamp',
    datetime.utcnow().isoformat()).replace('Z', '+00:00'))] *)
Definition scan_time_of (env : environment) (scan_metadata : pyval) : outcome datetime :=
  ts ← py_get scan_metadata "timestamp" (PStr (isoformat (utcnow env)));
  ts' ← py_replace ts "Z" "+00:00";
  match fromisoformat ts' with
  | Some t => Return t
  | None => Raise OtherException
  end.

(** The sum of the three SAST counters, as written in the parameter tuple. *)
Definition sast_sum (scan_results : pyval) : outcome pyval :=
  semgrep ← py_get2 scan_results "sast" "semgrep_findings" (PInt 0);
  eslint ← py_get2 scan_results "sast" "eslint_findings" (PInt 0);
  s1 ← py_add semgrep eslint;
  bandit ← py_get2 scan_results "sast" "bandit_findings" (PInt 0);
  py_add s1 bandit.

(** The parameter tuple of the INSERT, evaluated left to right. *)
Definition insert_params (env : environment)
    (data scan_metadata compliance_status scan_results evidence_artifacts : pyval)
    (scan_time : datetime) : outcome (scan pyval) :=
  c1 ← py_get scan_metadata "repository" (PStr "");
  c2 ← py_get scan_metadata "application" (PStr "");
  c3 ← py_get scan_metadata "branch" (PStr "");
  c4 ← py_get scan_metadata "commit_sha" (PStr "");
  c5 ← py_get scan_metadata "scan_type" (PStr "");
  c6 ← py_get compliance_status "overall_status" (PStr "UNKNOWN");
  c7 ← py_get compliance_status "total_issues" (PInt 0);
  c8 ← py_get compliance_status "severity_threshold" (PStr "");
  c9 ← py_get2 compliance_status "scan_coverage" "secrets_scanning" (PBool false);
  c10 ← py_get2 compliance_status "scan_coverage" "sast_scanning" (PBool false);
  c11 ← py_get2 compliance_status "scan_coverage" "dependency_scanning" (PBool false);
  c12 ← py_get2 compliance_status "scan_coverage" "container_scanning" (PBool false);
  c13 ← py_get2 compliance_status "scan_coverage" "dast_scanning" (PBool false);
  c14 ← py_get2 scan_results "secrets" "findings" (PInt 0);
  c15 ← sast_sum scan_results;
  c16 ← py_get2 scan_results "dependencies" "vulnerabilities" (PInt 0);
  c17 ← py_get2 scan_results "web_security" "security_headers_grade" (PStr "");
  c18 ← py_get scan_metadata "workflow_run_id" PNone;
  c19 ← py_get scan_metadata "workflow_run_number" PNone;
  c20 ← py_get evidence_artifacts "sarif_uploaded" (PBool false);
  c21 ← py_get evidence_artifacts "artifacts_available" (PBool true);
  mret (Scan scan_time c1 c2 c3 c4 c5 c6 c7 c8 c9 c10 c11 c12 c13 c14 c15 c16
             c17 c18 c19 c20 c21 (PStr (json_dumps data))).

(** The [try] block of [receive_security_scan]. *)
Definition receive_security_scan_try (env : environment) (req : request) : M response :=
  data ← lift (json_outcome (get_json req));
  if negb (py_truthy data) then mret bad_request
  else
    scan_metadata ← lift (py_get data "scan_metadata" (PDict ∅));
    compliance_status ← lift (py_get data "compliance_status" (PDict ∅));
    scan_results ← lift (py_get data "scan_results" (PDict ∅));
    evidence_artifacts ← lift (py_get data "evidence_artifacts" (PDict ∅));
    _ ← assign_conn env;
    _ ← assign_cur env;
    scan_time ← lift (scan_time_of env scan_metadata);
    params ← lift (insert_params env data scan_metadata compliance_status
                                 scan_results evidence_artifacts scan_time);
    ids ← execute_insert env params;
    result ← fetchone env ids;
    let scan_id := result in
    _ ← commit env;
    _ ← logger INFO (MsgStored scan_id);
    status ← lift (py_get compliance_status "overall_status" PNone);
    _ ← (if py_eq_str status "NON_COMPLIANT"
         then app ← lift (py_get scan_metadata "application" (PStr "unknown"));
              logger WARNING (MsgNonCompliant app)
         else mret ());
    echoed ← lift (py_get compliance_status "overall_status" (PStr "UNKNOWN"));
    mret (Response
            (CreatedBody (Created "success" scan_id
                                  "Security scan data received and stored" echoed))
            201).

(** The [except] clauses of [receive_security_scan]: a storage error is
    logged and rolled back when [conn] is assigned, and an exception raised
    by the rollback leaves the clause; any other exception is logged. *)
Definition receive_security_scan_except (env : environment)
    (r : outcome response * frame) : outcome response * frame :=
  match r with
  | (Return resp, f) => (Return resp, f)
  | (Raise PsycopgError, f) =>
      let f1 := with_world (add_log ERROR MsgDatabaseError) f in
      match f_conn f1 with
      | Some _ =>
          match rollback env f1 with
          | (Return _, f2) => (Return database_error, f2)
          | (Raise e, f2) => (Raise e, f2)
          end
      | None => (Return database_error, f1)
      end
  | (Raise OtherException, f) =>
      (Return internal_error, with_world (add_log ERROR MsgUnexpectedError) f)
  end.

(** [receive_security_scan()] *)
Definition receive_security_scan (env : environment) (req : request) (w : world)
    : response * world :=
  if negb (validate_api_key env req)
  then (unauthorized, add_log WARNING (MsgUnauthorized (remote_addr req)) w)
  else
    leave env (receive_security_scan_except env
                 (receive_security_scan_try env req (new_frame w))).

(* ===================================================================== *)
(** * GET /compliance-report *)
(* ===================================================================== *)

Definition microseconds_per_day : Z := 86400000000.

(** [base_where]: [timestamp >= NOW() - INTERVAL 'days days'], and
    [application = %s] when the filter is given. *)
Definition base_where (env : environment) (days : Z) (application : option string)
    (r : row) : bool :=
  (db_now env - days * microseconds_per_day <=? row_timestamp r)%Z
  && match application with
     | Some a => sql_eq_text (row_application r) a
     | None => true
     end.

(** [COUNT( * ) FILTER (WHERE overall_status = 'lit')] *)
Definition count_status (lit : string) (rows : list row) : Z :=
  Z.of_nat (length (filter (λ r, sql_eq_text (row_overall_status r) lit = true) rows)).

(** The row of [stats_query]. *)
Record stats := Stats {
  st_total_scans : Z;
  st_compliant_scans : Z;
  st_non_compliant_scans : Z;
  st_avg_issues_per_scan : option Q;
  st_max_issues_in_scan : sqlval
}.

(** [stats_query]: an aggregate without GROUP BY yields exactly one row. *)
Definition stats_query (env : environment) (days : Z) (application : option string)
    (tbl : list row) : list stats :=
  let rows := filter (λ r, base_where env days application r = true) tbl in
  [Stats (Z.of_nat (length rows))
         (count_status "COMPLIANT" rows)
         (count_status "NON_COMPLIANT" rows)
         (sql_avg (row_total_issues <$> rows))
         (sql_max (row_total_issues <$> rows))].

(** [ORDER BY scans DESC] *)
Definition by_scans_desc (a b : app_stat) : Prop := (stat_scans b ≤ stat_scans a)%Z.

(** [ORDER BY timestamp DESC] *)
Definition by_timestamp_desc (a b : row) : Prop :=
  (row_timestamp b ≤ row_timestamp a)%Z.

Global Instance by_scans_desc_dec a b : Decision (by_scans_desc a b).
Proof. unfold by_scans_desc. apply _. Defined.

Global Instance by_timestamp_desc_dec a b : Decision (by_timestamp_desc a b).
Proof. unfold by_timestamp_desc. apply _. Defined.

(** The rows of one group of [GROUP BY application]. *)
Definition group_of (key : sqlval) (rows : list row) : list row :=
  filter (λ r, row_application r = key) rows.

(** [app_query]: one row per distinct application, most scans first. *)
Definition app_query (env : environment) (days : Z) (application : option string)
    (tbl : list row) : list app_stat :=
  let rows := filter (λ r, base_where env days application r = true) tbl in
  let keys := remove_dups (row_application <$> rows) in
  merge_sort by_scans_desc
    ((λ k,
        let g := group_of k rows in
        AppStat k (Z.of_nat (length g)) (count_status "COMPLIANT" g)
                (sql_avg (row_total_issues <$> g)))
     <$> keys).

Definition issue_of_row (r : row) : issue :=
  let c := row_cols r in
  Issue (application c) (repository c) (timestamp c) (total_issues c)
        (workflow_run_id c) (overall_status c).

(** [recent_issues_query]: the non-compliant rows of the window, latest
    first, at most ten. *)
Definition recent_issues_query (env : environment) (days : Z)
    (application : option string) (tbl : list row) : list issue :=
  let rows :=
    filter (λ r, base_where env days application r
                 && sql_eq_text (row_overall_status r) "NON_COMPLIANT" = true)
           tbl in
  issue_of_row <$> take 10 (merge_sort by_timestamp_desc rows).

(** [a / b] on integers: ZeroDivisionError when [b] is zero. *)
Definition py_truediv (a b : Z) : outcome PrimFloat.float :=
  if (b =? 0)%Z then Raise OtherException else Return (int_truediv a b).

(** [round(x, ndigits)] with [ndigits] not negative: an int is returned as
    it is. *)
Definition py_round (x : number) (ndigits : Z) : number :=
  match x with
  | NumInt n => NumInt n
  | NumFloat y => NumFloat (float_round y ndigits)
  end.

(** The lines that compute [compliance_percentage]. *)
Definition compliance_percentage_of (stats_result : option stats) : outcome number :=
  match stats_result with
  | Some st =>
      if (0 <? st_total_scans st)%Z
      then q ← py_truediv (st_compliant_scans st) (st_total_scans st);
           mret (NumFloat (float_mul_int q 100))
      else mret (NumInt 0)
  | None => mret (NumInt 0)
  end.

(** [float(avg or 0)]: NULL and a zero Decimal are falsy. *)
Definition float_of_avg (avg : option Q) : PrimFloat.float :=
  match avg with
  | Some d => if Qeq_bool d 0 then float_of_int 0 else float_of_decimal d
  | None => float_of_int 0
  end.

(** The ["summary"] object of the report. *)
Definition summary_of (stats_result : option stats) (pct : number) : summary :=
  match stats_result with
  | Some st =>
      Summary (st_total_scans st) (st_compliant_scans st) (st_non_compliant_scans st)
              (py_round pct 2)
              (py_round (NumFloat (float_of_avg (st_avg_issues_per_scan st))) 2)
              (st_max_issues_in_scan st)
  | None =>
      Summary 0 0 0 (py_round pct 2) (NumInt 0) (SInt 0)
  end.

(** [request.args.get('days', 30, type=int)]: the default also replaces a
    value that [int] refuses. *)
Definition days_of (req : request) : Z :=
  default 30 (args req !! "days" ≫= py_int).

(** [application] as used by [if application:]. *)
Definition filter_of (application : option string) : option string :=
  match application with
  | Some a => if str_truthy a then Some a else None
  | None => None
  end.

(** The [try] block of [get_compliance_report]. *)
Definition get_compliance_report_try (env : environment) (req : request) : M response :=
  let days := days_of req in
  let application := args req !! "application" in
  _ ← assign_conn env;
  _ ← assign_cur env;
  let flt := filter_of application in
  rs ← execute_select env (stats_query env days flt);
  stats_result ← fetchone env rs;
  rs ← execute_select env (app_query env days flt);
  apps ← fetchall env rs;
  rs ← execute_select env (recent_issues_query env days flt);
  recent_issues ← fetchall env rs;
  pct ← lift (compliance_percentage_of stats_result);
  mret (Response
          (ReportBody (Report (isoformat (utcnow env)) days application
                              (summary_of stats_result pct) apps recent_issues))
          200).

(** [get_compliance_report()] *)
Definition get_compliance_report (env : environment) (req : request) (w : world)
    : response * world :=
  if negb (validate_api_key env req)
  then (unauthorized, w)
  else
    leave env (except_all report_failed MsgReportError
                 (get_compliance_report_try env req (new_frame w))).

(* ===================================================================== *)
(** * GET /compliance-status/<application> *)
(* ===================================================================== *)

(** [SELECT * ... WHERE application = %s ORDER BY timestamp DESC LIMIT 1] *)
Definition latest_scan_query (application : string) (tbl : list row) : list row :=
  take 1 (merge_sort by_timestamp_desc
            (filter (λ r, sql_eq_text (row_application r) application = true)
                    tbl)).

(** The document built from [latest_scan]. *)
Definition status_of_row (application : string) (latest_scan : row) : app_status :=
  let c := row_cols latest_scan in
  AppStatus application (overall_status c) (isoformat (timestamp c)) (total_issues c)
            (Coverage (secrets_scanning c) (sast_scanning c) (dependency_scanning c)
                      (container_scanning c) (dast_scanning c)).

(** The [try] block of [get_application_status]. *)
Definition get_application_status_try (env : environment) (application : string)
    : M response :=
  _ ← assign_conn env;
  _ ← assign_cur env;
  rs ← execute_select env (latest_scan_query application);
  latest_scan ← fetchone env rs;
  match latest_scan with
  | None => mret not_found
  | Some r => mret (Response (StatusBody (status_of_row application r)) 200)
  end.

(** [get_application_status(application)] *)
Definition get_application_status (env : environment) (req : request)
    (application : string) (w : world) : response * world :=
  if negb (validate_api_key env req)
  then (unauthorized, w)
  else
    leave env (except_all status_failed MsgStatusError
                 (get_application_status_try env application (new_frame w))).

End handlers.

(* ===================================================================== *)
(** * Vocabulary of the report and status properties *)
(* ===================================================================== *)

Section report_vocabulary.
Context `{Runtime}.

(** The records of the report window of a request. *)
Definition window_rows (env : environment) (req : request) (tbl : list row) : list row :=
  filter (λ r, base_where env (days_of req) (filter_of (args req !! "application")) r = true)
         tbl.

(** [compliant / total * 100] rounded to two decimals with the float
    arithmetic of the runtime, and the integer 0 when there is no record. *)
Definition percentage (compliant total : Z) : number :=
  if (total =? 0)%Z then NumInt 0
  else NumFloat (float_round (float_mul_int (int_truediv compliant total) 100) 2).

End report_vocabulary.

(** Latest first, on the rows of the recent non-compliant list. *)
Definition issue_by_timestamp_desc (a b : issue) : Prop :=
  (issue_timestamp b ≤ issue_timestamp a)%Z.

(** A record of the application [app]. *)
Definition record_of (app : string) (r : row) : Prop := row_application r = SText app.

(* ===================================================================== *)
(** * A reference runtime *)
(* ===================================================================== *)

(** A small executable [Runtime], used to run the handlers on concrete
    requests.  The properties below are proved for every runtime; this one
    reads and prints timestamps in the form [YYYY-MM-DDTHH:MM:SS], with an
    optional [.ffffff] and an optional [+HH:MM] or [-HH:MM] offset, and
    refuses every other text. *)
Module Reference.

Definition digit_char (d : Z) : ascii := ascii_of_nat (48 + Z.to_nat (d mod 10)).

Fixpoint digits (width : nat) (n : Z) (acc : string) : string :=
  match width with
  | O => acc
  | S k => digits k (n / 10) (String (digit_char n) acc)
  end.

Definition digit_value (c : ascii) : option Z :=
  let n := Z.of_nat (nat_of_ascii c) in
  if ((48 <=? n) && (n <=? 57))%Z then Some (n - 48)%Z else None.

Fixpoint number_of (acc : Z) (s : string) : option Z :=
  match s with
  | EmptyString => Some acc
  | String c s' => d ← digit_value c; number_of (10 * acc + d) s'
  end.

(** The field of [len] digits at [pos]. *)
Definition field (s : string) (pos len : nat) : option Z :=
  let t := String.substring pos len s in
  if (String.length t =? len)%nat then number_of 0 t else None.

Definition char_at (s : string) (pos : nat) (c : ascii) : bool :=
  bool_decide (String.get pos s = Some c).

(** Days since the epoch of a proleptic Gregorian date, and back. *)
Definition days_from_civil (y m d : Z) : Z :=
  let y' := if (m <=? 2)%Z then y - 1 else y in
  let era := y' / 400 in
  let yoe := y' - era * 400 in
  let mp := if (2 <? m)%Z then m - 3 else m + 9 in
  let doy := (153 * mp + 2) / 5 + d - 1 in
  let doe := yoe * 365 + yoe / 4 - yoe / 100 + doy in
  era * 146097 + doe - 719468.

Definition civil_from_days (z0 : Z) : Z * Z * Z :=
  let z := z0 + 719468 in
  let era := z / 146097 in
  let doe := z - era * 146097 in
  let yoe := (doe - doe / 1460 + doe / 36524 - doe / 146096) / 365 in
  let doy := doe - (365 * yoe + yoe / 4 - yoe / 100) in
  let mp := (5 * doy + 2) / 153 in
  let d := doy - (153 * mp + 2) / 5 + 1 in
  let m := if (mp <? 10)%Z then mp + 3 else mp - 9 in
  let y := yoe + era * 400 in
  (if (m <=? 2)%Z then y + 1 else y, m, d).

Definition isoformat (t : datetime) : string :=
  let days := t / microseconds_per_day in
  let rest := t mod microseconds_per_day in
  let '(y, m, d) := civil_from_days days in
  let secs := rest / 1000000 in
  let us := rest mod 1000000 in
  digits 4 y "" ++ "-" ++ digits 2 m "" ++ "-" ++ digits 2 d "" ++ "T"
  ++ digits 2 (secs / 3600) "" ++ ":" ++ digits 2 (secs / 60 mod 60) "" ++ ":"
  ++ digits 2 (secs mod 60) ""
  ++ (if (us =? 0)%Z then "" else "." ++ digits 6 us "").

(** [+HH:MM] or [-HH:MM] at [pos], in microseconds; nothing at [pos] is a
    zero offset. *)
Definition offset_at (s : string) (pos : nat) : option Z :=
  if (String.length s =? pos)%nat then Some 0
  else if (String.length s =? pos + 6)%nat && char_at s (pos + 3) ":"
  then hh ← field s (pos + 1) 2;
       mm ← field s (pos + 4) 2;
       if ((hh <? 24) && (mm <? 60))%Z
       then if char_at s pos "+" then Some ((hh * 60 + mm) * 60000000)
            else if char_at s pos "-" then Some (- ((hh * 60 + mm) * 60000000))
            else None
       else None
  else None.

Definition fromisoformat (s : string) : option datetime :=
  if char_at s 4 "-" && char_at s 7 "-" && char_at s 10 "T"
     && char_at s 13 ":" && char_at s 16 ":"
  then y ← field s 0 4;
       m ← field s 5 2;
       d ← field s 8 2;
       hh ← field s 11 2;
       mi ← field s 14 2;
       ss ← field s 17 2;
       '(us, pos) ← (if char_at s 19 "."
                     then us ← field s 20 6; Some (us, 26%nat)
                     else Some (0, 19%nat));
       off ← offset_at s pos;
       if ((1 <=? y) && (1 <=? m) && (m <=? 12) && (1 <=? d) && (hh <? 24)
           && (mi <? 60) && (ss <? 60))%Z
          && bool_decide (civil_from_days (days_from_civil y m d) = (y, m, d))
       then Some (days_from_civil y m d * microseconds_per_day
                  + ((hh * 60 + mi) * 60 + ss) * 1000000 + us - off)
       else None
  else None.

(** Integers as floats, for the magnitudes a count can take. *)
Definition float_of_int (n : Z) : PrimFloat.float :=
  if (0 <=? n)%Z then PrimFloat.of_uint63 (Uint63.of_Z n)
  else PrimFloat.opp (PrimFloat.of_uint63 (Uint63.of_Z (- n))).

Definition int_truediv (a b : Z) : PrimFloat.float :=
  PrimFloat.div (float_of_int a) (float_of_int b).

Definition float_mul_int (x : PrimFloat.float) (n : Z) : PrimFloat.float :=
  PrimFloat.mul x (float_of_int n).

(** Rounding through the nearest integer of the scaled value. *)
Definition float_round (x : PrimFloat.float) (ndigits : Z) : PrimFloat.float :=
  let scale := float_of_int (10 ^ ndigits) in
  let big := float_of_int (2 ^ 52) in
  let scaled := PrimFloat.mul x scale in
  let nearest :=
    if PrimFloat.ltb scaled PrimFloat.zero
    then PrimFloat.add (PrimFloat.sub scaled big) big
    else PrimFloat.sub (PrimFloat.add scaled big) big in
  PrimFloat.div nearest scale.

Definition float_of_decimal (d : Q) : PrimFloat.float :=
  int_truediv (Qnum d) (Z.pos (Qden d)).

Definition float_of_number (a : number) : PrimFloat.float :=
  match a with
  | NumInt n => float_of_int n
  | NumFloat x => x
  end.

Definition float_add (a b : number) : option PrimFloat.float :=
  Some (PrimFloat.add (float_of_number a) (float_of_number b)).

Definition int_values (vs : list sqlval) : list Z :=
  omap (λ v, match v with SInt n => Some n | _ => None end) vs.

Definition sql_avg (vs : list sqlval) : option Q :=
  match int_values vs with
  | [] => None
  | n :: ns => Some (Qmake (foldr Z.add 0 (n :: ns)) (Pos.of_nat (length (n :: ns))))
  end.

Definition sql_max (vs : list sqlval) : sqlval :=
  match int_values vs with
  | [] => SNull
  | n :: ns => SInt (foldr Z.max n ns)
  end.

Definition py_int (s : string) : option Z :=
  match s with
  | EmptyString => None
  | String "-" (String c s') => Z.opp <$> number_of 0 (String c s')
  | _ => number_of 0 s
  end.

Definition quote (s : string) : string :=
  String (ascii_of_nat 34) (s ++ String (ascii_of_nat 34) "").

(** The digits of [n], at least [width] of them, with a point before the
    last [places]. *)
Definition fixed_point (n : Z) (places : nat) : string :=
  let ds := pretty n in
  let ds := String.concat "" (replicate (S places - String.length ds) "0") ++ ds in
  let k := (String.length ds - places)%nat in
  String.substring 0 k ds ++ "." ++ String.substring k places ds.

(** A float written with all the decimals of its exact value, where Python
    writes the shortest text that reads back as the same float. *)
Definition float_text (x : PrimFloat.float) : string :=
  match FloatOps.Prim2SF x with
  | SpecFloat.S754_zero s => if s then "-0.0" else "0.0"
  | SpecFloat.S754_infinity s => if s then "-Infinity" else "Infinity"
  | SpecFloat.S754_nan => "NaN"
  | SpecFloat.S754_finite s m e =>
      (if s then "-" else "")
      ++ (if (0 <=? e)%Z then pretty (Z.pos m * 2 ^ e)%Z ++ ".0"
          else fixed_point (Z.pos m * 5 ^ (- e))%Z (Z.to_nat (- e)))
  end.

(** A serializer: the items of an object come in their order, separated as
    [json.dumps] separates them; texts are written without escapes. *)
Fixpoint json_dumps (v : pyval) : string :=
  match v with
  | PNone => "null"
  | PBool true => "true"
  | PBool false => "false"
  | PInt n => pretty n
  | PFloat x => float_text x
  | PStr s => quote s
  | PList l => "[" ++ join ", " (json_dumps <$> l) ++ "]"
  | PDict d =>
      "{" ++ join ", " ((λ '(k, x), quote k ++ ": " ++ json_dumps x) <$> d) ++ "}"
  end.

(** The casts of this runtime: numbers and booleans are written out for a
    text column, a text of digits is read for an integer column and the
    texts [true] and [false] for a boolean column; an identifier column
    keeps integers and texts.  It refuses every other parameter, lists and
    floats among them. *)
Definition coerce (ty : coltype) (v : pyval) : option sqlval :=
  match ty, v with
  | TText, PInt n => Some (SText (pretty n))
  | TText, PBool b => Some (SText (if b then "true" else "false"))
  | TInteger, PStr s => SInt <$> py_int s
  | TBoolean, PStr s =>
      if String.eqb s "true" then Some (SBool true)
      else if String.eqb s "false" then Some (SBool false) else None
  | TIdentifier, PInt n => Some (SInt n)
  | TIdentifier, PStr s => Some (SText s)
  | _, _ => None
  end.

Definition runtime : Runtime :=
  Build_Runtime isoformat fromisoformat json_dumps py_int int_truediv
                float_mul_int float_round float_of_int float_of_decimal
                float_add coerce sql_avg sql_max.

End Reference.


(* ===================================================================== *)
(** * Vocabulary of the properties *)
(* ===================================================================== *)

(** A storage layer none of whose calls fails. *)
Definition healthy (env : environment) : Prop := ∀ n, storage_fails env n = false.

(** The first [n] storage calls made from the world [w] succeed. *)
Definition calls_succeed (env : environment) (w : world) (n : nat) : Prop :=
  ∀ j, (j < n)%nat → storage_fails env (length (trace w) + j) = false.

(** The [n] storage calls made from position [start] of the trace on
    succeed. *)
Definition calls_succeed_from (env : environment) (start n : nat) : Prop :=
  ∀ j, (j < n)%nat → storage_fails env (start + j) = false.

(** The world a request leaves behind: the table, the sequence, the new
    storage calls and the new log entries. *)
Definition after (w : world) (tbl : list row) (nid : Z) (ops : list storage_op)
    (msgs : list (log_level * log_message)) : world :=
  World tbl nid (trace w ++ ops) (logs w ++ msgs).

(** The calls of the [finally] block for the locals of [f]. *)
Definition closing_calls (f : frame) : list storage_op :=
  ((if f_cur f then [OpCursorClose] else [])
   ++ match f_conn f with Some _ => [OpClose] | None => [] end)%list.

(** The rollback of the [except psycopg2.Error] clause, made when the
    [try] block ended with a storage error and [conn] is assigned. *)
Definition rollback_calls (out : outcome response) (f : frame) : list storage_op :=
  match out, f_conn f with
  | Raise PsycopgError, Some _ => [OpRollback]
  | _, _ => []
  end.

(** Whether that rollback raises. *)
Definition rollback_fails (env : environment) (out : outcome response) (f : frame)
    : bool :=
  match rollback_calls out f with
  | [] => false
  | _ :: _ => storage_fails env (length (trace (f_world f)))
  end.

(** What the [except] clauses of the ingestion handler answer and log for
    the way the [try] block ended. *)
Definition handled (out : outcome response) : response :=
  match out with
  | Return resp => resp
  | Raise PsycopgError => database_error
  | Raise OtherException => internal_error
  end.

Definition except_logs (out : outcome response) : list (log_level * log_message) :=
  match out with
  | Return _ => []
  | Raise PsycopgError => [(ERROR, MsgDatabaseError)]
  | Raise OtherException => [(ERROR, MsgUnexpectedError)]
  end.

(** The same for the one [except] clause of a read handler. *)
Definition handled_all (failed : response) (out : outcome response) : response :=
  match out with
  | Return resp => resp
  | Raise _ => failed
  end.

Definition except_all_logs (m : log_message) (out : outcome response)
    : list (log_level * log_message) :=
  match out with
  | Return _ => []
  | Raise _ => [(ERROR, m)]
  end.

(** A SAST sub-counter of the payload: missing, or an integer. *)
Definition counter_ok (sast : pydict) (key : string) : Prop :=
  match sast !! key with
  | None => True
  | Some (PInt _) => True
  | Some _ => False
  end.

(** Its value, a missing counter counting for zero. *)
Definition counter (sast : pydict) (key : string) : Z :=
  match sast !! key with
  | Some (PInt n) => n
  | _ => 0
  end.

(** The sub-field [k2] of the sub-section [k1] is missing: there is no
    sub-section, or the sub-section is a dict without [k2]. *)
Definition missing2 (section : pydict) (k1 k2 : string) : Prop :=
  match section !! k1 with
  | None => True
  | Some (PDict sub) => sub !! k2 = None
  | Some _ => False
  end.

(** A field of the payload that fills a column: its key, the type of the
    column, the column, and the documented default, as the handler passes
    it and as the table holds it. *)
Definition field : Type :=
  string * coltype * (∀ V, scan V → V) * pyval * sqlval.

(** The fields read in [scan_metadata], in [compliance_status] and in
    [evidence_artifacts]. *)
Definition metadata_defaults : list field :=
  [("repository", TText, @repository, PStr "", SText "");
   ("application", TText, @application, PStr "", SText "");
   ("branch", TText, @branch, PStr "", SText "");
   ("commit_sha", TText, @commit_sha, PStr "", SText "");
   ("scan_type", TText, @scan_type, PStr "", SText "");
   ("workflow_run_id", TIdentifier, @workflow_run_id, PNone, SNull);
   ("workflow_run_number", TIdentifier, @workflow_run_number, PNone, SNull)].

Definition compliance_defaults : list field :=
  [("overall_status", TText, @overall_status, PStr "UNKNOWN", SText "UNKNOWN");
   ("total_issues", TInteger, @total_issues, PInt 0, SInt 0);
   ("severity_threshold", TText, @severity_threshold, PStr "", SText "")].

Definition evidence_defaults : list field :=
  [("sarif_uploaded", TBoolean, @sarif_uploaded, PBool false, SBool false);
   ("artifacts_available", TBoolean, @artifacts_available, PBool true, SBool true)].

(** The same for the fields read two levels down: in
    [compliance_status.scan_coverage], and in the sub-sections of
    [scan_results], each with the key of its sub-section. *)
Definition coverage_defaults : list field :=
  [("secrets_scanning", TBoolean, @secrets_scanning, PBool false, SBool false);
   ("sast_scanning", TBoolean, @sast_scanning, PBool false, SBool false);
   ("dependency_scanning", TBoolean, @dependency_scanning, PBool false, SBool false);
   ("container_scanning", TBoolean, @container_scanning, PBool false, SBool false);
   ("dast_scanning", TBoolean, @dast_scanning, PBool false, SBool false)].

Definition results_defaults : list (string * field) :=
  [("secrets", ("findings", TInteger, @secrets_findings, PInt 0, SInt 0));
   ("dependencies",
    ("vulnerabilities", TInteger, @dependency_vulnerabilities, PInt 0, SInt 0));
   ("web_security",
    ("security_headers_grade", TText, @web_security_grade, PStr "", SText ""))].

(** The column of a field holds the default of the field when the field is
    missing from the payload. *)
Definition defaulted (missing : string → Prop) (cols : scan sqlval) (f : field) : Prop :=
  let '(k, _, col, _, dflt) := f in missing k → col sqlval cols = dflt.

(** The keys of the three SAST counters, in the order they are added. *)
Definition counter_keys : list string :=
  ["semgrep_findings"; "eslint_findings"; "bandit_findings"].

Section payload_types.
Context `{Runtime}.

(** A value of the type the data model gives a field: a text (which the
    driver adapts when it has no NUL character), an integer, a boolean;
    and for an identifier, whose type is open, a value that the driver
    adapts and the server accepts. *)
Definition typed (ty : coltype) (v : pyval) : Prop :=
  match ty, v with
  | TText, PStr s => has_nul s = false
  | TInteger, PInt _ => True
  | TBoolean, PBool _ => True
  | TIdentifier, _ => adapt v = Return () ∧ is_Some (column_value TIdentifier v)
  | _, _ => False
  end.

(** The field [key] of a section is missing or of its type. *)
Definition field_ok (ty : coltype) (section : pydict) (key : string) : Prop :=
  match section !! key with
  | None => True
  | Some v => typed ty v
  end.

(** The same for a field of a sub-section, which is missing or an object. *)
Definition field2_ok (ty : coltype) (section : pydict) (k1 k2 : string) : Prop :=
  match section !! k1 with
  | None => True
  | Some (PDict sub) => field_ok ty sub k2
  | Some _ => False
  end.

(** The timestamp is missing, or a text that the library reads. *)
Definition timestamp_ok (md : pydict) : Prop :=
  match md !! "timestamp" with
  | None => True
  | Some (PStr s) => is_Some (fromisoformat (str_replace s "Z" "+00:00"))
  | Some _ => False
  end.

(** A payload whose present fields all have the types of the data model,
    given by its four sections. *)
Definition well_typed (md cs sr ea : pydict) : Prop :=
  timestamp_ok md
  ∧ Forall (λ '(k, ty, _, _, _), field_ok ty md k) metadata_defaults
  ∧ Forall (λ '(k, ty, _, _, _), field_ok ty cs k) compliance_defaults
  ∧ Forall (λ '(k, ty, _, _, _), field2_ok ty cs "scan_coverage" k) coverage_defaults
  ∧ Forall (λ '(k1, (k2, ty, _, _, _)), field2_ok ty sr k1 k2) results_defaults
  ∧ Forall (field2_ok TInteger sr "sast") counter_keys
  ∧ Forall (λ '(k, ty, _, _, _), field_ok ty ea k) evidence_defaults.

End payload_types.

(** The row stored for a payload none of whose fields is present. *)
Definition default_row (t : datetime) (payload_json : string) : scan sqlval :=
  Scan t (SText "") (SText "") (SText "") (SText "") (SText "")
       (SText "UNKNOWN") (SInt 0) (SText "")
       (SBool false) (SBool false) (SBool false) (SBool false) (SBool false)
       (SInt 0) (SInt 0) (SInt 0) (SText "") SNull SNull
       (SBool false) (SBool true) (SText payload_json).

(* ===================================================================== *)
(** * Sample requests and worlds *)
(* ===================================================================== *)

Definition sample_env : environment :=
  Environment (Some "s3cret") 1700000000000000 1700000000000000 (λ _, false).

Definition sample_world : world := World [] 1 [] [].

Definition sample_request (auth : option string) (js : json_result) : request :=
  Request auth "10.0.0.7" js ∅.

(** [{"scan_results": {"sast": {"semgrep_findings": 2}}}] with a valid
    credential. *)
Definition semgrep_only_request : request :=
  sample_request (Some "Bearer s3cret")
    (Json (PDict [("scan_results",
                   PDict [("sast", PDict [("semgrep_findings", PInt 2)])])])).

(** [{"scan_metadata": {"application": "svc-a"}}]: no timestamp. *)
Definition no_timestamp_request : request :=
  sample_request (Some "Bearer s3cret")
    (Json (PDict [("scan_metadata", PDict [("application", PStr "svc-a")])])).

(** [{"scan_metadata": {"timestamp": "not-a-date"}}] *)
Definition bad_timestamp_request : request :=
  sample_request (Some "Bearer s3cret")
    (Json (PDict [("scan_metadata", PDict [("timestamp", PStr "not-a-date")])])).

(** [{}]: a JSON object, every field of which is missing. *)
Definition empty_object_request : request :=
  sample_request (Some "Bearer s3cret") (Json (PDict ∅)).

(** A body that [get_json] refuses: no body, or one that is not JSON. *)
Definition refused_body_request : request :=
  sample_request (Some "Bearer s3cret") JsonRejected.

(** [{"source": "ci"}]: a non-empty object without any of the four
    sections. *)
Definition no_section_request : request :=
  sample_request (Some "Bearer s3cret") (Json (PDict [("source", PStr "ci")])).

(** A GET request with a valid credential and the given query string. *)
Definition get_request (query : gmap string string) : request :=
  Request (Some "Bearer s3cret") "10.0.0.7" (Json PNone) query.

(** A stored record that differs from the row of defaults in its id, time,
    application, status and number of issues. *)
Definition sample_row (id : Z) (t : datetime) (app status : string) (issues : Z) : row :=
  Row id (Scan t (SText "org/repo") (SText app) (SText "main") (SText "") (SText "ci")
               (SText status) (SInt issues) (SText "high")
               (SBool true) (SBool true) (SBool false) (SBool false) (SBool false)
               (SInt 0) (SInt issues) (SInt 0) (SText "A") SNull SNull
               (SBool false) (SBool true) (SText "{...}")).

(** Four records of the last days before [db_now sample_env], and one that
    is a year old. *)
Definition populated_world : world :=
  World [sample_row 1 1699000000000000 "svc-a" "COMPLIANT" 0;
         sample_row 2 1699500000000000 "svc-b" "NON_COMPLIANT" 4;
         sample_row 3 1699900000000000 "svc-a" "NON_COMPLIANT" 5;
         sample_row 4 1699700000000000 "svc-a" "COMPLIANT" 0;
         sample_row 5 1668000000000000 "svc-c" "NON_COMPLIANT" 9]
        6 [] [].

(** An environment whose third storage call, the INSERT, fails. *)
Definition failing_insert_env : environment :=
  Environment (Some "s3cret") 1700000000000000 1700000000000000
              (λ n, bool_decide (n = 2%nat)).

(* ===================================================================== *)
(** * GET /health *)
(* ===================================================================== *)

(** The two documents of the health endpoint. *)
Inductive health_body :=
  | Healthy (timestamp : string)
  | Unhealthy (error : string).

Record health_response := HealthResponse {
  health_body_of : health_body;
  health_code : Z
}.

(** The [try] block of [health_check()]: [conn.close()] is inside it, so a
    failure of either call is caught. *)
Definition health_check_try `{Runtime} (env : environment) : M health_response :=
  _ ← get_db_connection env;
  _ ← storage_call env OpClose;
  mret (HealthResponse (Healthy (isoformat (utcnow env))) 200).

(** [health_check()].  The handler reads no header.  [error_text] is
    [str(e)], the text of the exception that was caught. *)
Definition health_check `{Runtime} (env : environment) (error_text : string)
    (w : world) : health_response * world :=
  match health_check_try env (new_frame w) with
  | (Return resp, f) => (resp, f_world f)
  | (Raise _, f) => (HealthResponse (Unhealthy error_text) 500, f_world f)
  end.

(* ===================================================================== *)
(** * Vocabulary of the further properties *)
(* ===================================================================== *)

(** A JSON object, as opposed to every other decoded value. *)
Definition is_dict (v : pyval) : Prop :=
  match v with
  | PDict _ => True
  | _ => False
  end.

(** A JSON string. *)
Definition is_text (v : pyval) : Prop :=
  match v with
  | PStr _ => True
  | _ => False
  end.

(** The four sections of a payload, each with [{}] for a missing one. *)
Definition sections (d : pydict) : list pyval :=
  (λ k, default (PDict ∅) (d !! k))
  <$> ["scan_metadata"; "compliance_status"; "scan_results"; "evidence_artifacts"].

(** A SAST counter sent as a JSON string. *)
Definition counter_is_text (sast : pydict) (key : string) : Prop :=
  match sast !! key with
  | Some (PStr _) => True
  | _ => False
  end.

(** [{"scan_metadata": {"application": "svc-a"},
      "compliance_status": {"overall_status": "NON_COMPLIANT", "total_issues": 5}}],
    the payload of the end-to-end example. *)
Definition non_compliant_request : request :=
  sample_request (Some "Bearer s3cret")
    (Json (PDict [("scan_metadata", PDict [("application", PStr "svc-a")]);
                  ("compliance_status",
                   PDict [("overall_status", PStr "NON_COMPLIANT");
                          ("total_issues", PInt 5)])])).

(** [{"scan_metadata": {"timestamp": null}}] *)
Definition null_timestamp_request : request :=
  sample_request (Some "Bearer s3cret")
    (Json (PDict [("scan_metadata", PDict [("timestamp", PNone)])])).

(** [[1, 2]]: valid JSON that is not an object. *)
Definition array_request : request :=
  sample_request (Some "Bearer s3cret") (Json (PList [PInt 1; PInt 2])).

(** [{"scan_results": "none"}] *)
Definition text_section_request : request :=
  sample_request (Some "Bearer s3cret")
    (Json (PDict [("scan_results", PStr "none")])).

(** [{"scan_results": {"sast": {"semgrep_findings": "2"}}}] *)
Definition text_counter_request : request :=
  sample_request (Some "Bearer s3cret")
    (Json (PDict [("scan_results",
                   PDict [("sast", PDict [("semgrep_findings", PStr "2")])])])).

(** The storage calls of an ingestion that the handler answers itself:
    with the internal error, with the database error, and with 201. *)
Definition internal_error_calls : list (list storage_op) :=
  [[];
   [OpConnect; OpCursor; OpCursorClose; OpClose];
   [OpConnect; OpCursor; OpExecute; OpCursorClose; OpClose]].

Definition database_error_calls : list (list storage_op) :=
  [[OpConnect];
   [OpConnect; OpCursor; OpRollback; OpClose];
   [OpConnect; OpCursor; OpExecute; OpRollback; OpCursorClose; OpClose];
   [OpConnect; OpCursor; OpExecute; OpFetch; OpRollback; OpCursorClose; OpClose];
   [OpConnect; OpCursor; OpExecute; OpFetch; OpCommit; OpRollback; OpCursorClose;
    OpClose]].

Definition created_calls : list storage_op :=
  [OpConnect; OpCursor; OpExecute; OpFetch; OpCommit; OpCursorClose; OpClose].

(** The storage calls of the two read handlers when nothing fails, before
    the [finally] block. *)
Definition report_calls : list storage_op :=
  [OpConnect; OpCursor; OpExecute; OpFetch; OpExecute; OpFetch; OpExecute; OpFetch].

Definition status_calls : list storage_op :=
  [OpConnect; OpCursor; OpExecute; OpFetch].

(** What the [finally] block closes after [s] successful calls: nothing
    when connecting failed, the connection when no cursor was obtained,
    the cursor and the connection otherwise. *)
Definition closing_after (s : nat) : list storage_op :=
  match s with
  | O => []
  | S O => [OpClose]
  | S (S _) => [OpCursorClose; OpClose]
  end.

(** An environment whose [k]-th storage call fails. *)
Definition failing_call_env (k : nat) : environment :=
  Environment (Some "s3cret") 1700000000000000 1700000000000000
              (λ n, bool_decide (n = k)).

(** The sum of a column of integers. *)
Definition sum_Z (l : list Z) : Z := foldr Z.add 0%Z l.

(** The non-compliant records of the window: the rows that the WHERE
    clause of the recent list selects. *)
Definition non_compliant_rows `{Runtime} (env : environment) (req : request)
    (tbl : list row) : list row :=
  filter (λ r, sql_eq_text (row_overall_status r) "NON_COMPLIANT" = true)
         (window_rows env req tbl).

(** A GET request for the report of one application. *)
Definition filtered_request (app : string) : request :=
  get_request {[ "application" := app ]}.

(** A GET request for the report of the last [days] days, [days] given as
    the text of the query string. *)
Definition days_request (days : string) : request :=
  get_request {[ "days" := days ]}.

(** A record whose status is neither of the two the report counts. *)
Definition unclassified (r : row) : Prop :=
  row_overall_status r ≠ SText "COMPLIANT"
  ∧ row_overall_status r ≠ SText "NON_COMPLIANT".

Global Instance unclassified_dec r : Decision (unclassified r).
Proof. unfold unclassified. apply _. Defined.

(** The request with one parameter of the query string left out. *)
Definition without_arg (key : string) (req : request) : request :=
  Request (authorization req) (remote_addr req) (get_json req) (delete key (args req)).

(** Every id of the table was drawn from the sequence, once. *)
Definition ids_from_sequence (w : world) : Prop :=
  Forall (λ r, (row_id r < next_id w)%Z) (table w) ∧ NoDup (row_id <$> table w).

Global Instance record_of_dec app r : Decision (record_of app r).
Proof. unfold record_of. apply _. Defined.


(* ===================================================================== *)
(** * Properties of [str.replace] *)
(* ===================================================================== *)

Lemma append_nil_l (s : string) : "" ++ s = s.
Proof. reflexivity. Qed.

Lemma append_cons (c : ascii) (s t : string) : String c s ++ t = String c (s ++ t).
Proof. reflexivity. Qed.

Lemma prefix_app (old rest : string) : String.prefix old (old ++ rest) = true.
Proof.
  induction old as [| c old IH]; simpl; [by destruct rest |].
  destruct (Ascii.ascii_dec c c); [exact IH | done].
Qed.

Lemma str_drop_app_length (s rest : string) :
  str_drop (String.length s) (s ++ rest) = rest.
Proof. induction s as [| c s IH]; cbn; [by destruct rest | exact IH]. Qed.

(** Skipping the rest of an occurrence resumes the scan right after it. *)
Lemma replace_from_skip (old new s rest : string) :
  replace_from old new (String.length s) (s ++ rest) = replace_from old new 0 rest.
Proof. induction s as [| c s IH]; cbn; [done | exact IH]. Qed.

(** At an occurrence the scan emits [new] and goes on behind it. *)
Lemma replace_from_occurrence (old new rest : string) :
  old ≠ "" →
  replace_from old new 0 (old ++ rest) = new ++ replace_from old new 0 rest.
Proof.
  destruct old as [| c old]; [done | intros _].
  rewrite append_cons. cbn [replace_from]. rewrite <- append_cons.
  rewrite prefix_app. cbn [String.length pred].
  by rewrite replace_from_skip.
Qed.

(** A string without an occurrence is left as it is. *)
Lemma replace_from_no_occurrence (old new s : string) :
  contains old s = false → replace_from old new 0 s = s.
Proof.
  induction s as [| c s IH]; [done |].
  cbn [contains replace_from]. intros [Hp Hc]%orb_false_elim.
  rewrite Hp. f_equal. by apply IH.
Qed.

(** The scan copies the text before the first occurrence. *)
Lemma replace_from_first_occurrence (old new p rest : string) :
  old ≠ "" →
  (∀ i, (i < String.length p)%nat → occurs_at old (p ++ old ++ rest) i = false) →
  replace_from old new 0 (p ++ old ++ rest)
  = p ++ new ++ replace_from old new 0 rest.
Proof.
  intros Hne. induction p as [| c p IH]; intros Hocc.
  - rewrite !append_nil_l. by apply replace_from_occurrence.
  - pose proof (Hocc 0%nat ltac:(cbn; lia)) as H0.
    unfold occurs_at in H0. cbn [str_drop] in H0.
    rewrite !append_cons in *. cbn [replace_from].
    rewrite H0. f_equal. apply IH.
    intros i Hi. apply (Hocc (S i)). cbn. lia.
Qed.

Lemma prefix_empty (s : string) : String.prefix "" s = true.
Proof. by destruct s. Qed.

(** A one-character pattern absent from [body] occurs at no index of
    [body], whatever follows it. *)
Lemma occurs_at_single_char (a : ascii) (body rest : string) (i : nat) :
  contains (String a "") body = false →
  (i < String.length body)%nat →
  occurs_at (String a "") (body ++ rest) i = false.
Proof.
  revert i. induction body as [| c body IH]; intros i Hc Hi; [cbn in Hi; lia |].
  cbn [contains] in Hc. apply orb_false_elim in Hc as [Hp Hc].
  rewrite append_cons. destruct i as [| i]; unfold occurs_at; cbn [str_drop].
  - cbn in Hp |- *. destruct (Ascii.ascii_dec a c); [| done].
    by rewrite prefix_empty in Hp.
  - apply IH; [done | cbn in Hi; lia].
Qed.

(** A trailing [Z] becomes the UTC offset. *)
Lemma str_replace_trailing_Z (body : string) :
  contains "Z" body = false →
  str_replace (body ++ "Z") "Z" "+00:00" = body ++ "+00:00".
Proof.
  intros Hc. unfold str_replace.
  rewrite <- (append_nil_l "Z") at 2.
  change (body ++ "" ++ "Z") with (body ++ "Z" ++ "").
  rewrite replace_from_first_occurrence; [done | done |].
  intros i Hi. by apply occurs_at_single_char.
Qed.

(** ** The scan deletes exactly the characters of the occurrences *)

Lemma prefix_true_app (old s : string) :
  String.prefix old s = true → ∃ t, s = old ++ t.
Proof.
  revert s. induction old as [| c old IH]; intros s Hp; [by exists s |].
  destruct s as [| c' s]; [done |]. simpl in Hp.
  destruct (Ascii.ascii_dec c c') as [<- |]; [| done].
  destruct (IH s Hp) as [t ->]. by exists t.
Qed.

Lemma str_drop_empty (i : nat) : str_drop i "" = "".
Proof. by destruct i. Qed.

Lemma str_drop_add (i d : nat) (s : string) :
  str_drop (i + d) s = str_drop d (str_drop i s).
Proof.
  revert s. induction i as [| i IH]; intros s; [done |].
  destruct s as [| c s]; cbn; [by rewrite str_drop_empty | apply IH].
Qed.

Lemma str_drop_S (j : nat) (whole rest : string) (c : ascii) :
  str_drop j whole = String c rest → str_drop (S j) whole = rest.
Proof.
  intros Hd. replace (S j) with (j + 1)%nat by lia.
  by rewrite str_drop_add, Hd.
Qed.

Lemma covered_true (old s : string) (j : nat) :
  covered old s j = true ↔
  ∃ d, (d < String.length old)%nat ∧ (d ≤ j)%nat ∧ occurs_at old s (j - d) = true.
Proof.
  unfold covered. rewrite existsb_exists. split.
  - intros (d & Hin & Hd). apply in_seq in Hin.
    apply andb_true_iff in Hd as [Hle Ho]. apply Nat.leb_le in Hle.
    exists d. split; [lia | done].
  - intros (d & Hlt & Hle & Ho). exists d. split; [apply in_seq; lia |].
    apply andb_true_iff. split; [by apply Nat.leb_le | done].
Qed.

Lemma replace_from_uncovered (old whole : string) :
  old ≠ "" → unbordered old →
  ∀ suffix j skip,
    str_drop j whole = suffix →
    scan_state old whole j skip →
    replace_from old "" skip suffix = uncovered_chars old whole j suffix.
Proof.
  intros Hne Hub.
  assert (HL : (0 < String.length old)%nat) by (destruct old; [done | cbn; lia]).
  intros sfx. induction sfx as [| c rest IH]; intros j skip Hd Hst; [by destruct skip |].
  pose proof (str_drop_S _ _ _ _ Hd) as Hd'.
  cbn [replace_from uncovered_chars].
  destruct skip as [| k].
  - (* scanning *)
    cbn in Hst.
    destruct (String.prefix old (String c rest)) eqn:Hp.
    + assert (Hocc : occurs_at old whole j = true) by (unfold occurs_at; by rewrite Hd).
      assert (Hc : covered old whole j = true).
      { apply covered_true. exists 0%nat. rewrite Nat.sub_0_r.
        split; [lia | split; [lia | done]]. }
      rewrite Hc, append_nil_l. apply IH; [done |].
      destruct (Init.Nat.pred (String.length old)) as [| k'] eqn:Hk; cbn.
      * intros d Hd1 Hd2. lia.
      * split; [lia | split; [lia |]].
        replace (S j - (String.length old - S k'))%nat with j by lia. done.
    + assert (Hocc : occurs_at old whole j = false) by (unfold occurs_at; by rewrite Hd).
      assert (Hc : covered old whole j = false).
      { apply not_true_is_false. intros (d & Hd1 & Hd2 & Ho)%covered_true.
        destruct d as [| d]; [rewrite Nat.sub_0_r in Ho; congruence |].
        rewrite Hst in Ho by lia. done. }
      rewrite Hc. f_equal. apply IH; [done |].
      cbn. intros d Hd1 Hd2.
      destruct d as [| [| d]]; [lia | |].
      * replace (S j - 1)%nat with j by lia. done.
      * replace (S j - S (S d))%nat with (j - S d)%nat by lia. apply Hst; lia.
  - (* inside an occurrence *)
    destruct Hst as (Hk & Hj & Ho).
    assert (Hc : covered old whole j = true).
    { apply covered_true. exists (String.length old - S k)%nat.
      split; [lia | split; [lia | done]]. }
    rewrite Hc. apply IH; [done |].
    destruct k as [| k']; cbn.
    + intros d Hd1 Hd2.
      replace (S j - d)%nat
        with ((j - (String.length old - 1)) + (String.length old - d))%nat by lia.
      apply Hub; [lia | done].
    + split; [lia | split; [lia |]].
      replace (S j - (String.length old - S k'))%nat
        with (j - (String.length old - S (S k')))%nat by lia.
      done.
Qed.

(** [str.replace(old, "")] deletes exactly the characters that lie in an
    occurrence of [old]. *)
Lemma str_replace_delete_occurrences (old s : string) :
  old ≠ "" → unbordered old →
  str_replace s old "" = delete_occurrences old s.
Proof.
  intros Hne Hub. unfold str_replace, delete_occurrences.
  destruct old as [| c old]; [done |].
  apply replace_from_uncovered; [done | done | done |].
  cbn. intros d Hd1 Hd2. lia.
Qed.

Lemma bearer_unbordered : unbordered "Bearer ".
Proof.
  intros s i d Hd Ho. unfold occurs_at in *.
  apply prefix_true_app in Ho as [t Ht].
  rewrite str_drop_add, Ht.
  cbn in Hd.
  do 7 (destruct d as [| d]; [first [lia | reflexivity] |]). lia.
Qed.

(** ** Headers with extra occurrences *)

Lemma contains_false_occurs_at (old s : string) (i : nat) :
  contains old s = false → occurs_at old s i = false.
Proof.
  unfold occurs_at. revert i. induction s as [| c s IH]; intros i Hc.
  - rewrite str_drop_empty. cbn in Hc. by apply orb_false_elim in Hc as [Hc _].
  - cbn [contains] in Hc. apply orb_false_elim in Hc as [Hp Hc].
    destruct i as [| i]; [done | by apply IH].
Qed.

Lemma contains_app_r (old p q : string) :
  contains old (p ++ q) = false → contains old q = false.
Proof.
  induction p as [| c p IH]; [done |]. rewrite append_cons. cbn [contains].
  intros [_ Hc]%orb_false_elim. by apply IH.
Qed.

Lemma str_drop_app (i : nat) (p x : string) :
  (i ≤ String.length p)%nat → str_drop i (p ++ x) = str_drop i p ++ x.
Proof.
  revert p. induction i as [| i IH]; intros p Hi; [done |].
  destruct p as [| c p]; [cbn in Hi; lia |].
  rewrite append_cons. cbn. apply IH. cbn in Hi. lia.
Qed.

(** Whether [old] starts a text long enough to hold it does not depend on
    what follows the text. *)
Lemma prefix_app_inside (old q x : string) :
  (String.length old ≤ String.length q)%nat →
  String.prefix old (q ++ x) = String.prefix old q.
Proof.
  revert q. induction old as [| c old IH]; intros q Hl;
    [by rewrite !prefix_empty |].
  destruct q as [| c' q]; [cbn in Hl; lia |].
  rewrite append_cons. simpl. destruct (Ascii.ascii_dec c c'); [| done].
  apply IH. cbn in Hl. lia.
Qed.

Lemma length_str_drop (i : nat) (p : string) :
  String.length (str_drop i p) = (String.length p - i)%nat.
Proof.
  revert p. induction i as [| i IH]; intros p; [cbn; lia |].
  destruct p as [| c p]; [done | apply IH].
Qed.

(** In the text [p ++ old ++ rest], where [p] followed by anything free of
    [old] is free of [old], the first occurrence is the one after [p]. *)
Lemma first_occurrence_after (old p tail rest : string) (i : nat) :
  unbordered old →
  contains old (p ++ tail) = false →
  (i < String.length p)%nat →
  occurs_at old (p ++ old ++ rest) i = false.
Proof.
  intros Hub Hc Hi.
  destruct (decide (i + String.length old ≤ String.length p)%nat) as [Hin | Hout].
  - pose proof (contains_false_occurs_at old (p ++ tail) i Hc) as Ho.
    unfold occurs_at in *. rewrite str_drop_app in Ho |- * by lia.
    rewrite prefix_app_inside in Ho |- *; [done | |];
      rewrite length_str_drop; lia.
  - apply not_true_is_false. intros Ho.
    pose proof (Hub _ i (String.length p - i)%nat ltac:(lia) Ho) as Hno.
    replace (i + (String.length p - i))%nat with (String.length p) in Hno by lia.
    unfold occurs_at in Hno.
    by rewrite str_drop_app_length, prefix_app in Hno.
Qed.

(** The scan undoes the insertion of [old] between the pieces of a text
    free of [old]. *)
Lemma replace_from_join (old : string) (pieces : list string) :
  old ≠ "" → unbordered old →
  contains old (join "" pieces) = false →
  replace_from old "" 0 (join old pieces) = join "" pieces.
Proof.
  intros Hne Hub. induction pieces as [| p ps IH]; intros Hc; [done |].
  destruct ps as [| p' ps].
  - cbn in *. by apply replace_from_no_occurrence.
  - change (join old (p :: p' :: ps)) with (p ++ old ++ join old (p' :: ps)).
    change (join "" (p :: p' :: ps)) with (p ++ "" ++ join "" (p' :: ps)) in Hc |- *.
    rewrite append_nil_l in Hc |- *.
    rewrite replace_from_first_occurrence; [| done |].
    + rewrite append_nil_l. f_equal. apply IH. by apply contains_app_r in Hc.
    + intros i Hi. by eapply first_occurrence_after.
Qed.

(* ===================================================================== *)

(** * Properties of the credential check *)
(* ===================================================================== *)

Lemma str_truthy_false (s : string) : str_truthy s = false ↔ s = "".
Proof. destruct s; simpl; split; congruence. Qed.

Lemma str_truthy_true (s : string) : str_truthy s = true ↔ s ≠ "".
Proof. destruct s; simpl; split; congruence. Qed.

Lemma api_key_missing (req : request) : authorization req = None → api_key req = "".
Proof. unfold api_key. intros ->. reflexivity. Qed.

Lemma validate_api_key_true (env : environment) (req : request) :
  validate_api_key env req = true ↔
  api_key req ≠ "" ∧ API_SECRET_KEY env = Some (api_key req).
Proof.
  unfold validate_api_key.
  destruct (str_truthy (api_key req)) eqn:Ht; simpl.
  - apply str_truthy_true in Ht.
    case_bool_decide as Hk; simpl; split; try done.
    + intros [_ Hs]. by rewrite Hs in Hk.
  - apply str_truthy_false in Ht. split; [done | intros [Hne _]; done].
Qed.

(** The token of a header [Bearer <token>] is what the check compares,
    provided [Bearer ] does not occur inside the token. *)
Lemma api_key_bearer_token (req : request) (token : string) :
  authorization req = Some ("Bearer " ++ token) →
  contains "Bearer " token = false →
  api_key req = token.
Proof.
  intros Ha Hc.
  replace (api_key req) with (replace_from "Bearer " "" 0 ("Bearer " ++ token))
    by (unfold api_key; rewrite Ha; reflexivity).
  rewrite replace_from_occurrence by done.
  by rewrite replace_from_no_occurrence.
Qed.

(** C1, as the code has it: a request without an Authorization header is
    denied; and for a header [Bearer <token>] whose token does not itself
    contain [Bearer ], as every token without a space, the check allows the
    request exactly when the token is non-empty and equal to the configured
    secret: it denies the empty token, a token that differs from the secret
    and every token when no secret is configured. *)
Theorem credential_check_allows_iff_token_equals_secret
    (env : environment) (req : request) :
  (authorization req = None → validate_api_key env req = false)
  ∧ ∀ token,
      authorization req = Some ("Bearer " ++ token) →
      contains "Bearer " token = false →
      (validate_api_key env req = true
       ↔ token ≠ "" ∧ API_SECRET_KEY env = Some token)
      ∧ (token = "" → validate_api_key env req = false)
      ∧ (API_SECRET_KEY env ≠ Some token → validate_api_key env req = false)
      ∧ (API_SECRET_KEY env = None → validate_api_key env req = false).
Proof.
  pose proof (validate_api_key_true env req) as Hiff.
  split.
  - intros Ha. apply api_key_missing in Ha.
    apply not_true_is_false. rewrite Hiff. tauto.
  - intros token Ha Hc.
    rewrite (api_key_bearer_token req token Ha Hc) in Hiff.
    split; [exact Hiff |].
    repeat split; intros He; apply not_true_is_false; rewrite Hiff;
      [tauto | tauto | rewrite He; intros [_ ?]; discriminate].
Qed.

Lemma sample_env_healthy : healthy sample_env.
Proof. intros n. reflexivity. Qed.

Lemma credential_check_allows_iff_token_equals_secret_witness :
  validate_api_key sample_env (sample_request (Some "Bearer s3cret") (Json PNone)) = true
  ∧ validate_api_key sample_env (sample_request None (Json PNone)) = false
  ∧ validate_api_key sample_env (sample_request (Some "Bearer ") (Json PNone)) = false
  ∧ validate_api_key sample_env (sample_request (Some "Bearer s3cre") (Json PNone)) = false.
Proof.
  split; [| split; [| split]].
  - destruct (credential_check_allows_iff_token_equals_secret sample_env
                (sample_request (Some "Bearer s3cret") (Json PNone))) as [_ Htoken].
    apply (Htoken "s3cret" eq_refl eq_refl). split; [discriminate | reflexivity].
  - by apply (credential_check_allows_iff_token_equals_secret sample_env
                (sample_request None (Json PNone))).
  - destruct (credential_check_allows_iff_token_equals_secret sample_env
                (sample_request (Some "Bearer ") (Json PNone))) as [_ Htoken].
    destruct (Htoken "" eq_refl eq_refl) as (_ & Hempty & _). by apply Hempty.
  - destruct (credential_check_allows_iff_token_equals_secret sample_env
                (sample_request (Some "Bearer s3cre") (Json PNone))) as [_ Htoken].
    destruct (Htoken "s3cre" eq_refl eq_refl) as (_ & _ & Hdiffers & _).
    apply Hdiffers. discriminate.
Defined.

(** The claim C1 fails for a token that contains [Bearer ]: the token
    [Bearer s3cret] is allowed although it differs from the secret
    [s3cret], and the token [my Bearer key] is denied although it is
    present, non-empty and equal to the secret. *)
Lemma token_containing_bearer_is_not_compared_as_sent :
  "Bearer s3cret" ≠ "s3cret"
  ∧ validate_api_key sample_env
      (sample_request (Some ("Bearer " ++ "Bearer s3cret")) (Json PNone)) = true
  ∧ "my Bearer key" ≠ ""
  ∧ validate_api_key (Environment (Some "my Bearer key") 0 0 (λ _, false))
      (sample_request (Some ("Bearer " ++ "my Bearer key")) (Json PNone)) = false.
Proof. repeat split; discriminate. Qed.

Lemma api_key_delete_occurrences (req : request) :
  api_key req = delete_occurrences "Bearer " (default "" (authorization req)).
Proof.
  unfold api_key. apply str_replace_delete_occurrences; [done |].
  exact bearer_unbordered.
Qed.

(** C2, as the code has it: the check deletes every occurrence of
    [Bearer ] in the Authorization header and accepts exactly the headers
    for which what remains is non-empty and equal to the configured secret.
    In particular, for a non-empty secret that does not contain [Bearer ],
    the bare secret is accepted, and so is every header obtained by
    inserting [Bearer ] between pieces of the secret. *)
Theorem credential_check_deletes_bearer_occurrences
    (env : environment) (req : request) :
  (validate_api_key env req = true ↔
     delete_occurrences "Bearer " (default "" (authorization req)) ≠ ""
     ∧ API_SECRET_KEY env
       = Some (delete_occurrences "Bearer " (default "" (authorization req))))
  ∧ (∀ secret,
       secret ≠ "" → contains "Bearer " secret = false →
       API_SECRET_KEY env = Some secret →
       authorization req = Some secret →
       validate_api_key env req = true)
  ∧ (∀ pieces,
       join "" pieces ≠ "" → contains "Bearer " (join "" pieces) = false →
       API_SECRET_KEY env = Some (join "" pieces) →
       authorization req = Some (join "Bearer " pieces) →
       validate_api_key env req = true).
Proof.
  split; [| split].
  - rewrite <- api_key_delete_occurrences. apply validate_api_key_true.
  - intros secret Hne Hc Hs Ha. apply validate_api_key_true.
    assert (Hk : api_key req = secret).
    { unfold api_key, str_replace. rewrite Ha. cbn [default].
      by apply replace_from_no_occurrence. }
    by rewrite Hk.
  - intros pieces Hne Hc Hs Ha. apply validate_api_key_true.
    assert (Hk : api_key req = join "" pieces).
    { unfold api_key, str_replace. rewrite Ha. cbn [default].
      apply replace_from_join; [done | exact bearer_unbordered | done]. }
    by rewrite Hk.
Qed.

Lemma credential_check_deletes_bearer_occurrences_witness :
  validate_api_key sample_env (sample_request (Some "s3cret") (Json PNone)) = true
  ∧ validate_api_key sample_env
      (sample_request (Some "Bearer s3Bearer cretBearer ") (Json PNone)) = true.
Proof.
  split.
  - destruct (credential_check_deletes_bearer_occurrences sample_env
                (sample_request (Some "s3cret") (Json PNone))) as (_ & Hbare & _).
    apply (Hbare "s3cret"); [discriminate | reflexivity | reflexivity | reflexivity].
  - destruct (credential_check_deletes_bearer_occurrences sample_env
                (sample_request (Some "Bearer s3Bearer cretBearer ") (Json PNone)))
      as (_ & _ & Hjoin).
    apply (Hjoin [""; "s3"; "cret"; ""]);
      [discriminate | reflexivity | reflexivity | reflexivity].
Defined.

(** The claim C2 fails at the empty secret: it does not contain [Bearer ],
    and the header that consists of the bare secret is denied, as is the
    header [Bearer ] followed by it. *)
Lemma bare_empty_secret_is_denied :
  contains "Bearer " "" = false
  ∧ validate_api_key (Environment (Some "") 0 0 (λ _, false))
      (sample_request (Some "") (Json PNone)) = false
  ∧ validate_api_key (Environment (Some "") 0 0 (λ _, false))
      (sample_request (Some "Bearer ") (Json PNone)) = false.
Proof. repeat split. Qed.


(* ===================================================================== *)
(** * Denied requests never reach the storage layer *)
(* ===================================================================== *)

(** C5: on each of the three protected endpoints a request that fails the
    credential check is answered 401 Unauthorized; no call to the storage
    layer is made (the trace is as before) and the table is unchanged. *)
Theorem unauthorized_before_any_storage_access `{Runtime}
    (env : environment) (req : request) (app : string) (w : world) :
  validate_api_key env req = false →
  resp_code unauthorized = 401
  ∧ (receive_security_scan env req w).1 = unauthorized
  ∧ trace (receive_security_scan env req w).2 = trace w
  ∧ table (receive_security_scan env req w).2 = table w
  ∧ next_id (receive_security_scan env req w).2 = next_id w
  ∧ get_compliance_report env req w = (unauthorized, w)
  ∧ get_application_status env req app w = (unauthorized, w).
Proof.
  intros Hv.
  unfold receive_security_scan, get_compliance_report, get_application_status.
  rewrite Hv. simpl. repeat split; reflexivity.
Qed.

Lemma unauthorized_before_any_storage_access_witness :
  let req := sample_request (Some "Bearer wrong") (Json PNone) in
  validate_api_key sample_env req = false
  ∧ (@receive_security_scan Reference.runtime sample_env req sample_world).1 = unauthorized
  ∧ @get_compliance_report Reference.runtime sample_env req sample_world
    = (unauthorized, sample_world).
Proof.
  intros req.
  assert (Hv : validate_api_key sample_env req = false) by reflexivity.
  pose proof (@unauthorized_before_any_storage_access Reference.runtime
                sample_env req "svc-a" sample_world Hv) as (_ & H1 & _ & _ & _ & H2 & _).
  split; [exact Hv | split; [exact H1 | exact H2]].
Defined.


(* ===================================================================== *)
(** * Running the ingestion handler *)
(* ===================================================================== *)

Section ingestion.
Context `{Runtime}.

Lemma storage_call_healthy (env : environment) (op : storage_op) (f : frame) :
  healthy env → storage_call env op f = (Return (), with_world (add_op op) f).
Proof. intros Hh. unfold storage_call. by rewrite Hh. Qed.

Lemma assign_conn_healthy (env : environment) (f : frame) :
  healthy env →
  assign_conn env f
  = (Return (), Frame (Some []) (f_cur f) (add_op OpConnect (f_world f))).
Proof.
  intros Hh. unfold assign_conn, get_db_connection, mbind, M_bind.
  by rewrite storage_call_healthy.
Qed.

Lemma assign_cur_healthy (env : environment) (f : frame) :
  healthy env →
  assign_cur env f = (Return (), Frame (f_conn f) true (add_op OpCursor (f_world f))).
Proof.
  intros Hh. unfold assign_cur, mbind, M_bind. by rewrite storage_call_healthy.
Qed.

Lemma execute_insert_healthy (env : environment) (p : scan pyval)
    (cols : scan sqlval) (f : frame) :
  healthy env → adapt_params p = Return () → store_row p = Some cols →
  execute_insert env p f
  = (Return [next_id (f_world f)],
     Frame (Some (default [] (f_conn f) ++ [Row (next_id (f_world f)) cols])%list)
           (f_cur f)
           (World (table (f_world f)) (next_id (f_world f) + 1)
                  (trace (f_world f) ++ [OpExecute]) (logs (f_world f)))).
Proof.
  intros Hh Ha Hs. unfold execute_insert. rewrite Ha.
  unfold mbind, M_bind. rewrite storage_call_healthy by done. rewrite Hs.
  reflexivity.
Qed.

Lemma execute_select_healthy {A} (env : environment) (q : list row → list A)
    (f : frame) :
  healthy env →
  execute_select env q f
  = (Return (q (table (f_world f))), with_world (add_op OpExecute) f).
Proof.
  intros Hh. unfold execute_select, mbind, M_bind.
  by rewrite storage_call_healthy.
Qed.

Lemma fetchone_healthy {A} (env : environment) (rs : list A) (f : frame) :
  healthy env → fetchone env rs f = (Return (head rs), with_world (add_op OpFetch) f).
Proof.
  intros Hh. unfold fetchone, mbind, M_bind. by rewrite storage_call_healthy.
Qed.

Lemma fetchall_healthy {A} (env : environment) (rs : list A) (f : frame) :
  healthy env → fetchall env rs f = (Return rs, with_world (add_op OpFetch) f).
Proof.
  intros Hh. unfold fetchall, mbind, M_bind. by rewrite storage_call_healthy.
Qed.

Lemma commit_healthy (env : environment) (f : frame) :
  healthy env →
  commit env f
  = (Return (),
     Frame (Some []) (f_cur f)
           (World (table (f_world f) ++ default [] (f_conn f))
                  (next_id (f_world f)) (trace (f_world f) ++ [OpCommit])
                  (logs (f_world f)))).
Proof.
  intros Hh. unfold commit, mbind, M_bind. by rewrite storage_call_healthy.
Qed.

(** With a working storage layer the [finally] block closes what is
    assigned, and the answer of the handler is the one it had prepared. *)
Lemma finally_healthy (env : environment) (f : frame) :
  healthy env →
  finally env f
  = (Return (),
     Frame (f_conn f) (f_cur f)
           (after (f_world f) (table (f_world f)) (next_id (f_world f))
                  (closing_calls f) [])).
Proof.
  intros Hh. unfold finally, closing_calls, after.
  destruct f as [conn cur w]. cbn [f_cur f_conn f_world].
  destruct cur, conn; rewrite ?storage_call_healthy by done; cbn;
    rewrite ?storage_call_healthy by done; unfold with_world, add_op; cbn;
    rewrite <- ?app_assoc, ?app_nil_r; cbn; try reflexivity.
  by destruct w.
Qed.

Lemma leave_healthy (env : environment) (resp : response) (f : frame) :
  healthy env →
  leave env (Return resp, f)
  = (resp, after (f_world f) (table (f_world f)) (next_id (f_world f))
                 (closing_calls f) []).
Proof. intros Hh. unfold leave. cbn [fst snd]. by rewrite finally_healthy. Qed.

(** Building the parameter tuple reads [scan_metadata] and
    [compliance_status] with [get], so both are dicts when it succeeds. *)
Lemma insert_params_dicts (env : environment)
    (data md cs sr ea : pyval) (t : datetime) (p : scan pyval) :
  insert_params env data md cs sr ea t = Return p →
  (∃ m, md = PDict m) ∧ (∃ c, cs = PDict c).
Proof.
  unfold insert_params. intros Hp. split.
  - destruct md; try discriminate Hp. eauto.
  - destruct md; try discriminate Hp.
    destruct cs; try discriminate Hp. eauto.
Qed.

Lemma outcome_bind_Return {A B} (o : outcome A) (k : A → outcome B) (b : B) :
  o ≫= k = Return b → ∃ a, o = Return a ∧ k a = Return b.
Proof. destruct o as [a | e]; [eauto | discriminate]. Qed.

(** What a successfully built parameter tuple holds in the columns the
    properties below speak about. *)
Lemma insert_params_columns (env : environment)
    (data md cs sr ea : pyval) (t : datetime) (p : scan pyval) :
  insert_params env data md cs sr ea t = Return p →
  timestamp p = t
  ∧ py_get cs "overall_status" (PStr "UNKNOWN") = Return (overall_status p)
  ∧ sast_sum sr = Return (sast_findings p)
  ∧ py_get md "application" (PStr "") = Return (application p)
  ∧ py_get cs "total_issues" (PInt 0) = Return (total_issues p).
Proof.
  unfold insert_params. intros Hp.
  repeat (apply outcome_bind_Return in Hp as (? & ? & Hp)).
  injection Hp as <-. cbn. done.
Qed.

(** A column holds NULL or a value of its type. *)
Lemma column_value_has_type (ty : coltype) (v : pyval) (c : sqlval) :
  column_value ty v = Some c → has_type ty c = true.
Proof.
  unfold column_value. intros Hc.
  destruct ty, v; try (injection Hc as <-; reflexivity);
    destruct (coerce _ _) as [c' |]; try discriminate Hc;
    destruct (has_type _ c') eqn:Ht; try discriminate Hc;
    by injection Hc as <-.
Qed.

(** The columns of the stored row are the values of the columns for the
    parameters. *)
Lemma store_row_columns (p : scan pyval) (cols : scan sqlval) :
  store_row p = Some cols →
  timestamp cols = timestamp p
  ∧ column_value TInteger (sast_findings p) = Some (sast_findings cols)
  ∧ column_value TText (application p) = Some (application cols)
  ∧ column_value TText (overall_status p) = Some (overall_status cols)
  ∧ column_value TInteger (total_issues p) = Some (total_issues cols).
Proof.
  unfold store_row. intros Ha.
  repeat (apply bind_Some in Ha as (? & ? & Ha)).
  injection Ha as <-. cbn. done.
Qed.

(** The [try] block on a request whose parameters can be built, adapted
    and stored, with a working storage layer. *)
Lemma receive_security_scan_try_stored (env : environment) (req : request) (w : world)
    (d : pydict) (t : datetime) (p : scan pyval) (cols : scan sqlval) :
  healthy env →
  get_json req = Json (PDict d) →
  d ≠ ∅ →
  scan_time_of env (default (PDict ∅) (d !! "scan_metadata")) = Return t →
  insert_params env (PDict d)
    (default (PDict ∅) (d !! "scan_metadata"))
    (default (PDict ∅) (d !! "compliance_status"))
    (default (PDict ∅) (d !! "scan_results"))
    (default (PDict ∅) (d !! "evidence_artifacts")) t = Return p →
  adapt_params p = Return () →
  store_row p = Some cols →
  ∃ msgs,
    receive_security_scan_try env req (new_frame w)
    = (Return (Response (CreatedBody (Created "success" (Some (next_id w))
                           "Security scan data received and stored" (overall_status p)))
                        201),
       Frame (Some []) true
             (after w (table w ++ [Row (next_id w) cols]) (next_id w + 1)
                    [OpConnect; OpCursor; OpExecute; OpFetch; OpCommit] msgs)).
Proof.
  intros Hh Hj Hd Ht Hp Ha Hs.
  unfold receive_security_scan_try. rewrite Hj.
  unfold mbind, M_bind, lift at 1. simpl.
  destruct d as [| item d]; [done |]. simpl.
  rewrite assign_conn_healthy by done. cbn.
  rewrite assign_cur_healthy by done. cbn.
  rewrite Ht. cbn. rewrite Hp. cbn.
  rewrite (execute_insert_healthy _ _ cols) by done. cbn.
  rewrite fetchone_healthy by done. cbn.
  rewrite commit_healthy by done. cbn.
  destruct (insert_params_dicts _ _ _ _ _ _ _ _ Hp) as [[m Hm] [c Hc]].
  destruct (insert_params_columns _ _ _ _ _ _ _ _ Hp) as (_ & Ho & _).
  rewrite Hm, Hc in *. cbn. cbn in Ho. injection Ho as Ho. rewrite Ho.
  destruct (py_eq_str _ _);
    repeat (progress (unfold after, with_world, add_op, add_log, mret, M_ret; cbn));
    repeat (rewrite <- app_assoc; cbn); eexists; reflexivity.
Qed.

(** A request whose parameters can be built, adapted and stored is stored:
    with a working storage layer the handler answers 201 and the table
    grows by exactly the stored row, under the next id of the sequence. *)
Lemma receive_security_scan_created (env : environment) (req : request) (w : world)
    (d : pydict) (t : datetime) (p : scan pyval) (cols : scan sqlval) :
  validate_api_key env req = true →
  healthy env →
  get_json req = Json (PDict d) →
  d ≠ ∅ →
  scan_time_of env (default (PDict ∅) (d !! "scan_metadata")) = Return t →
  insert_params env (PDict d)
    (default (PDict ∅) (d !! "scan_metadata"))
    (default (PDict ∅) (d !! "compliance_status"))
    (default (PDict ∅) (d !! "scan_results"))
    (default (PDict ∅) (d !! "evidence_artifacts")) t = Return p →
  adapt_params p = Return () →
  store_row p = Some cols →
  ∃ w',
    receive_security_scan env req w
    = (Response (CreatedBody (Created "success" (Some (next_id w))
                   "Security scan data received and stored" (overall_status p)))
                201, w')
    ∧ table w' = (table w ++ [Row (next_id w) cols])%list.
Proof.
  intros Hv Hh Hj Hd Ht Hp Ha Hs.
  destruct (receive_security_scan_try_stored env req w d t p cols) as [msgs Htry];
    try done.
  unfold receive_security_scan. rewrite Hv. cbn [negb].
  rewrite Htry. cbn [receive_security_scan_except].
  rewrite leave_healthy by done. eexists. split; reflexivity.
Qed.

Lemma storage_call_cases (env : environment) (op : storage_op) (f : frame) :
  storage_call env op f = (Return (), with_world (add_op op) f)
  ∨ storage_call env op f = (Raise PsycopgError, with_world (add_op op) f).
Proof. unfold storage_call. destruct (storage_fails env _); auto. Qed.

(** The three ways the [try] block ends: the body is refused as empty
    before anything else happens; an exception is raised, the table is as
    before and at most one id was drawn; or the row is committed and the
    answer is 201. *)
Lemma receive_security_scan_try_cases (env : environment) (req : request)
    (w : world) (out : outcome response) (f : frame) :
  receive_security_scan_try env req (new_frame w) = (out, f) →
  (∃ data, get_json req = Json data ∧ py_truthy data = false
           ∧ out = Return bad_request ∧ f = new_frame w)
  ∨ (∃ e, out = Raise e ∧ table (f_world f) = table w
          ∧ (next_id (f_world f) = next_id w ∨ next_id (f_world f) = next_id w + 1))
  ∨ (∃ d t p cols,
       get_json req = Json (PDict d)
       ∧ scan_time_of env (default (PDict ∅) (d !! "scan_metadata")) = Return t
       ∧ insert_params env (PDict d)
           (default (PDict ∅) (d !! "scan_metadata"))
           (default (PDict ∅) (d !! "compliance_status"))
           (default (PDict ∅) (d !! "scan_results"))
           (default (PDict ∅) (d !! "evidence_artifacts")) t = Return p
       ∧ adapt_params p = Return ()
       ∧ store_row p = Some cols
       ∧ out = Return (Response (CreatedBody (Created "success" (Some (next_id w))
                         "Security scan data received and stored"
                         (overall_status p))) 201)
       ∧ table (f_world f) = (table w ++ [Row (next_id w) cols])%list
       ∧ next_id (f_world f) = next_id w + 1).
Proof.
  unfold receive_security_scan_try. intros Hr.
  unfold assign_conn, get_db_connection, assign_cur, execute_insert, fetchone,
    commit, logger, gets, modify, lift, mbind, M_bind, mret, M_ret in Hr.
  destruct (get_json req) as [data |] eqn:Hj; cbn -[store_row adapt_params] in Hr;
    [| injection Hr as <- <-; right; left; eauto].
  destruct (py_truthy data) eqn:Hd; cbn -[store_row adapt_params] in Hr;
    [| injection Hr as <- <-; left; eauto].
  destruct data as [| | | | | | d]; cbn -[store_row adapt_params] in Hr;
    try (injection Hr as <- <-; right; left; by eauto).
  repeat match type of Hr with
         | context [storage_call ?e ?op ?g] =>
             let E := fresh "E" in
             destruct (storage_call_cases e op g) as [E | E];
             rewrite E in Hr; clear E; cbn -[store_row adapt_params] in Hr;
             [| injection Hr as <- <-; right; left; by eauto]
         | context [match scan_time_of ?e ?m with _ => _ end] =>
             let E := fresh "Et" in
             destruct (scan_time_of e m) eqn:E; cbn -[store_row adapt_params] in Hr;
             [| injection Hr as <- <-; right; left; by eauto]
         | context [match insert_params ?e ?a ?b ?c ?d ?g ?t with _ => _ end] =>
             let E := fresh "Ep" in
             destruct (insert_params e a b c d g t) eqn:E; cbn -[store_row adapt_params] in Hr;
             [| injection Hr as <- <-; right; left; by eauto]
         | context [match adapt_params ?p with _ => _ end] =>
             let E := fresh "Ed" in
             destruct (adapt_params p) as [[] |] eqn:E; cbn -[store_row adapt_params] in Hr;
             [| injection Hr as <- <-; right; left; by eauto]
         | context [match store_row ?p with _ => _ end] =>
             let E := fresh "Ea" in
             destruct (store_row p) eqn:E; cbn -[store_row adapt_params] in Hr;
             [| injection Hr as <- <-; right; left; by eauto]
         end.
  destruct (insert_params_dicts _ _ _ _ _ _ _ _ Ep) as [[m Hm] [c Hc]].
  destruct (insert_params_columns _ _ _ _ _ _ _ _ Ep) as (_ & Ho & _).
  rewrite Hm, Hc in *. cbn -[store_row adapt_params] in Hr, Ho.
  injection Ho as Ho. rewrite Ho in Hr.
  right; right.
  match goal with
  | Et : scan_time_of _ _ = Return ?t, Ea : store_row ?p = Some ?cols |- _ =>
      exists d, t, p, cols
  end.
  rewrite Hm, Hc.
  destruct (py_eq_str _ _); cbn -[store_row adapt_params] in Hr; injection Hr as <- <-; done.
Qed.

(** Whatever the storage layer does, the [except] clauses and the
    [finally] block leave the table and the sequence as the [try] block
    left them. *)
Lemma leave_table (env : environment) (r : outcome response * frame) :
  table (leave env r).2 = table (f_world r.2)
  ∧ next_id (leave env r).2 = next_id (f_world r.2)
  ∧ logs (leave env r).2 = logs (f_world r.2).
Proof.
  destruct r as [out [conn cur w]]. unfold leave, finally, storage_call.
  cbn [fst snd f_cur f_conn f_world].
  destruct cur, conn; cbn;
    repeat (match goal with
            | |- context [storage_fails ?e ?n] => destruct (storage_fails e n)
            end; cbn); done.
Qed.

Lemma except_table (env : environment) (r : outcome response * frame) :
  table (f_world (receive_security_scan_except env r).2) = table (f_world r.2)
  ∧ next_id (f_world (receive_security_scan_except env r).2) = next_id (f_world r.2).
Proof.
  destruct r as [[resp | [ | ]] [conn cur w]]; cbn; [done | | done].
  destruct conn; cbn; [| done].
  unfold rollback, storage_call, mbind, M_bind. cbn.
  destruct (storage_fails env _); done.
Qed.

(** The handler on an accepted credential: the [try] block, then the
    [except] clauses, then [finally]. *)
Lemma receive_security_scan_authorized (env : environment) (req : request) (w : world) :
  validate_api_key env req = true →
  receive_security_scan env req w
  = leave env (receive_security_scan_except env
                 (receive_security_scan_try env req (new_frame w))).
Proof. intros Hv. unfold receive_security_scan. by rewrite Hv. Qed.

(** The answer of the handler, when it is one of its own documents, is the
    one that the [try] block and the [except] clauses prepared. *)
Lemma leave_answer (env : environment) (r : outcome response * frame) :
  (leave env r).1 = unhandled PsycopgError
  ∨ (leave env r).1 = match r.1 with Return resp => resp | Raise e => unhandled e end.
Proof.
  destruct r as [out [conn cur w]]. unfold leave, finally, storage_call.
  cbn [fst snd f_cur f_conn f_world].
  destruct cur, conn; cbn;
    repeat (match goal with
            | |- context [storage_fails ?e ?n] => destruct (storage_fails e n)
            end; cbn); auto.
Qed.

Lemma except_answer (env : environment) (out : outcome response) (f : frame) :
  (receive_security_scan_except env (out, f)).1 = Raise PsycopgError
  ∨ (receive_security_scan_except env (out, f)).1 = Return (handled out).
Proof.
  destruct out as [resp | [ | ]], f as [conn cur w]; cbn; auto.
  destruct conn; cbn; auto.
  unfold rollback, storage_call, mbind, M_bind. cbn.
  destruct (storage_fails env _); auto.
Qed.

(** An answer 201 means that the row was built, adapted and committed. *)
Lemma receive_security_scan_201 (env : environment) (req : request) (w w' : world)
    (resp : response) :
  receive_security_scan env req w = (resp, w') →
  resp_code resp = 201 →
  ∃ d t p cols,
    get_json req = Json (PDict d)
    ∧ scan_time_of env (default (PDict ∅) (d !! "scan_metadata")) = Return t
    ∧ insert_params env (PDict d)
        (default (PDict ∅) (d !! "scan_metadata"))
        (default (PDict ∅) (d !! "compliance_status"))
        (default (PDict ∅) (d !! "scan_results"))
        (default (PDict ∅) (d !! "evidence_artifacts")) t = Return p
    ∧ adapt_params p = Return ()
    ∧ store_row p = Some cols
    ∧ resp = Response (CreatedBody (Created "success" (Some (next_id w))
                         "Security scan data received and stored"
                         (overall_status p))) 201
    ∧ table w' = (table w ++ [Row (next_id w) cols])%list
    ∧ next_id w' = next_id w + 1.
Proof.
  intros Hr Hc.
  destruct (validate_api_key env req) eqn:Hv.
  2: { unfold receive_security_scan in Hr. rewrite Hv in Hr.
       injection Hr as <- _. discriminate Hc. }
  rewrite receive_security_scan_authorized in Hr by done.
  destruct (receive_security_scan_try env req (new_frame w)) as [out f] eqn:Ht.
  pose proof (leave_table env (receive_security_scan_except env (out, f)))
    as (Htab & Hnid & _).
  pose proof (except_table env (out, f)) as (Htab' & Hnid').
  pose proof (leave_answer env (receive_security_scan_except env (out, f))) as Hans.
  pose proof (except_answer env out f) as Hexc.
  rewrite Hr in Htab, Hnid, Hans. cbn [fst snd] in *.
  rewrite Htab' in Htab. rewrite Hnid' in Hnid.
  assert (Hresp : resp = handled out).
  { destruct Hans as [-> | ->]; [discriminate Hc |].
    destruct Hexc as [E | E]; rewrite E in Hc |- *; [discriminate Hc | done]. }
  apply receive_security_scan_try_cases in Ht
    as [(data & _ & _ & -> & _) | [(e & -> & _)
        | (d & t & p & cols & Hj & ? & ? & ? & ? & -> & ? & ?)]].
  - subst resp. discriminate Hc.
  - subst resp. destruct e; discriminate Hc.
  - exists d, t, p, cols. cbn in Hresp. repeat split; try done; congruence.
Qed.

(** The sum of the counters, each missing one counting for zero. *)
Lemma sast_sum_counters (sr sast : pydict) :
  default (PDict ∅) (sr !! "sast") = PDict sast →
  counter_ok sast "semgrep_findings" →
  counter_ok sast "eslint_findings" →
  counter_ok sast "bandit_findings" →
  sast_sum (PDict sr)
  = Return (PInt (counter sast "semgrep_findings" + counter sast "eslint_findings"
                  + counter sast "bandit_findings")).
Proof.
  unfold sast_sum, py_get2, counter_ok, counter. cbn. intros -> H1 H2 H3. cbn.
  destruct (sast !! "semgrep_findings") as [[]|]; try done;
    destruct (sast !! "eslint_findings") as [[]|]; try done;
    destruct (sast !! "bandit_findings") as [[]|]; try done; cbn;
    do 2 f_equal; lia.
Qed.

End ingestion.

(* ===================================================================== *)
(** * Stored SAST findings *)
(* ===================================================================== *)

(** C7: whenever a payload is stored, the [sast_findings] column of the new
    row is the sum of the semgrep, eslint and bandit counters found under
    [scan_results.sast], a missing counter (or a missing [sast] or
    [scan_results] section) counting for zero. *)
Theorem stored_sast_findings_is_sum_of_counters `{Runtime}
    (env : environment) (req : request) (w w' : world) (resp : response)
    (d sr sast : pydict) :
  receive_security_scan env req w = (resp, w') →
  resp_code resp = 201 →
  get_json req = Json (PDict d) →
  default (PDict ∅) (d !! "scan_results") = PDict sr →
  default (PDict ∅) (sr !! "sast") = PDict sast →
  counter_ok sast "semgrep_findings" →
  counter_ok sast "eslint_findings" →
  counter_ok sast "bandit_findings" →
  ∃ r, table w' = (table w ++ [r])%list
       ∧ sast_findings (row_cols r)
         = SInt (counter sast "semgrep_findings" + counter sast "eslint_findings"
                 + counter sast "bandit_findings").
Proof.
  intros Hr Hc Hj Hsr Hsast H1 H2 H3.
  destruct (receive_security_scan_201 _ _ _ _ _ Hr Hc)
    as (d' & t & p & cols & Hj' & _ & Hp & _ & Ha & _ & Ht & _).
  rewrite Hj in Hj'. injection Hj' as <-.
  exists (Row (next_id w) cols). split; [done |]. cbn.
  apply insert_params_columns in Hp as (_ & _ & Hs & _).
  apply store_row_columns in Ha as (_ & Ha & _).
  rewrite Hsr, (sast_sum_counters sr sast) in Hs by done.
  injection Hs as Hs. rewrite <- Hs in Ha. cbn in Ha. congruence.
Qed.

Lemma stored_sast_findings_is_sum_of_counters_witness :
  ∃ r, table (@receive_security_scan Reference.runtime sample_env
                semgrep_only_request sample_world).2 = [r]
       ∧ sast_findings (row_cols r) = SInt 2.
Proof.
  pose (sr := [("sast", PDict [("semgrep_findings", PInt 2)])] : pydict).
  pose (sast := [("semgrep_findings", PInt 2)] : pydict).
  exact (@stored_sast_findings_is_sum_of_counters Reference.runtime sample_env
           semgrep_only_request sample_world
           (@receive_security_scan Reference.runtime sample_env
              semgrep_only_request sample_world).2
           (@receive_security_scan Reference.runtime sample_env
              semgrep_only_request sample_world).1
           [("scan_results", PDict sr)] sr sast
           eq_refl eq_refl eq_refl eq_refl eq_refl I I I).
Defined.



(* ===================================================================== *)
(** * Storage errors *)
(* ===================================================================== *)

(** Two worlds written out differently are the same world. *)
Ltac close_world w :=
  unfold after, add_op, add_log, with_world; cbn;
  rewrite <- ?app_assoc, ?app_nil_r; cbn;
  first [reflexivity | by destruct w].

(** The first calls from a position succeed, each by a hypothesis. *)
Ltac succeed_from :=
  let j := fresh "j" in
  let Hj := fresh "Hj" in
  intros j Hj;
  repeat (destruct j as [| j];
          [rewrite ?Nat.add_0_r, <- ?Nat.add_assoc; cbn [Nat.add]; done |]);
  lia.

Section recovery.
Context `{Runtime}.

Lemma storage_call_at (env : environment) (op : storage_op) (f : frame) (n : nat) :
  length (trace (f_world f)) = n →
  storage_call env op f
  = (if storage_fails env n then Raise PsycopgError else Return (),
     with_world (add_op op) f).
Proof. intros <-. unfold storage_call. by destruct (storage_fails env _). Qed.

Lemma calls_succeed_from_0 (env : environment) (start : nat) :
  calls_succeed_from env start 0.
Proof. intros j Hj. lia. Qed.

Lemma calls_succeed_from_S (env : environment) (start n : nat) :
  calls_succeed_from env start n →
  storage_fails env (start + n) = false →
  calls_succeed_from env start (S n).
Proof.
  intros Hn Hs j Hj. destruct (decide (j = n)) as [-> | Hne]; [done |].
  apply Hn. lia.
Qed.

(** What follows the [try] block of a read handler: the calls of the
    [finally] block are made in order up to the first that raises, [c]
    being the number of those that succeed.  The answer is the one the
    [except] clause prepared when all of them succeed, and the exception
    of the failing call leaves the handler otherwise. *)
Lemma leave_calls (env : environment) (out : outcome response) (f : frame) :
  let w := f_world f in
  let cl := closing_calls f in
  ∃ c, (c ≤ length cl)%nat
       ∧ calls_succeed_from env (length (trace w)) c
       ∧ ((c < length cl)%nat → storage_fails env (length (trace w) + c) = true)
       ∧ leave env (out, f)
         = (if decide (c = length cl)
            then match out with Return resp => resp | Raise e => unhandled e end
            else unhandled PsycopgError,
            after w (table w) (next_id w) (take (S c) cl) []).
Proof.
  destruct f as [conn cur w]. cbn zeta. unfold leave, finally, closing_calls.
  cbn [fst snd f_cur f_conn f_world].
  destruct cur, conn as [pending |]; cbn [app length].
  - rewrite (storage_call_at env _ _ (length (trace w))) by done.
    destruct (storage_fails env (length (trace w))) eqn:E0.
    + exists 0%nat. rewrite Nat.add_0_r.
      split; [lia | split; [apply calls_succeed_from_0 | split; [done |]]].
      close_world w.
    + cbn [with_world f_conn f_world].
      rewrite (storage_call_at env _ _ (length (trace w) + 1))
        by (cbn; rewrite length_app; cbn; lia).
      destruct (storage_fails env (length (trace w) + 1)) eqn:E1.
      * exists 1%nat.
        split; [lia | split; [| split; [done |]]]; [| close_world w].
        succeed_from.
      * exists 2%nat.
        split; [lia | split; [| split; [lia |]]]; [| close_world w].
        succeed_from.
  - rewrite (storage_call_at env _ _ (length (trace w))) by done.
    destruct (storage_fails env (length (trace w))) eqn:E0.
    + exists 0%nat. rewrite Nat.add_0_r.
      split; [lia | split; [apply calls_succeed_from_0 | split; [done |]]].
      close_world w.
    + exists 1%nat.
      split; [lia | split; [| split; [lia |]]]; [| close_world w].
      succeed_from.
  - rewrite (storage_call_at env _ _ (length (trace w))) by done.
    destruct (storage_fails env (length (trace w))) eqn:E0.
    + exists 0%nat. rewrite Nat.add_0_r.
      split; [lia | split; [apply calls_succeed_from_0 | split; [done |]]].
      close_world w.
    + exists 1%nat.
      split; [lia | split; [| split; [lia |]]]; [| close_world w].
      succeed_from.
  - exists 0%nat.
    split; [done | split; [apply calls_succeed_from_0 | split; [cbn; lia |]]].
    close_world w.
Qed.

(** The [except] clauses of the ingestion handler: the rollback is the
    one call they make, and the clause is left by its exception when it
    raises. *)
Lemma except_calls (env : environment) (out : outcome response) (f : frame) :
  let w := f_world f in
  ∃ f',
    receive_security_scan_except env (out, f)
    = (if rollback_fails env out f then Raise PsycopgError else Return (handled out), f')
    ∧ closing_calls f' = closing_calls f
    ∧ f_world f'
      = after w (table w) (next_id w) (rollback_calls out f) (except_logs out).
Proof.
  destruct f as [conn cur w]. cbn zeta.
  unfold rollback_fails, rollback_calls, closing_calls.
  cbn [f_conn f_cur f_world].
  destruct out as [resp | [ | ]]; cbn [receive_security_scan_except handled except_logs].
  - eexists. split; [reflexivity | split; [reflexivity |]]. close_world w.
  - cbn [with_world f_conn f_cur f_world].
    destruct conn as [pending |].
    + unfold rollback, mbind, M_bind, modify.
      rewrite (storage_call_at env _ _ (length (trace w))) by done.
      destruct (storage_fails env (length (trace w)));
        eexists; (split; [reflexivity | split; [reflexivity |]]); close_world w.
    + eexists. split; [reflexivity | split; [reflexivity |]]. close_world w.
  - destruct conn; eexists; (split; [reflexivity | split; [reflexivity |]]);
      close_world w.
Qed.

(** What follows the [try] block of the ingestion handler: the rollback,
    when there is one, and then the calls of the [finally] block up to the
    first that raises, [c] being the number of those that succeed.  The
    answer is the one of the [except] clauses when none of these calls
    raises, and the exception leaves the handler otherwise. *)
Lemma recover (env : environment) (out : outcome response) (f : frame) :
  let w := f_world f in
  let rb := rollback_calls out f in
  let cl := closing_calls f in
  ∃ c, (c ≤ length cl)%nat
       ∧ calls_succeed_from env (length (trace w) + length rb) c
       ∧ ((c < length cl)%nat
          → storage_fails env (length (trace w) + length rb + c) = true)
       ∧ leave env (receive_security_scan_except env (out, f))
         = (if rollback_fails env out f || negb (c =? length cl)%nat
            then unhandled PsycopgError
            else handled out,
            after w (table w) (next_id w) (rb ++ take (S c) cl) (except_logs out)).
Proof.
  cbn zeta.
  destruct (except_calls env out f) as (f' & -> & Hcl & Hw).
  destruct (leave_calls env
              (if rollback_fails env out f then Raise PsycopgError
               else Return (handled out)) f')
    as (c & Hle & Hok & Hfail & ->).
  rewrite Hcl in *. rewrite Hw in *. unfold after in Hok, Hfail. cbn [trace] in Hok, Hfail.
  rewrite length_app in Hok, Hfail.
  exists c. split; [done | split; [done | split; [done |]]].
  f_equal.
  - destruct (rollback_fails env out f); cbn [orb];
      destruct (decide (c = length (closing_calls f))) as [-> | Hne].
    + done.
    + done.
    + by rewrite Nat.eqb_refl.
    + apply Nat.eqb_neq in Hne. by rewrite Hne.
  - unfold after. cbn. by rewrite <- !app_assoc, app_nil_r.
Qed.

(** All the calls that follow the [try] block succeed exactly when the
    rollback does and every closing call does. *)
Lemma recovery_succeeds (env : environment) (out : outcome response) (f : frame)
    (c : nat) :
  (c ≤ length (closing_calls f))%nat →
  calls_succeed_from env
    (length (trace (f_world f)) + length (rollback_calls out f)) c →
  ((c < length (closing_calls f))%nat →
   storage_fails env
     (length (trace (f_world f)) + length (rollback_calls out f) + c) = true) →
  calls_succeed env (f_world f)
    (length (rollback_calls out f ++ closing_calls f))
  ↔ rollback_fails env out f || negb (c =? length (closing_calls f))%nat = false.
Proof.
  intros Hle Hok Hfail. rewrite orb_false_iff, negb_false_iff, Nat.eqb_eq.
  rewrite length_app. unfold calls_succeed, rollback_fails in *.
  split.
  - intros Hall. split.
    + destruct (rollback_calls out f) as [| op rb] eqn:Hrb; [done |].
      specialize (Hall 0%nat). rewrite Nat.add_0_r in Hall. apply Hall. cbn. lia.
    + destruct (decide (c = length (closing_calls f))) as [-> | Hne]; [done |].
      rewrite <- Nat.add_assoc in Hfail.
      rewrite Hall in Hfail by lia. by discriminate Hfail; lia.
  - intros [Hrb ->] j Hj.
    destruct (decide (j < length (rollback_calls out f))%nat) as [Hlt | Hge].
    + unfold rollback_calls in *.
      destruct out as [| [|]]; cbn in Hlt; try lia.
      destruct (f_conn f); cbn in Hlt; try lia.
      replace j with 0%nat by lia. by rewrite Nat.add_0_r.
    + specialize (Hok (j - length (rollback_calls out f))%nat).
      replace (length (trace (f_world f)) + length (rollback_calls out f)
               + (j - length (rollback_calls out f)))%nat
        with (length (trace (f_world f)) + j)%nat in Hok by lia.
      apply Hok. lia.
Qed.

End recovery.

(** C6, as the code has it: when the [try] block of the ingestion handler
    ends with a storage error, nothing is stored, whatever happens next.
    The error is rolled back when a connection was opened, and when
    neither the rollback nor a closing call raises in turn, the handler
    answers with the generic database error, which differs from the
    internal error it answers to every other exception.  An exception
    raised by the rollback or by a closing call is not caught: it leaves
    the handler, which then answers with none of its documents. *)
Theorem storage_error_is_rolled_back_and_reported `{Runtime}
    (env : environment) (req : request) (w : world) (e : exn) (f : frame) :
  validate_api_key env req = true →
  receive_security_scan_try env req (new_frame w) = (Raise e, f) →
  let r := receive_security_scan env req w in
  let calls := (rollback_calls (Raise e) f ++ closing_calls f)%list in
  table r.2 = table w
  ∧ database_error ≠ internal_error
  ∧ resp_body database_error = ErrorBody "Database error occurred"
  ∧ (calls_succeed env (f_world f) (length calls) →
     r.1 = match e with
           | PsycopgError => database_error
           | OtherException => internal_error
           end
     ∧ trace r.2 = (trace (f_world f) ++ calls)%list)
  ∧ (¬ calls_succeed env (f_world f) (length calls) →
     r.1 = unhandled PsycopgError)
  ∧ (e = PsycopgError → is_Some (f_conn f) → OpRollback ∈ trace r.2).
Proof.
  intros Hv Ht. cbn zeta.
  rewrite receive_security_scan_authorized by done. rewrite Ht.
  destruct (recover env (Raise e) f) as (c & Hle & Hok & Hfail & ->).
  pose proof (recovery_succeeds env (Raise e) f c Hle Hok Hfail) as Hiff.
  cbn [fst snd]. unfold after at 1. cbn [table].
  split; [| split; [discriminate | split; [done | split; [| split]]]].
  - apply receive_security_scan_try_cases in Ht
      as [(? & _ & _ & ? & _) | [(? & _ & ? & _)
          | (? & ? & ? & ? & _ & _ & _ & _ & _ & ? & _)]];
      done.
  - intros Hall. apply Hiff in Hall. rewrite Hall.
    apply orb_false_iff in Hall as [_ Hc].
    apply negb_false_iff, Nat.eqb_eq in Hc. subst c.
    split; [by destruct e |].
    unfold after. cbn [trace]. by rewrite firstn_all2 by lia.
  - intros Hnot.
    assert (E : rollback_fails env (Raise e) f
                || negb (c =? length (closing_calls f))%nat = true).
    { apply not_false_iff_true. intros E. by apply Hnot, Hiff. }
    by rewrite E.
  - intros -> [pending Hc]. unfold after. cbn [trace].
    unfold rollback_calls. rewrite Hc.
    rewrite !elem_of_app, list_elem_of_singleton. auto.
Qed.

Lemma storage_error_is_rolled_back_and_reported_witness :
  (@receive_security_scan Reference.runtime failing_insert_env
     semgrep_only_request sample_world).1 = database_error
  ∧ table (@receive_security_scan Reference.runtime failing_insert_env
             semgrep_only_request sample_world).2 = []
  ∧ OpRollback ∈ trace (@receive_security_scan Reference.runtime failing_insert_env
                          semgrep_only_request sample_world).2.
Proof.
  assert (Htry : @receive_security_scan_try Reference.runtime failing_insert_env
                   semgrep_only_request (new_frame sample_world)
                 = (Raise PsycopgError,
                    Frame (Some []) true
                          (World [] 1 [OpConnect; OpCursor; OpExecute] [])))
    by (vm_compute; reflexivity).
  pose proof (@storage_error_is_rolled_back_and_reported Reference.runtime
                failing_insert_env semgrep_only_request sample_world PsycopgError
                _ eq_refl Htry) as (Ht & _ & _ & Hr & _ & Hb).
  split; [| split; [exact Ht |]].
  - apply Hr. intros j Hj. cbn in Hj |- *.
    destruct j as [| [| [| j]]]; [reflexivity | reflexivity | reflexivity | lia].
  - apply Hb; [reflexivity | by eexists].
Defined.

(** The claim C6 fails where the storage error comes from a call that the
    handler does not guard.  When [conn.close()] raises after the commit,
    the record stays stored and the answer is not the database error; when
    the INSERT fails and the rollback raises as well, the answer is not
    the database error either. *)
Lemma unguarded_storage_error_is_not_reported :
  (@receive_security_scan Reference.runtime (failing_call_env 6)
     semgrep_only_request sample_world).1 = unhandled PsycopgError
  ∧ length (table (@receive_security_scan Reference.runtime (failing_call_env 6)
                     semgrep_only_request sample_world).2) = 1%nat
  ∧ (@receive_security_scan Reference.runtime
       (Environment (Some "s3cret") 1700000000000000 1700000000000000
                    (λ n, bool_decide (n = 2%nat ∨ n = 3%nat)))
       semgrep_only_request sample_world).1 = unhandled PsycopgError
  ∧ unhandled PsycopgError ≠ database_error.
Proof. vm_compute. repeat split; discriminate. Qed.

(* ===================================================================== *)
(** * The scan timestamp *)
(* ===================================================================== *)

Section timestamp.
Context `{Runtime}.

(** A request to which a truthy body was sent and which is not answered
    201 has stored nothing. *)
Lemma unanswered_not_stored (env : environment) (req : request) (w : world) :
  validate_api_key env req = true →
  (∀ d t p cols,
     get_json req = Json (PDict d) →
     scan_time_of env (default (PDict ∅) (d !! "scan_metadata")) = Return t →
     insert_params env (PDict d)
       (default (PDict ∅) (d !! "scan_metadata"))
       (default (PDict ∅) (d !! "compliance_status"))
       (default (PDict ∅) (d !! "scan_results"))
       (default (PDict ∅) (d !! "evidence_artifacts")) t = Return p →
     adapt_params p = Return () →
     store_row p = Some cols →
     False) →
  resp_code (receive_security_scan env req w).1 ≠ 201
  ∧ table (receive_security_scan env req w).2 = table w.
Proof.
  intros Hv Hno. split.
  - intros Hc.
    destruct (receive_security_scan env req w) as [resp w'] eqn:Hr.
    destruct (receive_security_scan_201 _ _ _ _ _ Hr Hc)
      as (d & t & p & cols & Hj & Ht & Hp & Ha & Hs & _).
    by eapply Hno.
  - rewrite receive_security_scan_authorized by done.
    destruct (receive_security_scan_try env req (new_frame w)) as [out f] eqn:Htry.
    destruct (leave_table env (receive_security_scan_except env (out, f)))
      as (-> & _).
    destruct (except_table env (out, f)) as (-> & _). cbn [snd].
    apply receive_security_scan_try_cases in Htry
      as [(data & _ & _ & _ & ->) | [(e & _ & Htab & _)
          | (d & t & p & cols & Hj & Ht & Hp & Ha & Hs & _)]];
      [done | done |].
    by destruct (Hno d t p cols).
Qed.

Lemma scan_time_of_missing (env : environment) (md : pydict) :
  fromisoformat (str_replace (isoformat (utcnow env)) "Z" "+00:00") = Some (utcnow env) →
  md !! "timestamp" = None →
  scan_time_of env (PDict md) = Return (utcnow env).
Proof. unfold scan_time_of. cbn. intros Hrt ->. cbn. by rewrite Hrt. Qed.

Lemma scan_time_of_text (env : environment) (md : pydict) (s : string) :
  md !! "timestamp" = Some (PStr s) →
  scan_time_of env (PDict md)
  = match fromisoformat (str_replace s "Z" "+00:00") with
    | Some t => Return t
    | None => Raise OtherException
    end.
Proof. unfold scan_time_of. cbn. by intros ->. Qed.

(** With a working storage layer, a timestamp that cannot be parsed ends
    the request with the internal error. *)
Lemma receive_security_scan_bad_timestamp (env : environment) (req : request)
    (w : world) (d : pydict) :
  validate_api_key env req = true →
  healthy env →
  get_json req = Json (PDict d) →
  d ≠ ∅ →
  scan_time_of env (default (PDict ∅) (d !! "scan_metadata")) = Raise OtherException →
  (receive_security_scan env req w).1 = internal_error.
Proof.
  intros Hv Hh Hj Hd Ht.
  rewrite receive_security_scan_authorized by done.
  unfold receive_security_scan_try. rewrite Hj.
  unfold mbind, M_bind, lift at 1. cbn.
  destruct d as [| item d]; [done |]. cbn.
  rewrite assign_conn_healthy by done. cbn.
  rewrite assign_cur_healthy by done. cbn.
  rewrite Ht. cbn. by rewrite leave_healthy.
Qed.

End timestamp.

(** C3, as the code has it: the handler parses [scan_metadata.timestamp]
    after replacing [Z] by [+00:00], so that a trailing [Z] is read as UTC.
    When the field is missing it substitutes the ingestion time: the
    timestamp step does not fail and every record stored for the request
    carries the ingestion time.  When the field is a text the library
    cannot parse, nothing is substituted: the request is never answered
    201, the table is as before, and with a working storage layer the
    answer is the internal error.  The first hypothesis is the library
    fact that the text printed for the ingestion time contains no [Z] to
    replace and parses back to the same time. *)
Theorem missing_timestamp_defaults_unparseable_fails `{Runtime}
    (env : environment) (req : request) (w : world) (d md : pydict) :
  fromisoformat (str_replace (isoformat (utcnow env)) "Z" "+00:00") = Some (utcnow env) →
  validate_api_key env req = true →
  get_json req = Json (PDict d) →
  default (PDict ∅) (d !! "scan_metadata") = PDict md →
  (∀ body, contains "Z" body = false →
           str_replace (body ++ "Z") "Z" "+00:00" = body ++ "+00:00")
  ∧ (∀ s t, md !! "timestamp" = Some (PStr s) →
            fromisoformat (str_replace s "Z" "+00:00") = Some t →
            scan_time_of env (PDict md) = Return t)
  ∧ (md !! "timestamp" = None →
       scan_time_of env (PDict md) = Return (utcnow env)
       ∧ ∀ resp w', receive_security_scan env req w = (resp, w') →
                    resp_code resp = 201 →
                    ∃ r, table w' = (table w ++ [r])%list
                         ∧ row_timestamp r = utcnow env)
  ∧ (∀ s, md !! "timestamp" = Some (PStr s) →
          fromisoformat (str_replace s "Z" "+00:00") = None →
          resp_code (receive_security_scan env req w).1 ≠ 201
          ∧ table (receive_security_scan env req w).2 = table w
          ∧ (healthy env → (receive_security_scan env req w).1 = internal_error)).
Proof.
  intros Hrt Hv Hj Hmd.
  split; [exact str_replace_trailing_Z |].
  split; [intros s t Hs Hp; by rewrite (scan_time_of_text _ _ s), Hp |].
  split.
  - intros Hnone. split; [by apply scan_time_of_missing |].
    intros resp w' Hr Hc.
    destruct (receive_security_scan_201 _ _ _ _ _ Hr Hc)
      as (d' & t & p & cols & Hj' & Ht & Hp & _ & Ha & _ & Htab & _).
    rewrite Hj in Hj'. injection Hj' as <-.
    rewrite Hmd, scan_time_of_missing in Ht by done. injection Ht as <-.
    exists (Row (next_id w) cols). split; [done |].
    apply insert_params_columns in Hp as (Hp & _).
    apply store_row_columns in Ha as (Ha & _).
    unfold row_timestamp. cbn. congruence.
  - intros s Hs Hp.
    assert (Ht : scan_time_of env (default (PDict ∅) (d !! "scan_metadata"))
                 = Raise OtherException)
      by (by rewrite Hmd, (scan_time_of_text _ _ s), Hp).
    assert (Hd : d ≠ ∅).
    { intros ->. cbn in Hmd. injection Hmd as <-. discriminate Hs. }
    destruct (unanswered_not_stored env req w Hv) as [Hcode Htab].
    { intros d' t p cols Hj' Ht' _ _ _.
      rewrite Hj in Hj'. injection Hj' as <-. congruence. }
    split; [exact Hcode | split; [exact Htab |]].
    intros Hh. by eapply receive_security_scan_bad_timestamp.
Qed.

Lemma missing_timestamp_defaults_unparseable_fails_witness :
  (∃ r, table (@receive_security_scan Reference.runtime sample_env
                 no_timestamp_request sample_world).2 = [r]
        ∧ row_timestamp r = utcnow sample_env)
  ∧ (@receive_security_scan Reference.runtime sample_env
       bad_timestamp_request sample_world).1 = internal_error.
Proof.
  split.
  - destruct (@missing_timestamp_defaults_unparseable_fails Reference.runtime
                sample_env no_timestamp_request sample_world
                [("scan_metadata", PDict [("application", PStr "svc-a")])]
                [("application", PStr "svc-a")]
                eq_refl eq_refl eq_refl eq_refl) as (_ & _ & Hmissing & _).
    destruct (Hmissing eq_refl) as [_ Hstored].
    exact (Hstored _ _ (surjective_pairing _) eq_refl).
  - destruct (@missing_timestamp_defaults_unparseable_fails Reference.runtime
                sample_env bad_timestamp_request sample_world
                [("scan_metadata", PDict [("timestamp", PStr "not-a-date")])]
                [("timestamp", PStr "not-a-date")]
                eq_refl eq_refl eq_refl eq_refl) as (_ & _ & _ & Hbad).
    destruct (Hbad "not-a-date" eq_refl eq_refl) as (_ & _ & Hinternal).
    exact (Hinternal sample_env_healthy).
Defined.

(** The claim C3 fails where the timestamp is present and not ISO-8601: the
    request is answered with the internal error (500) and nothing is
    stored, where the claim has the ingestion time substituted. *)
Lemma unparseable_timestamp_is_not_defaulted :
  Reference.fromisoformat (str_replace "not-a-date" "Z" "+00:00") = None
  ∧ (@receive_security_scan Reference.runtime sample_env
       bad_timestamp_request sample_world).1 = internal_error
  ∧ resp_code internal_error = 500
  ∧ table (@receive_security_scan Reference.runtime sample_env
             bad_timestamp_request sample_world).2 = [].
Proof. vm_compute. repeat split. Qed.


(* ===================================================================== *)
(** * Missing fields and empty bodies *)
(* ===================================================================== *)

Section defaults.
Context `{Runtime}.

Lemma py_get2_missing (section : pydict) (k1 k2 : string) (dflt : pyval) :
  missing2 section k1 k2 → py_get2 (PDict section) k1 k2 dflt = Return dflt.
Proof.
  unfold missing2, py_get2. cbn.
  destruct (section !! k1) as [[]|]; cbn; try done. by intros ->.
Qed.

(** A value of the type of its column is adapted by the driver and kept by
    the server. *)
Lemma typed_stored (ty : coltype) (v : pyval) :
  typed ty v → adapt v = Return () ∧ is_Some (column_value ty v).
Proof.
  destruct ty, v; cbn; try done; try (intros _; split; [done | by eexists]).
  intros ->. split; [done | by eexists].
Qed.

(** A field read with [get] is of its type when the default is, and it is
    the default when the key is missing. *)
Lemma py_get_typed (ty : coltype) (section : pydict) (key : string) (dflt : pyval) :
  field_ok ty section key → typed ty dflt →
  ∃ v, py_get (PDict section) key dflt = Return v
       ∧ typed ty v ∧ (section !! key = None → v = dflt).
Proof.
  unfold field_ok. cbn. intros Hf Hd.
  destruct (section !! key) as [v |]; cbn; eauto.
  exists v. done.
Qed.

Lemma py_get2_typed (ty : coltype) (section : pydict) (k1 k2 : string)
    (dflt : pyval) :
  field2_ok ty section k1 k2 → typed ty dflt →
  ∃ v, py_get2 (PDict section) k1 k2 dflt = Return v
       ∧ typed ty v ∧ (missing2 section k1 k2 → v = dflt).
Proof.
  unfold field2_ok, missing2, py_get2. cbn. intros Hf Hd.
  destruct (section !! k1) as [[] |]; cbn; try done; [| eauto].
  unfold field_ok in Hf.
  destruct (_ !! k2) as [v |]; cbn; eauto.
  exists v. done.
Qed.

(** Integer counters add up to an integer. *)
Lemma sast_sum_typed (sr : pydict) :
  Forall (field2_ok TInteger sr "sast") counter_keys →
  ∃ n, sast_sum (PDict sr) = Return (PInt n).
Proof.
  unfold counter_keys. rewrite !Forall_cons. intros (H1 & H2 & H3 & _).
  unfold field2_ok in *.
  destruct (sr !! "sast") as [sub |] eqn:Hs.
  - destruct sub; try done.
    eexists. apply (sast_sum_counters sr items); [by rewrite Hs | | |];
      unfold counter_ok; unfold field_ok in *;
      match goal with
      | |- match ?x with _ => _ end => destruct x as [[] |]; done
      end.
  - eexists. apply (sast_sum_counters sr ∅); [by rewrite Hs | done | done | done].
Qed.

(** The time of a payload whose timestamp is missing or readable. *)
Lemma scan_time_of_ok (env : environment) (md : pydict) :
  timestamp_ok md →
  fromisoformat (str_replace (isoformat (utcnow env)) "Z" "+00:00") = Some (utcnow env) →
  ∃ t, scan_time_of env (PDict md) = Return t
       ∧ (md !! "timestamp" = None → t = utcnow env).
Proof.
  unfold timestamp_ok. intros Hts Hrt.
  destruct (md !! "timestamp") as [[] |] eqn:Hm; try done.
  - destruct Hts as [t Ht]. exists t. split; [| done].
    rewrite (scan_time_of_text env md s) by done. by rewrite Ht.
  - exists (utcnow env). split; [| done]. by apply scan_time_of_missing.
Qed.

(** A payload whose present fields have the types of the data model gives
    a parameter tuple that the driver adapts and the server stores, with
    the default in every column whose field is missing. *)
Lemma well_typed_stored (env : environment) (data : pyval)
    (md cs sr ea : pydict) (t : datetime) :
  well_typed md cs sr ea →
  has_nul (json_dumps data) = false →
  ∃ p cols,
    insert_params env data (PDict md) (PDict cs) (PDict sr) (PDict ea) t = Return p
    ∧ adapt_params p = Return ()
    ∧ store_row p = Some cols
    ∧ timestamp cols = t
    ∧ scan_metadata_json cols = SText (json_dumps data)
    ∧ Forall (defaulted (λ k, md !! k = None) cols) metadata_defaults
    ∧ Forall (defaulted (λ k, cs !! k = None) cols) compliance_defaults
    ∧ Forall (defaulted (λ k, ea !! k = None) cols) evidence_defaults
    ∧ Forall (defaulted (missing2 cs "scan_coverage") cols) coverage_defaults
    ∧ Forall (λ '(k1, f), defaulted (missing2 sr k1) cols f) results_defaults.
Proof.
  intros (_ & Hmd & Hcs & Hcov & Hres & Hsast & Hea) Hnul.
  destruct (sast_sum_typed sr Hsast) as [n Hn].
  unfold metadata_defaults, compliance_defaults, coverage_defaults,
    results_defaults, evidence_defaults in *.
  rewrite !Forall_cons in Hmd. rewrite !Forall_cons in Hcs.
  rewrite !Forall_cons in Hcov. rewrite !Forall_cons in Hres.
  rewrite !Forall_cons in Hea.
  destruct_and!.
  repeat match goal with
         | Hf : field_ok ?ty ?sec ?k |- _ =>
             let v := fresh "v" in
             let Ev := fresh "Ev" in
             let Tv := fresh "Tv" in
             let Dv := fresh "Dv" in
             match goal with
             | |- context [(k, ty, _, ?dflt, _)] =>
                 destruct (py_get_typed ty sec k dflt Hf) as (v & Ev & Tv & Dv);
                 [done |]; clear Hf;
                 apply typed_stored in Tv as [? [? ?]]
             end
         | Hf : field2_ok ?ty ?sec ?k1 ?k2 |- _ =>
             let v := fresh "v" in
             let Ev := fresh "Ev" in
             let Tv := fresh "Tv" in
             let Dv := fresh "Dv" in
             match goal with
             | |- context [(k2, ty, _, ?dflt, _)] =>
                 destruct (py_get2_typed ty sec k1 k2 dflt Hf) as (v & Ev & Tv & Dv);
                 [done |]; clear Hf;
                 apply typed_stored in Tv as [? [? ?]]
             end
         end.
  eexists _, _. split; [| split; [| split]].
  - unfold insert_params.
    repeat match goal with
           | E : ?x = Return _ |- context [?x] => rewrite E; clear E; cbn [mbind outcome_bind]
           end.
    reflexivity.
  - unfold adapt_params. cbn [repository application branch commit_sha scan_type
      overall_status total_issues severity_threshold secrets_scanning sast_scanning
      dependency_scanning container_scanning dast_scanning secrets_findings
      sast_findings dependency_vulnerabilities web_security_grade workflow_run_id
      workflow_run_number sarif_uploaded artifacts_available scan_metadata_json].
    repeat match goal with
           | E : adapt ?x = Return _ |- context [adapt ?x] =>
               rewrite E; clear E; cbn [mbind outcome_bind]
           end.
    cbn. by rewrite Hnul.
  - unfold store_row. cbn [repository application branch commit_sha scan_type
      overall_status total_issues severity_threshold secrets_scanning sast_scanning
      dependency_scanning container_scanning dast_scanning secrets_findings
      sast_findings dependency_vulnerabilities web_security_grade workflow_run_id
      workflow_run_number sarif_uploaded artifacts_available scan_metadata_json
      timestamp].
    repeat match goal with
           | E : column_value ?ty ?x = Some _ |- context [column_value ?ty ?x] =>
               rewrite E; cbn [mbind option_bind]
           end.
    cbn. reflexivity.
  - cbn [timestamp scan_metadata_json]. split; [done |]. split; [done |].
    rewrite !Forall_cons, !Forall_nil. unfold defaulted.
    cbn [repository application branch commit_sha scan_type
      overall_status total_issues severity_threshold secrets_scanning sast_scanning
      dependency_scanning container_scanning dast_scanning secrets_findings
      sast_findings dependency_vulnerabilities web_security_grade workflow_run_id
      workflow_run_number sarif_uploaded artifacts_available].
    repeat split; try done;
      intros Hmiss;
      match goal with
      | Dv : _ → ?v = _, E : column_value _ ?v = Some ?c |- ?c = _ =>
          rewrite (Dv Hmiss) in E; cbn in E; by injection E as <-
      end.
Qed.

End defaults.

(* ===================================================================== *)
(** * Empty bodies and missing fields, at the handler *)
(* ===================================================================== *)

(** A body that [get_json] refuses raises inside the [try] block, where
    the general [except] clause turns it into the internal error. *)
Lemma rejected_body_is_internal_error `{Runtime}
    (env : environment) (req : request) (w : world) :
  validate_api_key env req = true →
  get_json req = JsonRejected →
  (receive_security_scan env req w).1 = internal_error
  ∧ table (receive_security_scan env req w).2 = table w
  ∧ trace (receive_security_scan env req w).2 = trace w.
Proof.
  intros Hv Hj. rewrite receive_security_scan_authorized by done.
  unfold receive_security_scan_try. rewrite Hj. by destruct w.
Qed.




(* ===================================================================== *)
(** * The compliance report *)
(* ===================================================================== *)

Section report.
Context `{Runtime}.

(** The percentage is computed without an exception: the division is
    guarded by [total_scans > 0]. *)
Lemma compliance_percentage_of_returns (so : option stats) :
  ∃ pct, compliance_percentage_of so = Return pct.
Proof.
  unfold compliance_percentage_of, py_truediv.
  destruct so as [st |]; [| by eexists].
  destruct (0 <? st_total_scans st)%Z eqn:Hpos; [| by eexists].
  apply Z.ltb_lt in Hpos.
  destruct (st_total_scans st =? 0)%Z eqn:Hz; [apply Z.eqb_eq in Hz; lia |].
  by eexists.
Qed.

Lemma get_compliance_report_healthy (env : environment) (req : request) (w : world) :
  validate_api_key env req = true →
  healthy env →
  let days := days_of req in
  let flt := filter_of (args req !! "application") in
  ∃ pct w',
    compliance_percentage_of (head (stats_query env days flt (table w))) = Return pct
    ∧ get_compliance_report env req w
      = (Response
           (ReportBody
              (Report (isoformat (utcnow env)) days (args req !! "application")
                      (summary_of (head (stats_query env days flt (table w))) pct)
                      (app_query env days flt (table w))
                      (recent_issues_query env days flt (table w))))
           200, w')
    ∧ table w' = table w.
Proof.
  intros Hv Hh days flt.
  destruct (compliance_percentage_of_returns (head (stats_query env days flt (table w))))
    as [pct Hpct].
  exists pct. unfold get_compliance_report. rewrite Hv.
  unfold get_compliance_report_try. fold days. fold flt.
  cbn -[stats_query app_query recent_issues_query compliance_percentage_of summary_of
       leave].
  unfold mbind at 1, M_bind at 1. rewrite assign_conn_healthy by done.
  unfold mbind at 1, M_bind at 1. rewrite assign_cur_healthy by done.
  unfold mbind at 1, M_bind at 1. rewrite execute_select_healthy by done.
  unfold mbind at 1, M_bind at 1. rewrite fetchone_healthy by done.
  unfold mbind at 1, M_bind at 1. rewrite execute_select_healthy by done.
  unfold mbind at 1, M_bind at 1. rewrite fetchall_healthy by done.
  unfold mbind at 1, M_bind at 1. rewrite execute_select_healthy by done.
  unfold mbind at 1, M_bind at 1. rewrite fetchall_healthy by done.
  unfold mbind at 1, M_bind at 1.
  cbn -[stats_query app_query recent_issues_query compliance_percentage_of summary_of
       leave].
  rewrite Hpct.
  cbn -[stats_query app_query recent_issues_query compliance_percentage_of summary_of
       leave].
  rewrite leave_healthy by done.
  eexists. split; [done | split; reflexivity].
Qed.

Global Instance by_scans_desc_trans : Transitive by_scans_desc.
Proof. unfold by_scans_desc. intros a b c. lia. Qed.

Global Instance by_scans_desc_total : Total by_scans_desc.
Proof. unfold by_scans_desc. intros a b. lia. Qed.

Global Instance by_timestamp_desc_trans : Transitive by_timestamp_desc.
Proof. unfold by_timestamp_desc. intros a b c. lia. Qed.

Global Instance by_timestamp_desc_total : Total by_timestamp_desc.
Proof. unfold by_timestamp_desc. intros a b. lia. Qed.

Lemma StronglySorted_take {A} (R : relation A) (n : nat) (l : list A) :
  StronglySorted R l → StronglySorted R (take n l).
Proof.
  intros Hs. rewrite <- (take_drop n l) in Hs.
  by apply StronglySorted_app_1_l in Hs.
Qed.

(** The breakdown is ordered by number of scans, largest first. *)
Lemma app_query_sorted (env : environment) (days : Z) (flt : option string)
    (tbl : list row) :
  StronglySorted by_scans_desc (app_query env days flt tbl).
Proof. unfold app_query. apply StronglySorted_merge_sort; apply _. Qed.

(** The breakdown has one row for each application of the selected
    records, and the row counts the records of its application. *)
Lemma app_query_groups (env : environment) (days : Z) (flt : option string)
    (tbl : list row) :
  let rows := filter (λ r, base_where env days flt r = true) tbl in
  NoDup (stat_application <$> app_query env days flt tbl)
  ∧ (∀ k, k ∈ stat_application <$> app_query env days flt tbl
          ↔ k ∈ row_application <$> rows)
  ∧ Forall (λ a, stat_scans a
                 = Z.of_nat (length (group_of (stat_application a) rows)))
           (app_query env days flt tbl).
Proof.
  intros rows. unfold app_query. fold rows.
  set (keys := remove_dups (row_application <$> rows)).
  set (mk := λ k, AppStat k _ _ _).
  assert (Hkeys : stat_application <$> merge_sort by_scans_desc (mk <$> keys) ≡ₚ keys).
  { rewrite merge_sort_Permutation, <- list_fmap_compose.
    replace (stat_application ∘ mk) with (@id sqlval) by reflexivity.
    by rewrite list_fmap_id. }
  split; [| split].
  - rewrite Hkeys. apply NoDup_remove_dups.
  - intros k. rewrite Hkeys. apply elem_of_remove_dups.
  - apply Forall_forall. intros a Ha. rewrite merge_sort_Permutation in Ha.
    apply list_elem_of_fmap in Ha as (k & -> & _). reflexivity.
Qed.

(** The recent list: non-compliant records only, at most ten, latest
    first, each taken from the table. *)
Lemma recent_issues_query_spec (env : environment) (days : Z) (flt : option string)
    (tbl : list row) :
  let recent := recent_issues_query env days flt tbl in
  Forall (λ i, issue_overall_status i = SText "NON_COMPLIANT") recent
  ∧ (length recent ≤ 10)%nat
  ∧ StronglySorted issue_by_timestamp_desc recent
  ∧ Forall (λ i, ∃ r, r ∈ tbl ∧ base_where env days flt r = true ∧ i = issue_of_row r)
           recent.
Proof.
  unfold recent_issues_query. cbn zeta.
  set (rows := filter _ tbl).
  assert (Hin : ∀ r, r ∈ take 10 (merge_sort by_timestamp_desc rows) →
                     r ∈ tbl ∧ base_where env days flt r = true
                     ∧ row_overall_status r = SText "NON_COMPLIANT").
  { intros r Hr. apply subseteq_take in Hr.
    rewrite merge_sort_Permutation in Hr.
    apply list_elem_of_filter in Hr as [Hp Hr].
    apply andb_true_iff in Hp as [Hw Hs].
    unfold sql_eq_text in Hs. apply bool_decide_eq_true in Hs. done. }
  repeat split.
  - apply Forall_fmap, Forall_forall. intros r Hr. cbn. by apply Hin.
  - rewrite length_fmap, length_take. lia.
  - apply (StronglySorted_fmap _ by_timestamp_desc); [done |].
    apply StronglySorted_take, StronglySorted_merge_sort; apply _.
  - apply Forall_fmap, Forall_forall. intros r Hr. cbn.
    exists r. destruct (Hin r Hr) as (? & ? & _). done.
Qed.

End report.

(** C8: the compliance percentage of the report is [compliant / total * 100]
    rounded to two decimals, computed with the float operations of the
    runtime, over the records of the window; it is the integer 0 when the
    window holds no record, and computing it never raises, so that no
    division by zero takes place. *)
Theorem compliance_percentage_is_guarded_ratio `{Runtime}
    (env : environment) (req : request) (w : world) :
  validate_api_key env req = true →
  healthy env →
  (∀ so, ∃ pct, compliance_percentage_of so = Return pct)
  ∧ ∃ r w',
      get_compliance_report env req w = (Response (ReportBody r) 200, w')
      ∧ total_scans (report_summary r)
        = Z.of_nat (length (window_rows env req (table w)))
      ∧ compliant_scans (report_summary r)
        = count_status "COMPLIANT" (window_rows env req (table w))
      ∧ compliance_percentage (report_summary r)
        = percentage (compliant_scans (report_summary r))
                     (total_scans (report_summary r))
      ∧ (total_scans (report_summary r) = 0 →
         compliance_percentage (report_summary r) = NumInt 0).
Proof.
  intros Hv Hh. split; [exact compliance_percentage_of_returns |].
  destruct (get_compliance_report_healthy env req w Hv Hh) as (pct & w' & Hp & Hr & _).
  eexists _, w'. split; [exact Hr |].
  cbn in Hp |- *. fold (window_rows env req (table w)) in Hp |- *.
  set (total := Z.of_nat (length (window_rows env req (table w)))) in *.
  assert (Hpct : py_round pct 2
                 = percentage (count_status "COMPLIANT" (window_rows env req (table w)))
                              total).
  { unfold percentage, py_truediv in *.
    destruct (0 <? total)%Z eqn:Hpos.
    - apply Z.ltb_lt in Hpos.
      destruct (total =? 0)%Z eqn:Hz; [apply Z.eqb_eq in Hz; lia |].
      cbn in Hp. injection Hp as <-. reflexivity.
    - apply Z.ltb_ge in Hpos.
      assert (total = 0) as -> by (unfold total in *; lia).
      cbn in Hp. injection Hp as <-. reflexivity. }
  repeat split; [exact Hpct |].
  intros Hz. rewrite Hpct, Hz. reflexivity.
Qed.

Lemma compliance_percentage_is_guarded_ratio_witness :
  ∃ r w',
    @get_compliance_report Reference.runtime sample_env (get_request ∅) populated_world
    = (Response (ReportBody r) 200, w')
    ∧ total_scans (report_summary r) = 4
    ∧ compliant_scans (report_summary r) = 2
    ∧ compliance_percentage (report_summary r) = @percentage Reference.runtime 2 4.
Proof.
  destruct (@compliance_percentage_is_guarded_ratio Reference.runtime sample_env
              (get_request ∅) populated_world eq_refl sample_env_healthy)
    as (_ & r & w' & Hr & Ht & Hc & Hp & _).
  exists r, w'. rewrite Hp, Hc, Ht. split; [exact Hr | repeat split].
Defined.

(** C9: in the report the per-application breakdown is ordered by number of
    records, largest first, each row counting the records of its
    application in the window; the recent non-compliant list holds only
    NON_COMPLIANT records of the window, at most ten of them, latest
    first. *)
Theorem report_breakdown_and_recent_list_are_ordered `{Runtime}
    (env : environment) (req : request) (w : world) :
  validate_api_key env req = true →
  healthy env →
  ∃ r w',
    get_compliance_report env req w = (Response (ReportBody r) 200, w')
    ∧ StronglySorted by_scans_desc (applications r)
    ∧ Forall (λ a, stat_scans a
                   = Z.of_nat (length (group_of (stat_application a)
                                                (window_rows env req (table w)))))
             (applications r)
    ∧ Forall (λ i, issue_overall_status i = SText "NON_COMPLIANT")
             (recent_non_compliant_scans r)
    ∧ (length (recent_non_compliant_scans r) ≤ 10)%nat
    ∧ StronglySorted issue_by_timestamp_desc (recent_non_compliant_scans r)
    ∧ Forall (λ i, ∃ x, x ∈ window_rows env req (table w) ∧ i = issue_of_row x)
             (recent_non_compliant_scans r).
Proof.
  intros Hv Hh.
  destruct (get_compliance_report_healthy env req w Hv Hh) as (pct & w' & _ & Hr & _).
  eexists _, w'. split; [exact Hr |]. cbn [applications recent_non_compliant_scans].
  split; [apply app_query_sorted |].
  split; [apply app_query_groups |].
  destruct (recent_issues_query_spec env (days_of req)
              (filter_of (args req !! "application")) (table w))
    as (Hnc & Hlen & Hsorted & Hfrom).
  repeat split; try done.
  eapply Forall_impl; [exact Hfrom |].
  intros i (x & Hx & Hw & ->). exists x. split; [| done].
  unfold window_rows. apply list_elem_of_filter. done.
Qed.

Lemma report_breakdown_and_recent_list_are_ordered_witness :
  ∃ r w',
    @get_compliance_report Reference.runtime sample_env (get_request ∅) populated_world
    = (Response (ReportBody r) 200, w')
    ∧ stat_application <$> applications r = [SText "svc-a"; SText "svc-b"]
    ∧ stat_scans <$> applications r = [3; 1]
    ∧ issue_timestamp <$> recent_non_compliant_scans r
      = [1699900000000000; 1699500000000000].
Proof.
  destruct (@report_breakdown_and_recent_list_are_ordered Reference.runtime sample_env
              (get_request ∅) populated_world eq_refl sample_env_healthy)
    as (r & w' & Hr & _).
  exists r, w'. split; [exact Hr |].
  injection Hr as <- _. repeat split.
Defined.


(* ===================================================================== *)
(** * Status lookup *)
(* ===================================================================== *)

Section status.
Context `{Runtime}.

Lemma get_application_status_healthy (env : environment) (req : request)
    (application : string) (w : world) :
  validate_api_key env req = true →
  healthy env →
  ∃ w',
    get_application_status env req application w
    = (match head (latest_scan_query application (table w)) with
       | None => not_found
       | Some r => Response (StatusBody (status_of_row application r)) 200
       end, w')
    ∧ table w' = table w.
Proof.
  intros Hv Hh. unfold get_application_status. rewrite Hv.
  unfold get_application_status_try.
  cbn -[latest_scan_query status_of_row leave].
  unfold mbind at 1, M_bind at 1. rewrite assign_conn_healthy by done.
  unfold mbind at 1, M_bind at 1. rewrite assign_cur_healthy by done.
  unfold mbind at 1, M_bind at 1. rewrite execute_select_healthy by done.
  unfold mbind at 1, M_bind at 1. rewrite fetchone_healthy by done.
  cbn -[latest_scan_query status_of_row leave].
  destruct (head (latest_scan_query application (table w)));
    cbn -[status_of_row leave]; rewrite leave_healthy by done;
    eexists; split; reflexivity.
Qed.

(** The query finds nothing exactly when the application has no record,
    and otherwise a record of the application that no other record of the
    application is later than. *)
Lemma latest_scan_query_spec (application : string) (tbl : list row) :
  match head (latest_scan_query application tbl) with
  | None => ∀ r, r ∈ tbl → ¬ record_of application r
  | Some r =>
      r ∈ tbl ∧ record_of application r
      ∧ ∀ r', r' ∈ tbl → record_of application r' →
              (row_timestamp r' ≤ row_timestamp r)%Z
  end.
Proof.
  unfold latest_scan_query.
  set (rows := filter _ tbl).
  assert (Hrows : ∀ r, r ∈ rows ↔ r ∈ tbl ∧ record_of application r).
  { intros r. unfold rows. rewrite list_elem_of_filter.
    unfold sql_eq_text, record_of. rewrite bool_decide_eq_true. tauto. }
  pose proof (StronglySorted_merge_sort by_timestamp_desc rows) as Hs.
  pose proof (merge_sort_Permutation by_timestamp_desc rows) as Hperm.
  destruct (merge_sort by_timestamp_desc rows) as [| r sorted]; cbn.
  - intros r Hr Ha. assert (Hin : r ∈ rows) by (by apply Hrows).
    rewrite <- Hperm in Hin. by apply elem_of_nil in Hin.
  - assert (Hr : r ∈ rows) by (rewrite <- Hperm; left).
    apply Hrows in Hr as [Hr Ha]. split; [done | split; [done |]].
    intros r' Hr' Ha'. assert (Hin : r' ∈ rows) by (by apply Hrows).
    rewrite <- Hperm in Hin. apply StronglySorted_cons in Hs as [Hall _].
    apply elem_of_cons in Hin as [-> | Hin]; [lia |].
    rewrite Forall_forall in Hall. by apply Hall.
Qed.

End status.

(** C10: with a valid credential and a working storage layer, the status
    lookup answers not-found (404) exactly when the table has no record of
    the application; otherwise it answers 200 with the application name and
    the status, timestamp, total issues and five coverage flags of a record
    of that application than which no record of the application is
    later. *)
Theorem status_lookup_not_found_iff_no_record `{Runtime}
    (env : environment) (req : request) (app : string) (w : world) :
  validate_api_key env req = true →
  healthy env →
  resp_code not_found = 404
  ∧ ((get_application_status env req app w).1 = not_found
     ↔ ∀ r, r ∈ table w → ¬ record_of app r)
  ∧ ((∃ r, r ∈ table w ∧ record_of app r) →
     ∃ r, r ∈ table w ∧ record_of app r
          ∧ (∀ r', r' ∈ table w → record_of app r' →
                   (row_timestamp r' ≤ row_timestamp r)%Z)
          ∧ (get_application_status env req app w).1
            = Response
                (StatusBody
                   (AppStatus app (row_overall_status r)
                      (isoformat (row_timestamp r)) (row_total_issues r)
                      (Coverage (secrets_scanning (row_cols r))
                                (sast_scanning (row_cols r))
                                (dependency_scanning (row_cols r))
                                (container_scanning (row_cols r))
                                (dast_scanning (row_cols r)))))
                200).
Proof.
  intros Hv Hh.
  destruct (get_application_status_healthy env req app w Hv Hh) as (w' & Hr & _).
  rewrite Hr. cbn [fst].
  pose proof (latest_scan_query_spec app (table w)) as Hq.
  destruct (head (latest_scan_query app (table w))) as [r |].
  - destruct Hq as (Hin & Ha & Hmax).
    split; [done | split].
    + split; [discriminate | intros Hno; by destruct (Hno r Hin)].
    + intros _. exists r. done.
  - split; [done | split; [done |]].
    intros (r & Hin & Ha). by destruct (Hq r Hin).
Qed.

Lemma status_lookup_not_found_iff_no_record_witness :
  (@get_application_status Reference.runtime sample_env (get_request ∅)
     "svc-z" populated_world).1 = not_found
  ∧ ∃ r, r ∈ table populated_world
         ∧ record_of "svc-a" r
         ∧ (row_timestamp (sample_row 3 1699900000000000 "svc-a" "NON_COMPLIANT" 5)
            ≤ row_timestamp r)%Z
         ∧ (@get_application_status Reference.runtime sample_env (get_request ∅)
              "svc-a" populated_world).1
           = Response (StatusBody (@status_of_row Reference.runtime "svc-a" r)) 200.
Proof.
  split.
  - destruct (@status_lookup_not_found_iff_no_record Reference.runtime sample_env
                (get_request ∅) "svc-z" populated_world eq_refl sample_env_healthy)
      as (_ & Hnf & _).
    apply Hnf. intros r Hr Ha. unfold record_of in Ha.
    unfold populated_world in Hr. cbn [table] in Hr.
    rewrite !elem_of_cons, elem_of_nil in Hr.
    destruct Hr as [-> | [-> | [-> | [-> | [-> | []]]]]]; discriminate Ha.
  - destruct (@status_lookup_not_found_iff_no_record Reference.runtime sample_env
                (get_request ∅) "svc-a" populated_world eq_refl sample_env_healthy)
      as (_ & _ & Hfound).
    destruct Hfound as (r & Hin & Ha & Hmax & Hresp).
    { exists (sample_row 1 1699000000000000 "svc-a" "COMPLIANT" 0).
      split; [left | reflexivity]. }
    exists r. split; [exact Hin | split; [exact Ha | split; [| exact Hresp]]].
    apply Hmax; [| reflexivity].
    unfold populated_world. cbn [table]. rewrite !elem_of_cons. tauto.
Defined.


(* ===================================================================== *)
(** * Further properties: every path of the ingestion handler *)
(* ===================================================================== *)

Section ingestion_paths.
Context `{Runtime}.

Ltac pick_disjunct :=
  first [left; solve [repeat eexists; reflexivity]
        | right; pick_disjunct
        | solve [repeat eexists; reflexivity]].

Ltac close_path Hr :=
  injection Hr as <- <-; unfold new_frame, after, add_log, add_op, with_world; cbn;
  repeat (rewrite <- app_assoc; cbn); rewrite ?app_nil_r;
  solve [pick_disjunct].

Lemma outcome_bind_Raise {A B} (o : outcome A) (k : A → outcome B) (e : exn) :
  o ≫= k = Raise e → o = Raise e ∨ ∃ a, o = Return a ∧ k a = Raise e.
Proof. destruct o as [a | e']; [eauto | intros [= ->]; by left]. Qed.

Lemma py_get_exn (v : pyval) (k : string) (dflt : pyval) (e : exn) :
  py_get v k dflt = Raise e → e = OtherException.
Proof. destruct v; cbn; congruence. Qed.

Lemma py_get2_exn (v : pyval) (k1 k2 : string) (dflt : pyval) (e : exn) :
  py_get2 v k1 k2 dflt = Raise e → e = OtherException.
Proof.
  unfold py_get2. intros [He | (a & _ & He)]%outcome_bind_Raise;
    by apply py_get_exn in He.
Qed.

Lemma py_add_exn (a b : pyval) (e : exn) : py_add a b = Raise e → e = OtherException.
Proof.
  unfold py_add. intros He.
  destruct a, b; cbn in He; try congruence;
    repeat match type of He with
           | context [match ?x with _ => _ end] => destruct x; cbn in He; try congruence
           end.
Qed.

Lemma sast_sum_exn (sr : pyval) (e : exn) : sast_sum sr = Raise e → e = OtherException.
Proof.
  unfold sast_sum. intros He.
  repeat (apply outcome_bind_Raise in He as [He | (? & _ & He)];
          [first [by apply py_get2_exn in He | by apply py_add_exn in He] |]).
  by apply py_add_exn in He.
Qed.

(** Reading the payload raises Python exceptions only, never a storage
    error. *)
Lemma scan_time_of_exn (env : environment) (md : pyval) (e : exn) :
  scan_time_of env md = Raise e → e = OtherException.
Proof.
  unfold scan_time_of. intros He.
  apply outcome_bind_Raise in He as [He | (ts & _ & He)]; [by apply py_get_exn in He |].
  apply outcome_bind_Raise in He as [He | (ts' & _ & He)].
  - destruct ts; cbn in He; congruence.
  - destruct (fromisoformat ts'); congruence.
Qed.

Lemma insert_params_exn (env : environment) (data md cs sr ea : pyval)
    (t : datetime) (e : exn) :
  insert_params env data md cs sr ea t = Raise e → e = OtherException.
Proof.
  unfold insert_params. intros He.
  repeat (apply outcome_bind_Raise in He as [He | (? & _ & He)];
          [first [by apply py_get_exn in He | by apply py_get2_exn in He
                 | by apply sast_sum_exn in He] |]).
  discriminate He.
Qed.



(** The ways the [try] block ends, each with the locals and the world it
    leaves: the answer 400; an exception before connecting; a failure to
    connect, or to open the cursor; an exception while the timestamp and
    the parameters are read; an INSERT that the driver or the server
    refuses; a failure to fetch the id, or to commit; and the row
    committed. *)
Lemma receive_security_scan_try_paths (env : environment) (req : request) (w : world) :
  let r := receive_security_scan_try env req (new_frame w) in
  r = (Return bad_request, new_frame w)
  ∨ r = (Raise OtherException, new_frame w)
  ∨ r = (Raise PsycopgError,
         Frame None false
               (after w (table w) (next_id w) [OpConnect]
                      [(ERROR, MsgConnectionFailed)]))
  ∨ r = (Raise PsycopgError,
         Frame (Some []) false
               (after w (table w) (next_id w) [OpConnect; OpCursor] []))
  ∨ r = (Raise OtherException,
         Frame (Some []) true
               (after w (table w) (next_id w) [OpConnect; OpCursor] []))
  ∨ (∃ e, r = (Raise e,
               Frame (Some []) true
                     (after w (table w) (next_id w)
                            [OpConnect; OpCursor; OpExecute] [])))
  ∨ (∃ pending,
       r = (Raise PsycopgError,
            Frame (Some pending) true
                  (after w (table w) (next_id w + 1)
                         [OpConnect; OpCursor; OpExecute; OpFetch] [])))
  ∨ (∃ pending,
       r = (Raise PsycopgError,
            Frame (Some pending) true
                  (after w (table w) (next_id w + 1)
                         [OpConnect; OpCursor; OpExecute; OpFetch; OpCommit] [])))
  ∨ ∃ d md cs t p cols,
      get_json req = Json (PDict d)
      ∧ default (PDict ∅) (d !! "scan_metadata") = PDict md
      ∧ default (PDict ∅) (d !! "compliance_status") = PDict cs
      ∧ scan_time_of env (PDict md) = Return t
      ∧ insert_params env (PDict d) (PDict md) (PDict cs)
          (default (PDict ∅) (d !! "scan_results"))
          (default (PDict ∅) (d !! "evidence_artifacts")) t = Return p
      ∧ adapt_params p = Return ()
      ∧ store_row p = Some cols
      ∧ r = (Return (Response (CreatedBody (Created "success" (Some (next_id w))
                                 "Security scan data received and stored"
                                 (overall_status p))) 201),
             Frame (Some []) true
                   (after w (table w ++ [Row (next_id w) cols]) (next_id w + 1)
                          [OpConnect; OpCursor; OpExecute; OpFetch; OpCommit]
                          ((INFO, MsgStored (Some (next_id w)))
                           :: if py_eq_str (overall_status p) "NON_COMPLIANT"
                              then [(WARNING,
                                     MsgNonCompliant
                                       (default (PStr "unknown")
                                                (md !! "application")))]
                              else []))).
Proof.
  cbn zeta. destruct w as [tbl nid tr lg].
  destruct (receive_security_scan_try env req (new_frame (World tbl nid tr lg)))
    as [out f] eqn:Hr.
  unfold receive_security_scan_try in Hr.
  unfold assign_conn, get_db_connection, assign_cur, execute_insert, fetchone,
    commit, logger, gets, modify, lift, mbind, M_bind, mret, M_ret in Hr.
  destruct (get_json req) as [data |] eqn:Hj; cbn -[store_row adapt_params] in Hr;
    [| close_path Hr].
  destruct (py_truthy data) eqn:Hd; cbn -[store_row adapt_params] in Hr;
    [| close_path Hr].
  destruct data as [| | | | | | d]; cbn -[store_row adapt_params] in Hr;
    try close_path Hr.
  repeat match type of Hr with
         | context [storage_call ?e ?op ?g] =>
             let E := fresh "E" in
             destruct (storage_call_cases e op g) as [E | E];
             rewrite E in Hr; clear E; cbn -[store_row adapt_params] in Hr;
             [| close_path Hr]
         | context [match scan_time_of ?e ?m with _ => _ end] =>
             let E := fresh "Et" in
             destruct (scan_time_of e m) as [? | x] eqn:E;
             cbn -[store_row adapt_params] in Hr;
             [| apply scan_time_of_exn in E as ->; close_path Hr]
         | context [match insert_params ?e ?a ?b ?c ?d ?g ?t with _ => _ end] =>
             let E := fresh "Ep" in
             destruct (insert_params e a b c d g t) as [? | x] eqn:E;
             cbn -[store_row adapt_params] in Hr;
             [| apply insert_params_exn in E as ->; close_path Hr]
         | context [match adapt_params ?p with _ => _ end] =>
             let E := fresh "Ed" in
             destruct (adapt_params p) as [[] |] eqn:E;
             cbn -[store_row adapt_params] in Hr;
             [| close_path Hr]
         | context [match store_row ?p with _ => _ end] =>
             let E := fresh "Ea" in
             destruct (store_row p) eqn:E; cbn -[store_row adapt_params] in Hr;
             [| close_path Hr]
         end.
  destruct (insert_params_dicts _ _ _ _ _ _ _ _ Ep) as [[m Hm] [c Hc]].
  destruct (insert_params_columns _ _ _ _ _ _ _ _ Ep) as (_ & Ho & _).
  do 8 right.
  match goal with
  | Et : scan_time_of _ _ = Return ?t, Ea : store_row ?p = Some ?cols |- _ =>
      exists d, m, c, t, p, cols
  end.
  rewrite Hm, Hc in *. cbn -[store_row adapt_params] in Hr, Ho.
  injection Ho as Ho. rewrite <- Ho.
  do 7 (split; [done |]).
  destruct (c !! "overall_status") as [st |]; cbn -[store_row adapt_params] in Hr |- *;
    [destruct (py_eq_str st "NON_COMPLIANT") |]; cbn -[store_row adapt_params] in Hr;
    injection Hr as <- <-;
    unfold after, add_op, add_log, with_world; cbn;
    repeat (rewrite <- app_assoc; cbn); reflexivity.
Qed.

(** The handler on an accepted credential, from the way its [try] block
    ends: the answer and the world, for the number [c] of closing calls
    that succeed. *)
Lemma receive_security_scan_ends (env : environment) (req : request) (w : world) :
  validate_api_key env req = true →
  ∃ out f c,
    receive_security_scan_try env req (new_frame w) = (out, f)
    ∧ (c ≤ length (closing_calls f))%nat
    ∧ receive_security_scan env req w
      = (if rollback_fails env out f || negb (c =? length (closing_calls f))%nat
         then unhandled PsycopgError
         else handled out,
         after (f_world f) (table (f_world f)) (next_id (f_world f))
               (rollback_calls out f ++ take (S c) (closing_calls f))
               (except_logs out)).
Proof.
  intros Hv. rewrite receive_security_scan_authorized by done.
  destruct (receive_security_scan_try env req (new_frame w)) as [out f].
  destruct (recover env out f) as (c & Hle & _ & _ & Hr).
  by exists out, f, c.
Qed.

(** Building the parameter tuple also reads [scan_results] and
    [evidence_artifacts] with [get], and puts the serialized payload in the
    last column. *)
Lemma insert_params_sections (env : environment)
    (data md cs sr ea : pyval) (t : datetime) (p : scan pyval) :
  insert_params env data md cs sr ea t = Return p →
  (∃ m, md = PDict m) ∧ (∃ c, cs = PDict c) ∧ (∃ s, sr = PDict s) ∧ (∃ a, ea = PDict a)
  ∧ scan_metadata_json p = PStr (json_dumps data).
Proof.
  intros Hp. destruct (insert_params_dicts _ _ _ _ _ _ _ _ Hp) as [Hm Hc].
  unfold insert_params in Hp.
  repeat (apply outcome_bind_Return in Hp as (? & ? & Hp)).
  injection Hp as <-.
  repeat split; try done.
  - match goal with
    | E : py_get2 sr _ _ _ = Return _ |- _ => destruct sr; try discriminate E
    end. eauto.
  - match goal with
    | E : py_get ea _ _ = Return _ |- _ => destruct ea; try discriminate E
    end. eauto.
Qed.

Lemma store_row_json (p : scan pyval) (cols : scan sqlval) :
  store_row p = Some cols →
  column_value TText (scan_metadata_json p) = Some (scan_metadata_json cols).
Proof.
  unfold store_row. intros Ha.
  repeat (apply bind_Some in Ha as (? & ? & Ha)).
  injection Ha as <-. cbn. done.
Qed.

End ingestion_paths.

(** Every end of the handler on an accepted credential, one goal for each:
    the path of the [try] block, whether the rollback raises, and how many
    closing calls succeed. *)
Ltac ingestion_ends env req w Hv :=
  let out := fresh "out" in
  let f := fresh "f" in
  let c := fresh "c" in
  let Htry := fresh "Htry" in
  let Hle := fresh "Hle" in
  let Hres := fresh "Hres" in
  let Hp := fresh "Hp" in
  destruct (receive_security_scan_ends env req w Hv)
    as (out & f & c & Htry & Hle & Hres);
  rewrite Hres; clear Hres;
  destruct (receive_security_scan_try_paths env req w)
    as [Hp | [Hp | [Hp | [Hp | [Hp | [[[|] Hp] | [[? Hp] | [[? Hp]
        | (?d & ?md & ?cs & ?t & ?p & ?cols & ?Hj & ?Hmd & ?Hcs & ?Ht & ?Hp
           & ?Had & ?Hst & Hp)]]]]]]]];
  rewrite Hp in Htry; clear Hp; injection Htry as <- <-;
  unfold rollback_fails, rollback_calls, closing_calls in *;
  cbn [f_conn f_cur f_world new_frame app length] in *;
  repeat (destruct c as [| c]; [| try lia]); try lia; clear Hle;
  cbn [Nat.eqb negb orb take app handled except_logs fst snd];
  repeat match goal with
         | |- context [storage_fails ?e ?n] => destruct (storage_fails e n)
         end;
  cbn [Nat.eqb negb orb take app handled except_logs fst snd];
  unfold after; cbn [table next_id trace logs fst snd];
  rewrite <- ?app_assoc; cbn [app]; rewrite ?app_nil_r.


(** A closed statement about the members of a list of calls. *)
Ltac decide_calls := apply (bool_decide_unpack _); vm_compute; exact I.

Ltac refute_calls Hc Hr :=
  exfalso;
  first
    [ apply Hr; decide_calls
    | match type of Hc with
      | ?x ∈ ?l => assert (Hnc : x ∉ l) by decide_calls; exact (Hnc Hc)
      end ].

(** X1: what an answer says about the table.  The answer 201 means that
    one row was appended under the next id of the sequence, the rows
    already there staying as they are.  Each of the other documents of the
    handler (401, 400, the database error, the internal error) means that
    the table is as before.  The one other answer is that of an exception
    raised by the rollback or by a closing call, which leaves the handler:
    the table is then as before, except when the commit had succeeded, and
    then the row is stored although the answer is not 201. *)
Theorem ingestion_answer_tells_what_is_stored `{Runtime}
    (env : environment) (req : request) (w : world) :
  let r := receive_security_scan env req w in
  (resp_code r.1 = 201
   ∧ ∃ cols, table r.2 = (table w ++ [Row (next_id w) cols])%list
             ∧ next_id r.2 = next_id w + 1)
  ∨ (r.1 ∈ [unauthorized; bad_request; database_error; internal_error]
     ∧ table r.2 = table w)
  ∨ (r.1 = unhandled PsycopgError
     ∧ ∃ ops, trace r.2 = (trace w ++ ops)%list
              ∧ (OpCommit ∈ ops ∧ OpRollback ∉ ops
                 → ∃ cols, table r.2 = (table w ++ [Row (next_id w) cols])%list)
              ∧ (¬ (OpCommit ∈ ops ∧ OpRollback ∉ ops) → table r.2 = table w)).
Proof.
  cbn zeta. destruct (validate_api_key env req) eqn:Hv.
  - ingestion_ends env req w Hv;
      first
        [ left; split; [reflexivity | eexists; split; reflexivity]
        | right; left; split; [solve [repeat constructor] | reflexivity]
        | right; right; split; [reflexivity |];
          eexists; split; [reflexivity |]; split;
          [ intros _; eexists; reflexivity
          | intros Hn; exfalso; apply Hn; split; decide_calls ]
        | right; right; split; [reflexivity |];
          eexists; split; [reflexivity |]; split;
          [ intros [Hc Hr]; refute_calls Hc Hr
          | intros _; reflexivity ] ].
  - right; left. unfold receive_security_scan. rewrite Hv. cbn.
    split; [solve [repeat constructor] | done].
Qed.

(** X2: whatever fails, the storage calls of an ingestion are one of nine
    sequences, or one of them cut short.  Nothing is called for 401 and
    400.  A statement is executed only on the way to 201, to the database
    error and, when the driver refuses a parameter, to the internal error.
    Rollback follows every storage error met after connecting and occurs
    nowhere else.  The cursor is closed before the connection; when one of
    these calls or the rollback raises, the exception leaves the handler,
    and when it is the closing of the cursor, the connection is not
    closed. *)
Theorem ingestion_storage_calls `{Runtime}
    (env : environment) (req : request) (w : world) :
  ∃ ops,
    trace (receive_security_scan env req w).2 = (trace w ++ ops)%list
    ∧ let resp := (receive_security_scan env req w).1 in
      (resp = unauthorized ∧ ops = [])
      ∨ (resp = bad_request ∧ ops = [])
      ∨ (resp = internal_error ∧ ops ∈ internal_error_calls)
      ∨ (resp = database_error ∧ ops ∈ database_error_calls)
      ∨ (resp_code resp = 201 ∧ ops = created_calls)
      ∨ (resp = unhandled PsycopgError
         ∧ (last ops = Some OpClose ∨ last ops = Some OpCursorClose)
         ∧ ∃ full,
             full ∈ (internal_error_calls ++ database_error_calls ++ [created_calls])%list
             ∧ (ops = full ∨ (ops ++ [OpClose])%list = full)).
Proof.
  unfold internal_error_calls, database_error_calls, created_calls.
  destruct (validate_api_key env req) eqn:Hv.
  - ingestion_ends env req w Hv;
      first
        [ exists []; split; [by rewrite ?app_nil_r |]; cbn zeta;
          first
            [ right; left; split; reflexivity
            | right; right; left; split; [reflexivity | solve [repeat constructor]] ]
        | eexists; split; [reflexivity |]; cbn zeta;
          first
            [ right; right; left; split; [reflexivity | solve [repeat constructor]]
            | right; right; right; left; split; [reflexivity | solve [repeat constructor]]
            | right; right; right; right; left; split; reflexivity
            | do 5 right; split; [reflexivity |]; split;
              [ first [left; reflexivity | right; reflexivity] |];
              first
                [ eexists; split; [| left; reflexivity]; solve [repeat constructor]
                | eexists; split; [| right; reflexivity]; solve [repeat constructor] ] ] ].
  - exists []. unfold receive_security_scan. rewrite Hv. cbn.
    rewrite app_nil_r. tauto.
Qed.

(** X3: the answer 201 describes the row that was stored: its [scan_id] is
    the id of the one appended row, the echoed [compliance_status] is the
    value whose text the row holds as [overall_status], and the row keeps
    the serialized payload in [scan_metadata_json]. *)
Theorem created_response_describes_stored_row `{Runtime}
    (env : environment) (req : request) (w w' : world) (resp : response)
    (data : pyval) :
  receive_security_scan env req w = (resp, w') →
  resp_code resp = 201 →
  get_json req = Json data →
  ∃ r status,
    table w' = (table w ++ [r])%list
    ∧ resp_body resp
      = CreatedBody (Created "success" (Some (row_id r))
                             "Security scan data received and stored" status)
    ∧ column_value TText status = Some (row_overall_status r)
    ∧ scan_metadata_json (row_cols r) = SText (json_dumps data).
Proof.
  intros Hr Hc Hj.
  destruct (receive_security_scan_201 env req w w' resp Hr Hc)
    as (d & t & p & cols & Hj' & _ & Hp & _ & Hs & -> & Htab & _).
  rewrite Hj in Hj'. injection Hj' as ->.
  exists (Row (next_id w) cols), (overall_status p).
  split; [done | split; [done |]].
  apply insert_params_sections in Hp as (_ & _ & _ & _ & Hjson).
  pose proof (store_row_json _ _ Hs) as Hjs.
  apply store_row_columns in Hs as (_ & _ & _ & Hst & _).
  split; [exact Hst |].
  rewrite Hjson in Hjs. cbn in Hjs |- *. congruence.
Qed.

Lemma created_response_describes_stored_row_witness :
  ∃ r status,
    table (@receive_security_scan Reference.runtime sample_env
             non_compliant_request populated_world).2
    = (table populated_world ++ [r])%list
    ∧ resp_body (@receive_security_scan Reference.runtime sample_env
                   non_compliant_request populated_world).1
      = CreatedBody (Created "success" (Some (row_id r))
                             "Security scan data received and stored" status)
    ∧ @column_value Reference.runtime TText status = Some (row_overall_status r)
    ∧ scan_metadata_json (row_cols r)
      = SText (Reference.json_dumps
                 (PDict [("scan_metadata", PDict [("application", PStr "svc-a")]);
                         ("compliance_status",
                          PDict [("overall_status", PStr "NON_COMPLIANT");
                                 ("total_issues", PInt 5)])])).
Proof.
  exact (@created_response_describes_stored_row Reference.runtime sample_env
           non_compliant_request populated_world _ _ _
           (surjective_pairing _) eq_refl eq_refl).
Defined.

(** X4: a stored scan is logged at level INFO with its id; the warning for
    a non-compliant scan is logged exactly when the payload's
    [overall_status] is the string NON_COMPLIANT, it names the payload's
    application (or "unknown"), and the answer has the same shape either
    way. *)
Theorem non_compliant_scan_is_logged `{Runtime}
    (env : environment) (req : request) (w w' : world) (resp : response)
    (d md : pydict) :
  receive_security_scan env req w = (resp, w') →
  resp_code resp = 201 →
  get_json req = Json (PDict d) →
  default (PDict ∅) (d !! "scan_metadata") = PDict md →
  ∃ c,
    resp_body resp = CreatedBody c
    ∧ logs w'
      = (logs w
         ++ (INFO, MsgStored (created_scan_id c))
            :: if py_eq_str (created_compliance_status c) "NON_COMPLIANT"
               then [(WARNING,
                      MsgNonCompliant (default (PStr "unknown") (md !! "application")))]
               else [])%list.
Proof.
  intros Hr Hc Hj Hmd.
  assert (Hv : validate_api_key env req = true).
  { destruct (validate_api_key env req) eqn:Hv; [done |].
    unfold receive_security_scan in Hr. rewrite Hv in Hr.
    injection Hr as <- _. discriminate Hc. }
  revert Hr. ingestion_ends env req w Hv; intros [= <- <-]; try discriminate Hc.
  rewrite Hj in *.
  match goal with Hj' : Json _ = Json _ |- _ => injection Hj' as <- end.
  rewrite Hmd in *.
  match goal with Hm' : PDict _ = PDict _ |- _ => injection Hm' as <- end.
  eexists. split; reflexivity.
Qed.

Lemma non_compliant_scan_is_logged_witness :
  ∃ c,
    resp_body (@receive_security_scan Reference.runtime sample_env
                 non_compliant_request populated_world).1 = CreatedBody c
    ∧ logs (@receive_security_scan Reference.runtime sample_env
              non_compliant_request populated_world).2
      = (logs populated_world
         ++ (INFO, MsgStored (created_scan_id c))
            :: if py_eq_str (created_compliance_status c) "NON_COMPLIANT"
               then [(WARNING,
                      MsgNonCompliant
                        (default (PStr "unknown")
                           (([("application", PStr "svc-a")] : pydict)
                              !! "application")))]
               else [])%list.
Proof.
  exact (@non_compliant_scan_is_logged Reference.runtime sample_env
           non_compliant_request populated_world _ _
           [("scan_metadata", PDict [("application", PStr "svc-a")]);
            ("compliance_status",
             PDict [("overall_status", PStr "NON_COMPLIANT");
                    ("total_issues", PInt 5)])]
           [("application", PStr "svc-a")]
           (surjective_pairing _) eq_refl eq_refl eq_refl).
Defined.

(* ===================================================================== *)
(** * Further properties: payloads the handler cannot read *)
(* ===================================================================== *)

Section unreadable_payloads.
Context `{Runtime}.

(** A payload whose timestamp or parameters cannot be built is never
    stored. *)
Lemma unreadable_payload_not_stored (env : environment) (req : request) (w : world)
    (d : pydict) :
  validate_api_key env req = true →
  get_json req = Json (PDict d) →
  (∀ t p,
     scan_time_of env (default (PDict ∅) (d !! "scan_metadata")) = Return t →
     insert_params env (PDict d)
       (default (PDict ∅) (d !! "scan_metadata"))
       (default (PDict ∅) (d !! "compliance_status"))
       (default (PDict ∅) (d !! "scan_results"))
       (default (PDict ∅) (d !! "evidence_artifacts")) t = Return p →
     False) →
  resp_code (receive_security_scan env req w).1 ≠ 201
  ∧ table (receive_security_scan env req w).2 = table w.
Proof.
  intros Hv Hj Hbad.
  ingestion_ends env req w Hv; try (by split).
  all: rewrite Hj in *;
    match goal with Hj' : Json _ = Json _ |- _ => injection Hj' as <- end;
    match goal with
    | Hmd : _ = PDict ?md, Hcs : _ = PDict ?cs,
      Ht : scan_time_of _ _ = Return ?t, Hp : insert_params _ _ _ _ _ _ _ = Return ?p
      |- _ =>
        rewrite <- Hmd in Ht; rewrite <- Hmd, <- Hcs in Hp; destruct (Hbad t p Ht Hp)
    end.
Qed.

(** With a working storage layer such a payload costs a connection and a
    cursor, opened and closed around the internal error; no statement is
    executed. *)
Lemma unreadable_payload_internal_error (env : environment) (req : request)
    (w : world) (d : pydict) :
  validate_api_key env req = true →
  healthy env →
  get_json req = Json (PDict d) →
  d ≠ ∅ →
  (∀ t p,
     scan_time_of env (default (PDict ∅) (d !! "scan_metadata")) = Return t →
     insert_params env (PDict d)
       (default (PDict ∅) (d !! "scan_metadata"))
       (default (PDict ∅) (d !! "compliance_status"))
       (default (PDict ∅) (d !! "scan_results"))
       (default (PDict ∅) (d !! "evidence_artifacts")) t = Return p →
     False) →
  (receive_security_scan env req w).1 = internal_error
  ∧ trace (receive_security_scan env req w).2
    = (trace w ++ [OpConnect; OpCursor; OpCursorClose; OpClose])%list.
Proof.
  intros Hv Hh Hj Hd Hbad.
  rewrite receive_security_scan_authorized by done. cbn [fst snd].
  unfold receive_security_scan_try. rewrite Hj.
  unfold mbind, M_bind, lift at 1. cbn -[leave].
  destruct d as [| item d']; [done |]. cbn -[leave dict_get].
  set (d := item :: d') in *.
  rewrite assign_conn_healthy by done. cbn -[leave dict_get].
  rewrite assign_cur_healthy by done. cbn -[leave dict_get].
  destruct (scan_time_of env _) as [t | e] eqn:Ht; cbn -[leave dict_get].
  - destruct (insert_params env _ _ _ _ _ t) as [p | e] eqn:Hp; cbn -[leave dict_get].
    + destruct (Hbad t p eq_refl Hp).
    + apply insert_params_exn in Hp as ->. cbn -[leave dict_get].
      rewrite leave_healthy by done.
      unfold after, add_op, add_log, closing_calls. cbn.
      by repeat (rewrite <- app_assoc; cbn).
  - apply scan_time_of_exn in Ht as ->. cbn -[leave dict_get].
    rewrite leave_healthy by done.
    unfold after, add_op, add_log, closing_calls. cbn.
    by repeat (rewrite <- app_assoc; cbn).
Qed.

Lemma scan_time_of_not_text (env : environment) (md : pydict) (v : pyval) :
  md !! "timestamp" = Some v → ¬ is_text v →
  scan_time_of env (PDict md) = Raise OtherException.
Proof. unfold scan_time_of. cbn. intros -> Hv. by destruct v. Qed.

(** Adding a text to a missing or integer counter raises TypeError,
    whichever of the three counters is the text. *)
Lemma sast_sum_text_counter (sr sast : pydict) :
  default (PDict ∅) (sr !! "sast") = PDict sast →
  Exists (counter_is_text sast) counter_keys →
  Exists (counter_ok sast) counter_keys →
  sast_sum (PDict sr) = Raise OtherException.
Proof.
  unfold counter_keys. rewrite !Exists_cons, !Exists_nil.
  unfold sast_sum, py_get2, counter_is_text, counter_ok. cbn. intros -> Ht Hi. cbn.
  destruct (sast !! "semgrep_findings") as [[]|];
    destruct (sast !! "eslint_findings") as [[]|];
    destruct (sast !! "bandit_findings") as [[]|]; cbn;
    repeat match goal with
           | |- context [float_add ?x ?y] => destruct (float_add x y); cbn
           end;
    try reflexivity; tauto.
Qed.

End unreadable_payloads.

(** X5: a timestamp that is present but not a JSON string (a number,
    [null], a list, an object) is not taken as missing: the ingestion time
    is not substituted, the request is never answered 201 and the table is
    as before; with a working storage layer the answer is the internal
    error. *)
Theorem non_text_timestamp_is_not_defaulted `{Runtime}
    (env : environment) (req : request) (w : world)
    (d md : pydict) (v : pyval) :
  validate_api_key env req = true →
  get_json req = Json (PDict d) →
  default (PDict ∅) (d !! "scan_metadata") = PDict md →
  md !! "timestamp" = Some v →
  ¬ is_text v →
  resp_code (receive_security_scan env req w).1 ≠ 201
  ∧ table (receive_security_scan env req w).2 = table w
  ∧ (healthy env → (receive_security_scan env req w).1 = internal_error).
Proof.
  intros Hv Hj Hmd Hts Hnt.
  assert (Hd : d ≠ ∅).
  { intros ->. cbn in Hmd. injection Hmd as <-. discriminate Hts. }
  assert (Hbad : ∀ t p,
             scan_time_of env (default (PDict ∅) (d !! "scan_metadata")) = Return t →
             insert_params env (PDict d)
               (default (PDict ∅) (d !! "scan_metadata"))
               (default (PDict ∅) (d !! "compliance_status"))
               (default (PDict ∅) (d !! "scan_results"))
               (default (PDict ∅) (d !! "evidence_artifacts")) t = Return p →
             False).
  { intros t p Ht _. by rewrite Hmd, (scan_time_of_not_text _ _ v) in Ht. }
  destruct (unreadable_payload_not_stored env req w d Hv Hj Hbad) as [Hc Ht].
  split; [exact Hc | split; [exact Ht |]].
  intros Hh. by apply (unreadable_payload_internal_error env req w d).
Qed.

Lemma non_text_timestamp_is_not_defaulted_witness :
  (@receive_security_scan Reference.runtime sample_env
     null_timestamp_request populated_world).1 = internal_error
  ∧ table (@receive_security_scan Reference.runtime sample_env
             null_timestamp_request populated_world).2 = table populated_world.
Proof.
  destruct (@non_text_timestamp_is_not_defaulted Reference.runtime sample_env
              null_timestamp_request populated_world
              [("scan_metadata", PDict [("timestamp", PNone)])]
              [("timestamp", PNone)] PNone
              eq_refl eq_refl eq_refl eq_refl (λ x, x)) as (_ & Ht & Hi).
  split; [exact (Hi sample_env_healthy) | exact Ht].
Defined.

(** X6: a body that decodes to a truthy value other than an object (a
    non-empty list or string, a non-zero number, [true]) is answered with
    the internal error before any storage call: the lookup of the first
    section raises. *)
Theorem non_object_body_is_internal_error `{Runtime}
    (env : environment) (req : request) (w : world) (data : pyval) :
  validate_api_key env req = true →
  get_json req = Json data →
  py_truthy data = true →
  ¬ is_dict data →
  receive_security_scan env req w
  = (internal_error, add_log ERROR MsgUnexpectedError w).
Proof.
  intros Hv Hj Ht Hnd.
  rewrite receive_security_scan_authorized by done.
  unfold receive_security_scan_try. rewrite Hj.
  unfold mbind, M_bind, lift at 1. cbn. rewrite Ht. cbn.
  destruct data; cbn; done.
Qed.

Lemma non_object_body_is_internal_error_witness :
  @receive_security_scan Reference.runtime sample_env array_request populated_world
  = (internal_error, add_log ERROR MsgUnexpectedError populated_world).
Proof.
  exact (@non_object_body_is_internal_error Reference.runtime sample_env
           array_request populated_world (PList [PInt 1; PInt 2])
           eq_refl eq_refl eq_refl (λ x, x)).
Defined.

(** X7: when one of the four sections of the payload is present and is not
    an object, the request is never stored; with a working storage layer
    the connection and the cursor are opened and closed around the
    internal error without any statement being executed. *)
Theorem non_object_section_is_not_stored `{Runtime}
    (env : environment) (req : request) (w : world) (d : pydict) :
  validate_api_key env req = true →
  get_json req = Json (PDict d) →
  Exists (λ v, ¬ is_dict v) (sections d) →
  resp_code (receive_security_scan env req w).1 ≠ 201
  ∧ table (receive_security_scan env req w).2 = table w
  ∧ (healthy env →
     (receive_security_scan env req w).1 = internal_error
     ∧ trace (receive_security_scan env req w).2
       = (trace w ++ [OpConnect; OpCursor; OpCursorClose; OpClose])%list).
Proof.
  intros Hv Hj Hex.
  assert (Hd : d ≠ ∅).
  { intros ->. unfold sections in Hex. cbn in Hex.
    rewrite !Exists_cons, Exists_nil in Hex. cbn in Hex. tauto. }
  assert (Hbad : ∀ t p,
             scan_time_of env (default (PDict ∅) (d !! "scan_metadata")) = Return t →
             insert_params env (PDict d)
               (default (PDict ∅) (d !! "scan_metadata"))
               (default (PDict ∅) (d !! "compliance_status"))
               (default (PDict ∅) (d !! "scan_results"))
               (default (PDict ∅) (d !! "evidence_artifacts")) t = Return p →
             False).
  { intros t p _ Hp.
    apply insert_params_sections in Hp as ([m Hm] & [c Hc] & [s Hs] & [a Ha] & _).
    unfold sections in Hex. cbn in Hex.
    rewrite !Exists_cons, Exists_nil, Hm, Hc, Hs, Ha in Hex. cbn in Hex. tauto. }
  destruct (unreadable_payload_not_stored env req w d Hv Hj Hbad) as [Hc Ht].
  split; [exact Hc | split; [exact Ht |]].
  intros Hh. by apply (unreadable_payload_internal_error env req w d).
Qed.

Lemma non_object_section_is_not_stored_witness :
  (@receive_security_scan Reference.runtime sample_env
     text_section_request populated_world).1 = internal_error
  ∧ trace (@receive_security_scan Reference.runtime sample_env
             text_section_request populated_world).2
    = [OpConnect; OpCursor; OpCursorClose; OpClose].
Proof.
  destruct (@non_object_section_is_not_stored Reference.runtime sample_env
              text_section_request populated_world
              [("scan_results", PStr "none")] eq_refl eq_refl) as (_ & _ & Hi).
  - unfold sections. cbn. do 2 right. left. exact (λ x, x).
  - exact (Hi sample_env_healthy).
Defined.

(** X8: the SAST counters are added with [+] as they come.  When one of
    them is a JSON string and another is missing or an integer, the sum
    raises TypeError: the request is never stored, and with a working
    storage layer it is answered with the internal error. *)
Theorem text_counter_is_not_stored `{Runtime}
    (env : environment) (req : request) (w : world)
    (d sr sast : pydict) :
  validate_api_key env req = true →
  get_json req = Json (PDict d) →
  default (PDict ∅) (d !! "scan_results") = PDict sr →
  default (PDict ∅) (sr !! "sast") = PDict sast →
  Exists (counter_is_text sast) counter_keys →
  Exists (counter_ok sast) counter_keys →
  resp_code (receive_security_scan env req w).1 ≠ 201
  ∧ table (receive_security_scan env req w).2 = table w
  ∧ (healthy env → (receive_security_scan env req w).1 = internal_error).
Proof.
  intros Hv Hj Hsr Hsast Htext Hint.
  pose proof (sast_sum_text_counter sr sast Hsast Htext Hint) as Hsum.
  assert (Hd : d ≠ ∅).
  { intros ->. cbn in Hsr. injection Hsr as <-.
    cbn in Hsast. injection Hsast as <-.
    clear -Htext. unfold counter_keys, counter_is_text in Htext.
    rewrite !Exists_cons, Exists_nil in Htext. cbn in Htext. tauto. }
  assert (Hbad : ∀ t p,
             scan_time_of env (default (PDict ∅) (d !! "scan_metadata")) = Return t →
             insert_params env (PDict d)
               (default (PDict ∅) (d !! "scan_metadata"))
               (default (PDict ∅) (d !! "compliance_status"))
               (default (PDict ∅) (d !! "scan_results"))
               (default (PDict ∅) (d !! "evidence_artifacts")) t = Return p →
             False).
  { intros t p _ Hp. apply insert_params_columns in Hp as (_ & _ & Hs & _).
    rewrite Hsr in Hs. congruence. }
  destruct (unreadable_payload_not_stored env req w d Hv Hj Hbad) as [Hc Ht].
  split; [exact Hc | split; [exact Ht |]].
  intros Hh. by apply (unreadable_payload_internal_error env req w d).
Qed.

Lemma text_counter_is_not_stored_witness :
  (@receive_security_scan Reference.runtime sample_env
     text_counter_request populated_world).1 = internal_error
  ∧ table (@receive_security_scan Reference.runtime sample_env
             text_counter_request populated_world).2 = table populated_world.
Proof.
  pose (sast := [("semgrep_findings", PStr "2")] : pydict).
  pose (sr := [("sast", PDict sast)] : pydict).
  destruct (@text_counter_is_not_stored Reference.runtime sample_env
              text_counter_request populated_world
              [("scan_results", PDict sr)] sr sast
              eq_refl eq_refl eq_refl eq_refl) as (_ & Ht & Hi).
  - left. exact I.
  - right. left. exact I.
  - split; [exact (Hi sample_env_healthy) | exact Ht].
Defined.


(* ===================================================================== *)
(** * Further properties: the read handlers under storage failures *)
(* ===================================================================== *)

Section read_handlers.
Context `{Runtime}.

Lemma calls_succeed_S (env : environment) (w : world) (n : nat) :
  calls_succeed env w n →
  storage_fails env (length (trace w) + n) = false →
  calls_succeed env w (S n).
Proof.
  intros Hn Hs j Hj. destruct (decide (j = n)) as [-> |]; [done |].
  apply Hn. lia.
Qed.

Lemma calls_succeed_0 (env : environment) (w : world) : calls_succeed env w 0.
Proof. intros j Hj. lia. Qed.

(** What follows the [try] block and the [except] clause of a read
    handler: the closing calls, up to the first that raises. *)
Lemma read_handler_ends (env : environment) (w : world)
    (r : outcome response * frame) (resp : response) (f : frame)
    (ops : list storage_op) (msgs : list (log_level * log_message)) :
  r = (Return resp, f) →
  f_world f = after w (table w) (next_id w) ops msgs →
  ∃ c, (c ≤ length (closing_calls f))%nat
       ∧ calls_succeed_from env (length (trace w) + length ops) c
       ∧ ((c < length (closing_calls f))%nat
          → storage_fails env (length (trace w) + length ops + c) = true)
       ∧ leave env r
         = (if decide (c = length (closing_calls f)) then resp
            else unhandled PsycopgError,
            after w (table w) (next_id w) (ops ++ take (S c) (closing_calls f)) msgs).
Proof.
  intros -> Hw.
  destruct (leave_calls env (Return resp) f) as (c & Hle & Hok & Hfail & ->).
  rewrite Hw in *. unfold after in Hok, Hfail. cbn [trace] in Hok, Hfail.
  rewrite length_app in Hok, Hfail.
  exists c. split; [done | split; [done | split; [done |]]].
  f_equal. unfold after. cbn. by rewrite <- !app_assoc, app_nil_r.
Qed.

End read_handlers.

Ltac step_call Hr w k :=
  match type of Hr with
  | context [storage_call ?e ?op ?g] =>
      rewrite (storage_call_at e op g (length (trace w) + k)) in Hr
        by (cbn; rewrite ?length_app; cbn; lia);
      let F := fresh "F" in
      destruct (storage_fails e (length (trace w) + k)) eqn:F; cbn in Hr
  end.

Ltac solve_calls :=
  repeat first [apply calls_succeed_0 | apply calls_succeed_S; [| assumption]].

(** The end of a path of a read handler: the answer, what is left to
    close, and the world. *)
Ltac close_read :=
  split; [reflexivity |]; split; [reflexivity |];
  unfold after, add_log, add_op, with_world; cbn;
  repeat (rewrite <- app_assoc; cbn); by rewrite ?app_nil_r.

Section status_paths.
Context `{Runtime}.

(** The [try] block and the [except] clause of the status lookup: [s] of
    the four calls succeed. *)
Lemma get_application_status_try_ends (env : environment) (app : string) (w : world) :
  ∃ s f,
    (s ≤ 4)%nat
    ∧ calls_succeed env w s
    ∧ ((s < 4)%nat → storage_fails env (length (trace w) + s) = true)
    ∧ except_all status_failed MsgStatusError
        (get_application_status_try env app (new_frame w))
      = (Return (if decide (s = 4%nat)
                 then match head (latest_scan_query app (table w)) with
                      | None => not_found
                      | Some r => Response (StatusBody (status_of_row app r)) 200
                      end
                 else status_failed), f)
    ∧ closing_calls f = closing_after s
    ∧ f_world f
      = after w (table w) (next_id w) (take (S s) status_calls)
              (if decide (s = 4%nat) then []
               else if decide (s = 0%nat)
                    then [(ERROR, MsgConnectionFailed); (ERROR, MsgStatusError)]
                    else [(ERROR, MsgStatusError)]).
Proof.
  destruct (except_all status_failed MsgStatusError
              (get_application_status_try env app (new_frame w))) as [out f] eqn:Hr.
  unfold get_application_status_try in Hr.
  unfold assign_conn, get_db_connection, assign_cur, execute_select, fetchone,
    gets, modify, lift, mbind, M_bind, mret, M_ret in Hr.
  cbn in Hr.
  step_call Hr w 0%nat.
  { injection Hr as <- <-. exists 0%nat. eexists.
    split; [lia | split; [solve_calls | split; [done |]]]. close_read. }
  step_call Hr w 1%nat.
  { injection Hr as <- <-. exists 1%nat. eexists.
    split; [lia | split; [solve_calls | split; [done |]]]. close_read. }
  step_call Hr w 2%nat.
  { injection Hr as <- <-. exists 2%nat. eexists.
    split; [lia | split; [solve_calls | split; [done |]]]. close_read. }
  step_call Hr w 3%nat.
  { injection Hr as <- <-. exists 3%nat. eexists.
    split; [lia | split; [solve_calls | split; [done |]]]. close_read. }
  exists 4%nat. eexists. split; [lia | split; [solve_calls | split; [lia |]]].
  fold (latest_scan_query app (table w)) in Hr.
  destruct (head (latest_scan_query app (table w)));
    cbn -[status_of_row] in Hr; injection Hr as <- <-;
    (split; [reflexivity |]); (split; [reflexivity |]);
    unfold after, add_log, add_op, with_world; cbn -[status_of_row];
    repeat (rewrite <- app_assoc; cbn -[status_of_row]); by rewrite ?app_nil_r.
Qed.

End status_paths.

(** X9: for a request with a valid credential the status lookup makes its
    four storage calls in order and stops at the first that fails, [s]
    being the number of those that succeed; it then closes what it opened,
    the cursor before the connection, and stops at the first closing call
    that raises, [c] being the number of those that succeed.  It answers
    "Failed to get status" (500) exactly when one of the four calls fails
    and every closing call succeeds; the exception of a closing call
    leaves the handler; 404 and 200 are only given after the query ran and
    everything was closed.  The table is never changed. *)
Theorem status_lookup_fails_iff_a_call_fails `{Runtime}
    (env : environment) (req : request) (app : string) (w : world) :
  validate_api_key env req = true →
  let r := get_application_status env req app w in
  table r.2 = table w
  ∧ next_id r.2 = next_id w
  ∧ ∃ s c,
      (s ≤ 4)%nat
      ∧ calls_succeed env w s
      ∧ ((s < 4)%nat → storage_fails env (length (trace w) + s) = true)
      ∧ (c ≤ length (closing_after s))%nat
      ∧ calls_succeed_from env
          (length (trace w) + length (take (S s) status_calls)) c
      ∧ ((c < length (closing_after s))%nat
         → storage_fails env
             (length (trace w) + length (take (S s) status_calls) + c) = true)
      ∧ trace r.2
        = (trace w ++ take (S s) status_calls ++ take (S c) (closing_after s))%list
      ∧ (r.1 = status_failed ↔ (s < 4)%nat ∧ c = length (closing_after s))
      ∧ (r.1 = unhandled PsycopgError ↔ (c < length (closing_after s))%nat)
      ∧ (s = 4%nat → c = length (closing_after s) →
         r.1 = match head (latest_scan_query app (table w)) with
               | None => not_found
               | Some r => Response (StatusBody (status_of_row app r)) 200
               end).
Proof.
  intros Hv. cbn zeta. unfold get_application_status. rewrite Hv. cbn [negb].
  destruct (get_application_status_try_ends env app w)
    as (s & f & Hle & Hok & Hfail & Htry & Hcl & Hw).
  destruct (read_handler_ends env w _ _ f _ _ Htry Hw)
    as (c & Hcle & Hcok & Hcfail & ->).
  rewrite Hcl in *. cbn [fst snd]. unfold after at 1 2. cbn [table next_id].
  split; [done | split; [done |]].
  exists s, c. do 6 (split; [done |]).
  split; [unfold after; cbn [trace]; by rewrite <- ?app_assoc |].
  destruct (decide (c = length (closing_after s))) as [Hc | Hc].
  - split; [| split].
    + destruct (decide (s = 4%nat)) as [-> | Hs].
      * split; [| lia]. destruct (head _); discriminate.
      * split; [intros _; split; [lia | done] | done].
    + split; [| lia]. intros E.
      destruct (decide (s = 4%nat)); [destruct (head _) |]; discriminate E.
    + intros -> _. by rewrite decide_True.
  - split; [split; [discriminate | tauto] |].
    split; [split; [lia | done] | done].
Qed.

Lemma status_lookup_fails_iff_a_call_fails_witness :
  (@get_application_status Reference.runtime (failing_call_env 2) (get_request ∅)
     "svc-a" populated_world).1 = status_failed
  ∧ table (@get_application_status Reference.runtime (failing_call_env 2)
             (get_request ∅) "svc-a" populated_world).2 = table populated_world.
Proof.
  destruct (@status_lookup_fails_iff_a_call_fails Reference.runtime
              (failing_call_env 2) (get_request ∅) "svc-a" populated_world eq_refl)
    as (Ht & _ & s & c & Hle & Hok & Hfail & Hcle & _ & Hcfail & _ & Hiff & _).
  split; [| exact Ht].
  apply Hiff.
  assert (Hs : s = 2%nat).
  { destruct s as [| [| [| [| [| s]]]]]; try lia;
      first [ done
            | discriminate (Hfail ltac:(lia))
            | discriminate (Hok 2%nat ltac:(lia)) ]. }
  subst s. split; [lia |].
  destruct c as [| [| [| c]]]; cbn in Hcle |- *; try lia;
    discriminate (Hcfail ltac:(cbn; lia)).
Defined.

Ltac step_report_call Hr w k :=
  match type of Hr with
  | context [storage_call ?e ?op ?g] =>
      rewrite (storage_call_at e op g (length (trace w) + k)) in Hr
        by (cbn; rewrite ?length_app; cbn; lia);
      let F := fresh "F" in
      destruct (storage_fails e (length (trace w) + k)) eqn:F;
      cbn -[stats_query app_query recent_issues_query compliance_percentage_of
            summary_of] in Hr
  end.

Ltac close_report_read :=
  split; [reflexivity |]; split; [reflexivity |];
  unfold after, add_log, add_op, with_world;
  cbn -[stats_query app_query recent_issues_query compliance_percentage_of summary_of];
  repeat (rewrite <- app_assoc; cbn [app]); by rewrite ?app_nil_r.

Section report_paths.
Context `{Runtime}.

(** The [try] block and the [except] clause of the report: [s] of the
    eight calls succeed. *)
Lemma get_compliance_report_try_ends (env : environment) (req : request) (w : world) :
  ∃ s resp f,
    (s ≤ 8)%nat
    ∧ calls_succeed env w s
    ∧ ((s < 8)%nat → storage_fails env (length (trace w) + s) = true)
    ∧ (if decide (s = 8%nat)
       then ∃ r, resp = Response (ReportBody r) 200
       else resp = report_failed)
    ∧ except_all report_failed MsgReportError
        (get_compliance_report_try env req (new_frame w))
      = (Return resp, f)
    ∧ closing_calls f = closing_after s
    ∧ f_world f
      = after w (table w) (next_id w) (take (S s) report_calls)
              (if decide (s = 8%nat) then []
               else if decide (s = 0%nat)
                    then [(ERROR, MsgConnectionFailed); (ERROR, MsgReportError)]
                    else [(ERROR, MsgReportError)]).
Proof.
  destruct (except_all report_failed MsgReportError
              (get_compliance_report_try env req (new_frame w))) as [out f] eqn:Hr.
  unfold get_compliance_report_try in Hr.
  unfold assign_conn, get_db_connection, assign_cur, execute_select, fetchone,
    fetchall, gets, modify, lift, mbind, M_bind, mret, M_ret in Hr.
  cbn -[stats_query app_query recent_issues_query compliance_percentage_of summary_of]
    in Hr.
  step_report_call Hr w 0%nat.
  { injection Hr as <- <-. exists 0%nat, report_failed. eexists.
    split; [lia | split; [solve_calls | split; [done | split; [done |]]]].
    close_report_read. }
  step_report_call Hr w 1%nat.
  { injection Hr as <- <-. exists 1%nat, report_failed. eexists.
    split; [lia | split; [solve_calls | split; [done | split; [done |]]]].
    close_report_read. }
  step_report_call Hr w 2%nat.
  { injection Hr as <- <-. exists 2%nat, report_failed. eexists.
    split; [lia | split; [solve_calls | split; [done | split; [done |]]]].
    close_report_read. }
  step_report_call Hr w 3%nat.
  { injection Hr as <- <-. exists 3%nat, report_failed. eexists.
    split; [lia | split; [solve_calls | split; [done | split; [done |]]]].
    close_report_read. }
  step_report_call Hr w 4%nat.
  { injection Hr as <- <-. exists 4%nat, report_failed. eexists.
    split; [lia | split; [solve_calls | split; [done | split; [done |]]]].
    close_report_read. }
  step_report_call Hr w 5%nat.
  { injection Hr as <- <-. exists 5%nat, report_failed. eexists.
    split; [lia | split; [solve_calls | split; [done | split; [done |]]]].
    close_report_read. }
  step_report_call Hr w 6%nat.
  { injection Hr as <- <-. exists 6%nat, report_failed. eexists.
    split; [lia | split; [solve_calls | split; [done | split; [done |]]]].
    close_report_read. }
  step_report_call Hr w 7%nat.
  { injection Hr as <- <-. exists 7%nat, report_failed. eexists.
    split; [lia | split; [solve_calls | split; [done | split; [done |]]]].
    close_report_read. }
  destruct (compliance_percentage_of_returns
              (head (stats_query env (days_of req)
                       (filter_of (args req !! "application")) (table w))))
    as [pct Hpct].
  rewrite Hpct in Hr.
  cbn -[stats_query app_query recent_issues_query compliance_percentage_of summary_of]
    in Hr.
  injection Hr as <- <-.
  exists 8%nat. eexists _, _.
  split; [lia | split; [solve_calls | split; [lia | split; [by eexists |]]]].
  close_report_read.
Qed.

End report_paths.

(** X10: for a request with a valid credential the report makes its eight
    storage calls in order (connect, cursor, and execute and fetch for each
    of the three queries) and stops at the first that fails, [s] being the
    number of those that succeed; it then closes what it opened and stops
    at the first closing call that raises, [c] being the number of those
    that succeed.  It answers "Failed to generate report" (500) exactly
    when one of the eight calls fails and every closing call succeeds, and
    a report (200) when no call fails at all; the exception of a closing
    call leaves the handler.  The table is never changed. *)
Theorem report_fails_iff_a_call_fails `{Runtime}
    (env : environment) (req : request) (w : world) :
  validate_api_key env req = true →
  let r := get_compliance_report env req w in
  table r.2 = table w
  ∧ next_id r.2 = next_id w
  ∧ ∃ s c,
      (s ≤ 8)%nat
      ∧ calls_succeed env w s
      ∧ ((s < 8)%nat → storage_fails env (length (trace w) + s) = true)
      ∧ (c ≤ length (closing_after s))%nat
      ∧ calls_succeed_from env
          (length (trace w) + length (take (S s) report_calls)) c
      ∧ ((c < length (closing_after s))%nat
         → storage_fails env
             (length (trace w) + length (take (S s) report_calls) + c) = true)
      ∧ trace r.2
        = (trace w ++ take (S s) report_calls ++ take (S c) (closing_after s))%list
      ∧ (r.1 = report_failed ↔ (s < 8)%nat ∧ c = length (closing_after s))
      ∧ (r.1 = unhandled PsycopgError ↔ (c < length (closing_after s))%nat)
      ∧ (s = 8%nat → c = length (closing_after s) →
         ∃ rep, r.1 = Response (ReportBody rep) 200).
Proof.
  intros Hv. cbn zeta. unfold get_compliance_report. rewrite Hv. cbn [negb].
  destruct (get_compliance_report_try_ends env req w)
    as (s & resp & f & Hle & Hok & Hfail & Hresp & Htry & Hcl & Hw).
  destruct (read_handler_ends env w _ _ f _ _ Htry Hw)
    as (c & Hcle & Hcok & Hcfail & ->).
  rewrite Hcl in *. cbn [fst snd]. unfold after at 1 2. cbn [table next_id].
  split; [done | split; [done |]].
  exists s, c. do 6 (split; [done |]).
  split; [unfold after; cbn [trace]; by rewrite <- ?app_assoc |].
  destruct (decide (c = length (closing_after s))) as [Hc | Hc].
  - split; [| split].
    + destruct (decide (s = 8%nat)) as [-> | Hs].
      * split; [| lia]. destruct Hresp as [rep ->]. discriminate.
      * subst resp. split; [intros _; split; [lia | done] | done].
    + split; [| lia]. intros E.
      destruct (decide (s = 8%nat)); [destruct Hresp as [rep ->] | subst resp];
        discriminate E.
    + intros -> _. exact Hresp.
  - split; [split; [discriminate | tauto] |].
    split; [split; [lia | done] | done].
Qed.

Lemma report_fails_iff_a_call_fails_witness :
  (@get_compliance_report Reference.runtime (failing_call_env 5) (get_request ∅)
     populated_world).1 = report_failed
  ∧ ∃ rep, (@get_compliance_report Reference.runtime sample_env (get_request ∅)
              populated_world).1 = Response (ReportBody rep) 200.
Proof.
  split.
  - destruct (@report_fails_iff_a_call_fails Reference.runtime
                (failing_call_env 5) (get_request ∅) populated_world eq_refl)
      as (_ & _ & s & c & Hle & Hok & Hfail & Hcle & _ & Hcfail & _ & Hiff & _).
    apply Hiff.
    assert (Hs : s = 5%nat).
    { destruct s as [| [| [| [| [| [| [| [| [| s]]]]]]]]]; try lia;
        first [ done
              | discriminate (Hfail ltac:(lia))
              | discriminate (Hok 5%nat ltac:(lia)) ]. }
    subst s. split; [lia |].
    destruct c as [| [| [| c]]]; cbn in Hcle |- *; try lia;
      discriminate (Hcfail ltac:(cbn; lia)).
  - destruct (@report_fails_iff_a_call_fails Reference.runtime
                sample_env (get_request ∅) populated_world eq_refl)
      as (_ & _ & s & c & Hle & Hok & Hfail & Hcle & _ & Hcfail & _ & _ & _ & Hrep).
    assert (Hs : s = 8%nat).
    { destruct (decide (s = 8%nat)) as [-> | Hne]; [done |].
      discriminate (Hfail ltac:(lia)). }
    subst s. apply Hrep; [done |].
    destruct (decide (c = length (closing_after 8))) as [-> | Hne]; [done |].
    discriminate (Hcfail ltac:(lia)).
Defined.

(* ===================================================================== *)
(** * Further properties: what the report adds up to *)
(* ===================================================================== *)

Section report_sums.
Context `{Runtime}.

Lemma sum_Z_Permutation (l1 l2 : list Z) : l1 ≡ₚ l2 → sum_Z l1 = sum_Z l2.
Proof. unfold sum_Z. induction 1; cbn; lia. Qed.

Lemma sum_Z_cons (x : Z) (l : list Z) : sum_Z (x :: l) = (x + sum_Z l)%Z.
Proof. reflexivity. Qed.

Lemma sum_Z_zero {A} (l : list A) : sum_Z ((λ _, 0%Z) <$> l) = 0%Z.
Proof. induction l; [done |]. rewrite fmap_cons, sum_Z_cons. lia. Qed.

Lemma sum_Z_add {A} (f g : A → Z) (l : list A) :
  sum_Z ((λ x, (f x + g x)%Z) <$> l) = (sum_Z (f <$> l) + sum_Z (g <$> l))%Z.
Proof. induction l; [done |]. rewrite !fmap_cons, !sum_Z_cons. lia. Qed.

(** Among distinct keys exactly one is the key of a given record. *)
Lemma sum_Z_indicator (a : sqlval) (keys : list sqlval) :
  NoDup keys → a ∈ keys →
  sum_Z ((λ k, if decide (a = k) then 1%Z else 0%Z) <$> keys) = 1%Z.
Proof.
  induction 1 as [| k keys Hk Hnd IH]; intros Ha; [by apply elem_of_nil in Ha |].
  rewrite fmap_cons, sum_Z_cons. apply elem_of_cons in Ha as [-> | Ha].
  - rewrite decide_True by done.
    assert (Hz : sum_Z ((λ k0, if decide (k = k0) then 1%Z else 0%Z) <$> keys) = 0%Z).
    { clear IH Hnd. induction keys as [| k' keys IH']; [done |].
      rewrite fmap_cons, sum_Z_cons.
      rewrite decide_False by (intros ->; apply Hk; left).
      rewrite IH'; [done |]. intros Hin. apply Hk. by right. }
    lia.
  - rewrite decide_False by (intros ->; done).
    specialize (IH Ha). lia.
Qed.

(** The groups of distinct keys that cover the records partition them. *)
Lemma group_lengths_sum (keys : list sqlval) (rows : list row) :
  NoDup keys →
  (∀ r, r ∈ rows → row_application r ∈ keys) →
  sum_Z ((λ k, Z.of_nat (length (group_of k rows))) <$> keys)
  = Z.of_nat (length rows).
Proof.
  intros Hnd. induction rows as [| r rows IH]; intros Hin.
  - apply sum_Z_zero.
  - transitivity
      (sum_Z ((λ k, ((if decide (row_application r = k) then 1 else 0)
                     + Z.of_nat (length (group_of k rows)))%Z) <$> keys)).
    + f_equal. apply list_fmap_ext. intros _ k _.
      unfold group_of. rewrite filter_cons.
      destruct (decide (row_application r = k)); cbn; lia.
    + rewrite sum_Z_add, sum_Z_indicator, IH; cbn; try lia; try done.
      * intros r' Hr'. apply Hin. by right.
      * apply Hin. left.
Qed.

Lemma group_of_filter (P : row → Prop) `{∀ r, Decision (P r)} (k : sqlval)
    (rows : list row) :
  filter P (group_of k rows) = group_of k (filter P rows).
Proof.
  unfold group_of. rewrite !list_filter_filter. apply list_filter_iff.
  intros r. tauto.
Qed.

(** The breakdown adds up to the summary. *)
Lemma app_query_sums (env : environment) (days : Z) (flt : option string)
    (tbl : list row) :
  let rows := filter (λ r, base_where env days flt r = true) tbl in
  sum_Z (stat_scans <$> app_query env days flt tbl) = Z.of_nat (length rows)
  ∧ sum_Z (stat_compliant <$> app_query env days flt tbl)
    = count_status "COMPLIANT" rows.
Proof.
  intros rows. unfold app_query. fold rows.
  set (keys := remove_dups (row_application <$> rows)).
  assert (Hnd : NoDup keys) by apply NoDup_remove_dups.
  assert (Hcover : ∀ r, r ∈ rows → row_application r ∈ keys).
  { intros r Hr. apply elem_of_remove_dups, list_elem_of_fmap. eauto. }
  split.
  - rewrite (sum_Z_Permutation _ _ (fmap_Permutation _ _ _ (merge_sort_Permutation _ _))).
    rewrite <- list_fmap_compose. by apply group_lengths_sum.
  - rewrite (sum_Z_Permutation _ _ (fmap_Permutation _ _ _ (merge_sort_Permutation _ _))).
    rewrite <- list_fmap_compose. unfold count_status.
    rewrite <- (group_lengths_sum keys (filter _ rows) Hnd).
    + f_equal. apply list_fmap_ext. intros _ k _. cbn.
      unfold count_status. by rewrite group_of_filter.
    + intros r Hr. apply Hcover. by apply list_elem_of_filter in Hr as [_ Hr].
Qed.

(** Widening the window keeps every record. *)
Lemma window_monotone (env : environment) (days1 days2 : Z) (flt : option string)
    (tbl : list row) :
  (days1 ≤ days2)%Z →
  (length (filter (λ r, base_where env days1 flt r = true) tbl)
   ≤ length (filter (λ r, base_where env days2 flt r = true) tbl))%nat.
Proof.
  intros Hd. induction tbl as [| r tbl IH]; [done |].
  rewrite !filter_cons.
  assert (Himp : base_where env days1 flt r = true → base_where env days2 flt r = true).
  { unfold base_where, microseconds_per_day.
    intros [Hw Hf]%andb_true_iff. apply andb_true_iff. split; [| done].
    apply Z.leb_le in Hw. apply Z.leb_le. lia. }
  destruct (decide (base_where env days1 flt r = true)) as [H1 | H1].
  - rewrite decide_True by auto. cbn. lia.
  - destruct (decide (base_where env days2 flt r = true)); cbn; lia.
Qed.

(** The recent list is the head of the non-compliant records of the
    window, latest first: a record left out is no later than any record
    listed, and nothing is left out while there is room. *)
Lemma recent_issues_query_latest (env : environment) (days : Z)
    (flt : option string) (tbl : list row) :
  let rows :=
    filter (λ r, base_where env days flt r
                 && sql_eq_text (row_overall_status r) "NON_COMPLIANT" = true) tbl in
  let recent := recent_issues_query env days flt tbl in
  length recent = min 10 (length rows)
  ∧ ∀ x, x ∈ rows →
         issue_of_row x ∈ recent
         ∨ Forall (λ i, (row_timestamp x ≤ issue_timestamp i)%Z) recent.
Proof.
  intros rows recent. subst recent. unfold recent_issues_query. fold rows.
  set (sorted := merge_sort by_timestamp_desc rows).
  assert (Hperm : sorted ≡ₚ rows) by apply merge_sort_Permutation.
  split.
  - rewrite length_fmap, length_take. by rewrite Hperm.
  - intros x Hx. rewrite <- Hperm in Hx.
    rewrite <- (take_drop 10 sorted) in Hx.
    apply elem_of_app in Hx as [Hx | Hx].
    + left. apply list_elem_of_fmap. eauto.
    + right. apply Forall_fmap, Forall_forall. intros y Hy. cbn.
      pose proof (StronglySorted_merge_sort by_timestamp_desc rows) as Hs.
      fold sorted in Hs. rewrite <- (take_drop 10 sorted) in Hs.
      exact (StronglySorted_app_1_elem_of _ _ _ _ _ Hs Hy Hx).
Qed.

(** With an application filter every group is that application's. *)
Lemma app_query_filtered (env : environment) (days : Z) (a : string)
    (tbl : list row) :
  (length (app_query env days (Some a) tbl) ≤ 1)%nat
  ∧ Forall (λ s, stat_application s = SText a) (app_query env days (Some a) tbl).
Proof.
  destruct (app_query_groups env days (Some a) tbl) as (Hnd & Hin & _).
  assert (Hall : Forall (λ s, stat_application s = SText a)
                        (app_query env days (Some a) tbl)).
  { apply Forall_forall. intros s Hs.
    assert (Hk : stat_application s ∈ stat_application <$> app_query env days (Some a) tbl)
      by (apply list_elem_of_fmap; eauto).
    apply Hin, list_elem_of_fmap in Hk as (r & -> & Hr).
    apply list_elem_of_filter in Hr as [Hr _].
    unfold base_where in Hr. apply andb_true_iff in Hr as [_ Hr].
    unfold sql_eq_text in Hr. by apply bool_decide_eq_true in Hr. }
  split; [| done].
  destruct (app_query env days (Some a) tbl) as [| s1 [| s2 l]]; cbn; try lia.
  exfalso. cbn in Hnd. apply NoDup_cons in Hnd as [Hnotin _].
  apply Hnotin. apply Forall_cons in Hall as [H1 Hall].
  apply Forall_cons in Hall as [H2 _]. rewrite H1, <- H2. left.
Qed.

End report_sums.

Section report_queries.
Context `{Runtime}.

Lemma filter_length_impl {A} (P Q : A → Prop) `{∀ x, Decision (P x)}
    `{∀ x, Decision (Q x)} (l : list A) :
  (∀ x, P x → Q x) → (length (filter P l) ≤ length (filter Q l))%nat.
Proof.
  intros Himp. induction l as [| x l IH]; [done |].
  rewrite !filter_cons. destruct (decide (P x)) as [Hp | Hp].
  - rewrite decide_True by auto. cbn. lia.
  - destruct (decide (Q x)); cbn; lia.
Qed.

Lemma base_where_wider (env : environment) (days1 days2 : Z) (flt : option string)
    (r : row) :
  (days1 ≤ days2)%Z →
  base_where env days1 flt r = true → base_where env days2 flt r = true.
Proof.
  unfold base_where, microseconds_per_day. intros Hd [Hw Hf]%andb_true_iff.
  apply andb_true_iff. split; [| done].
  apply Z.leb_le in Hw. apply Z.leb_le. lia.
Qed.

Lemma count_status_wider (env : environment) (days1 days2 : Z) (flt : option string)
    (lit : string) (tbl : list row) :
  (days1 ≤ days2)%Z →
  (count_status lit (filter (λ r, base_where env days1 flt r = true) tbl)
   ≤ count_status lit (filter (λ r, base_where env days2 flt r = true) tbl))%Z.
Proof.
  intros Hd. unfold count_status. rewrite !list_filter_filter.
  apply inj_le, filter_length_impl.
  intros r [Hs Hw]. split; [done |]. by apply (base_where_wider env days1).
Qed.

(** The three counts and the records of neither status make up the total. *)
Lemma count_status_partition (rows : list row) :
  (count_status "COMPLIANT" rows + count_status "NON_COMPLIANT" rows
   + Z.of_nat (length (filter unclassified rows))
   = Z.of_nat (length rows))%Z.
Proof.
  unfold count_status, sql_eq_text, unclassified.
  induction rows as [| r rows IH]; [done |].
  rewrite !filter_cons. cbn beta.
  destruct (decide (bool_decide (row_overall_status r = SText "COMPLIANT") = true))
    as [Hc | Hc];
    destruct (decide (bool_decide (row_overall_status r = SText "NON_COMPLIANT") = true))
      as [Hn | Hn];
    rewrite ?bool_decide_eq_true in Hc, Hn.
  - congruence.
  - rewrite decide_False by (intros [? _]; done). cbn [length]. lia.
  - rewrite decide_False by (intros [_ ?]; done). cbn [length]. lia.
  - rewrite decide_True by done. cbn [length]. lia.
Qed.

(** The WHERE clause of the recent list selects the non-compliant records
    of the window. *)
Lemma non_compliant_rows_query (env : environment) (req : request) (tbl : list row) :
  filter (λ r, base_where env (days_of req) (filter_of (args req !! "application")) r
               && sql_eq_text (row_overall_status r) "NON_COMPLIANT" = true) tbl
  = non_compliant_rows env req tbl.
Proof.
  unfold non_compliant_rows, window_rows. rewrite list_filter_filter.
  apply list_filter_iff. intros r. rewrite andb_true_iff. tauto.
Qed.

(** A record appended to the table joins the records of the window when it
    satisfies the WHERE clause. *)
Lemma window_rows_snoc (env : environment) (req : request) (tbl : list row) (r : row) :
  window_rows env req (tbl ++ [r])
  = (window_rows env req tbl
     ++ if base_where env (days_of req) (filter_of (args req !! "application")) r
        then [r] else [])%list.
Proof.
  unfold window_rows. rewrite filter_app. f_equal.
  rewrite filter_cons, filter_nil.
  destruct (base_where _ _ _ r); [by rewrite decide_True | by rewrite decide_False].
Qed.

Lemma count_status_app (lit : string) (l1 l2 : list row) :
  count_status lit (l1 ++ l2) = (count_status lit l1 + count_status lit l2)%Z.
Proof. unfold count_status. rewrite filter_app, length_app. lia. Qed.

(** The summary of a report made with a working storage layer. *)
Lemma get_compliance_report_summary (env : environment) (req : request) (w : world) :
  validate_api_key env req = true →
  healthy env →
  ∃ r w',
    get_compliance_report env req w = (Response (ReportBody r) 200, w')
    ∧ table w' = table w
    ∧ period_days r = days_of req
    ∧ filter_application r = args req !! "application"
    ∧ total_scans (report_summary r)
      = Z.of_nat (length (window_rows env req (table w)))
    ∧ compliant_scans (report_summary r)
      = count_status "COMPLIANT" (window_rows env req (table w))
    ∧ non_compliant_scans (report_summary r)
      = count_status "NON_COMPLIANT" (window_rows env req (table w))
    ∧ applications r
      = app_query env (days_of req) (filter_of (args req !! "application")) (table w)
    ∧ recent_non_compliant_scans r
      = recent_issues_query env (days_of req) (filter_of (args req !! "application"))
                            (table w).
Proof.
  intros Hv Hh.
  destruct (get_compliance_report_healthy env req w Hv Hh) as (pct & w' & _ & Hr & Ht).
  eexists _, w'. split; [exact Hr |]. repeat split; done.
Qed.

End report_queries.

(** X11: the report is consistent with itself.  The scans of the
    per-application breakdown add up to [total_scans] and its compliant
    counts to [compliant_scans]; [compliant_scans] and
    [non_compliant_scans] together fall short of [total_scans] by exactly
    the records of the window whose status is neither COMPLIANT nor
    NON_COMPLIANT. *)
Theorem report_breakdown_adds_up_to_summary `{Runtime}
    (env : environment) (req : request) (w : world) :
  validate_api_key env req = true →
  healthy env →
  ∃ r w',
    get_compliance_report env req w = (Response (ReportBody r) 200, w')
    ∧ sum_Z (stat_scans <$> applications r) = total_scans (report_summary r)
    ∧ sum_Z (stat_compliant <$> applications r) = compliant_scans (report_summary r)
    ∧ (compliant_scans (report_summary r) + non_compliant_scans (report_summary r)
       + Z.of_nat (length (filter unclassified (window_rows env req (table w))))
       = total_scans (report_summary r))%Z.
Proof.
  intros Hv Hh.
  destruct (get_compliance_report_summary env req w Hv Hh)
    as (r & w' & Hr & _ & _ & _ & Ht & Hc & Hn & Ha & _).
  exists r, w'. split; [exact Hr |].
  rewrite Ht, Hc, Hn, Ha.
  destruct (app_query_sums env (days_of req) (filter_of (args req !! "application"))
              (table w)) as [Hs1 Hs2].
  split; [exact Hs1 | split; [exact Hs2 |]].
  apply count_status_partition.
Qed.

Lemma report_breakdown_adds_up_to_summary_witness :
  ∃ r w',
    @get_compliance_report Reference.runtime sample_env (get_request ∅) populated_world
    = (Response (ReportBody r) 200, w')
    ∧ sum_Z (stat_scans <$> applications r) = total_scans (report_summary r)
    ∧ sum_Z (stat_compliant <$> applications r) = compliant_scans (report_summary r)
    ∧ (compliant_scans (report_summary r) + non_compliant_scans (report_summary r)
       + Z.of_nat (length (filter unclassified
                             (@window_rows Reference.runtime sample_env (get_request ∅)
                                (table populated_world))))
       = total_scans (report_summary r))%Z.
Proof.
  exact (@report_breakdown_adds_up_to_summary Reference.runtime sample_env
           (get_request ∅) populated_world eq_refl sample_env_healthy).
Defined.

(** X12: the recent list is cut off only by its limit.  It has ten
    entries, or all the non-compliant records of the window when they are
    fewer; and a non-compliant record of the window that is not listed is
    no later than any entry of the list. *)
Theorem recent_list_keeps_the_latest_ten `{Runtime}
    (env : environment) (req : request) (w : world) :
  validate_api_key env req = true →
  healthy env →
  ∃ r w',
    get_compliance_report env req w = (Response (ReportBody r) 200, w')
    ∧ length (recent_non_compliant_scans r)
      = min 10 (length (non_compliant_rows env req (table w)))
    ∧ ∀ x, x ∈ non_compliant_rows env req (table w) →
           issue_of_row x ∈ recent_non_compliant_scans r
           ∨ Forall (λ i, (row_timestamp x ≤ issue_timestamp i)%Z)
                    (recent_non_compliant_scans r).
Proof.
  intros Hv Hh.
  destruct (get_compliance_report_summary env req w Hv Hh)
    as (r & w' & Hr & _ & _ & _ & _ & _ & _ & _ & Hi).
  exists r, w'. split; [exact Hr |]. rewrite Hi.
  pose proof (recent_issues_query_latest env (days_of req)
                (filter_of (args req !! "application")) (table w)) as Hq.
  cbn zeta in Hq. rewrite non_compliant_rows_query in Hq. exact Hq.
Qed.

Lemma recent_list_keeps_the_latest_ten_witness :
  ∃ r w',
    @get_compliance_report Reference.runtime sample_env (get_request ∅) populated_world
    = (Response (ReportBody r) 200, w')
    ∧ length (recent_non_compliant_scans r)
      = min 10 (length (@non_compliant_rows Reference.runtime sample_env
                          (get_request ∅) (table populated_world)))
    ∧ ∀ x, x ∈ @non_compliant_rows Reference.runtime sample_env (get_request ∅)
                 (table populated_world) →
           issue_of_row x ∈ recent_non_compliant_scans r
           ∨ Forall (λ i, (row_timestamp x ≤ issue_timestamp i)%Z)
                    (recent_non_compliant_scans r).
Proof.
  exact (@recent_list_keeps_the_latest_ten Reference.runtime sample_env
           (get_request ∅) populated_world eq_refl sample_env_healthy).
Defined.

(** X13: with a non-empty [application] parameter the report is about that
    application only: the parameter is echoed, the breakdown has at most
    one row and it is the row of that application, and every entry of the
    recent list belongs to it. *)
Theorem application_filter_selects_one_application `{Runtime}
    (env : environment) (req : request) (w : world) (a : string) :
  validate_api_key env req = true →
  healthy env →
  args req !! "application" = Some a →
  a ≠ "" →
  ∃ r w',
    get_compliance_report env req w = (Response (ReportBody r) 200, w')
    ∧ filter_application r = Some a
    ∧ (length (applications r) ≤ 1)%nat
    ∧ Forall (λ s, stat_application s = SText a) (applications r)
    ∧ Forall (λ i, issue_application i = SText a) (recent_non_compliant_scans r)
    ∧ total_scans (report_summary r)
      = Z.of_nat (length (filter (record_of a) (window_rows env
                                                  (without_arg "application" req)
                                                  (table w)))).
Proof.
  intros Hv Hh Ha Hne.
  destruct (get_compliance_report_summary env req w Hv Hh)
    as (r & w' & Hr & _ & _ & Hf & Ht & _ & _ & Hap & Hi).
  exists r, w'. split; [exact Hr |].
  assert (Hflt : filter_of (args req !! "application") = Some a).
  { rewrite Ha. unfold filter_of.
    destruct (str_truthy a) eqn:Hs; [done |].
    by apply str_truthy_false in Hs. }
  rewrite Hf, Hap, Hi, Ht, Hflt. unfold window_rows. rewrite Hflt.
  destruct (app_query_filtered env (days_of req) a (table w)) as [Hlen Hall].
  split; [exact Ha | split; [exact Hlen | split; [exact Hall | split]]].
  - destruct (recent_issues_query_spec env (days_of req) (Some a) (table w))
      as (_ & _ & _ & Hfrom).
    eapply Forall_impl; [exact Hfrom |].
    intros i (x & _ & Hw & ->). cbn.
    unfold base_where in Hw. apply andb_true_iff in Hw as [_ Hw].
    unfold sql_eq_text in Hw. by apply bool_decide_eq_true in Hw.
  - f_equal. f_equal. rewrite list_filter_filter.
    assert (Hd : days_of (without_arg "application" req) = days_of req).
    { unfold days_of, without_arg. cbn [args].
      by rewrite lookup_delete_ne. }
    rewrite Hd. cbn [without_arg args]. rewrite lookup_delete_eq. cbn [filter_of].
    apply list_filter_iff. intros x. unfold base_where, record_of, sql_eq_text.
    rewrite !andb_true_iff, bool_decide_eq_true. tauto.
Qed.

Lemma application_filter_selects_one_application_witness :
  ∃ r w',
    @get_compliance_report Reference.runtime sample_env (filtered_request "svc-a")
      populated_world
    = (Response (ReportBody r) 200, w')
    ∧ filter_application r = Some "svc-a"
    ∧ (length (applications r) ≤ 1)%nat
    ∧ Forall (λ s, stat_application s = SText "svc-a") (applications r)
    ∧ Forall (λ i, issue_application i = SText "svc-a") (recent_non_compliant_scans r)
    ∧ total_scans (report_summary r)
      = Z.of_nat (length (filter (record_of "svc-a")
                            (@window_rows Reference.runtime sample_env
                               (without_arg "application" (filtered_request "svc-a"))
                               (table populated_world)))).
Proof.
  exact (@application_filter_selects_one_application Reference.runtime sample_env
           (filtered_request "svc-a") populated_world "svc-a"
           eq_refl sample_env_healthy eq_refl ltac:(discriminate)).
Defined.

(** X14: an empty [application] parameter does not filter.  The report is
    the one of the same request without the parameter, but for the echoed
    [filter_application], which is the empty string instead of null. *)
Theorem empty_application_parameter_does_not_filter `{Runtime}
    (env : environment) (req : request) (w : world) :
  validate_api_key env req = true →
  healthy env →
  args req !! "application" = Some "" →
  ∃ r r' w1 w2,
    get_compliance_report env req w = (Response (ReportBody r) 200, w1)
    ∧ get_compliance_report env (without_arg "application" req) w
      = (Response (ReportBody r') 200, w2)
    ∧ filter_application r = Some ""
    ∧ filter_application r' = None
    ∧ r = Report (report_generated r') (period_days r') (Some "")
                 (report_summary r') (applications r')
                 (recent_non_compliant_scans r').
Proof.
  intros Hv Hh Ha.
  assert (Hv' : validate_api_key env (without_arg "application" req) = true) by exact Hv.
  assert (Hd : days_of (without_arg "application" req) = days_of req).
  { unfold days_of, without_arg. cbn [args]. by rewrite lookup_delete_ne. }
  assert (Hl : args (without_arg "application" req) !! "application" = None).
  { unfold without_arg. cbn [args]. apply lookup_delete_eq. }
  destruct (get_compliance_report_healthy env req w Hv Hh) as (pct & w1 & Hp & Hr & _).
  destruct (get_compliance_report_healthy env _ w Hv' Hh) as (pct' & w2 & Hp' & Hr' & _).
  rewrite Hd, Hl in Hp', Hr'. rewrite Ha in Hp, Hr. cbn [filter_of] in *.
  change (str_truthy "") with false in *. cbv iota in *.
  rewrite Hp in Hp'. injection Hp' as <-.
  eexists _, _, w1, w2. split; [exact Hr | split; [exact Hr' |]].
  cbn. done.
Qed.

Lemma empty_application_parameter_does_not_filter_witness :
  ∃ r r' w1 w2,
    @get_compliance_report Reference.runtime sample_env (filtered_request "")
      populated_world
    = (Response (ReportBody r) 200, w1)
    ∧ @get_compliance_report Reference.runtime sample_env
        (without_arg "application" (filtered_request "")) populated_world
      = (Response (ReportBody r') 200, w2)
    ∧ filter_application r = Some ""
    ∧ filter_application r' = None
    ∧ r = Report (report_generated r') (period_days r') (Some "")
                 (report_summary r') (applications r')
                 (recent_non_compliant_scans r').
Proof.
  exact (@empty_application_parameter_does_not_filter Reference.runtime sample_env
           (filtered_request "") populated_world
           eq_refl sample_env_healthy eq_refl).
Defined.

(** X15: a longer period never loses a record.  Of two reports on the same
    table with the same [application] parameter, the one with the larger
    [days] has no smaller [total_scans], [compliant_scans] and
    [non_compliant_scans]. *)
Theorem longer_period_counts_no_fewer `{Runtime}
    (env : environment) (req1 req2 : request) (w : world) :
  validate_api_key env req1 = true →
  validate_api_key env req2 = true →
  healthy env →
  args req1 !! "application" = args req2 !! "application" →
  (days_of req1 ≤ days_of req2)%Z →
  ∃ r1 r2 w1 w2,
    get_compliance_report env req1 w = (Response (ReportBody r1) 200, w1)
    ∧ get_compliance_report env req2 w = (Response (ReportBody r2) 200, w2)
    ∧ period_days r1 = days_of req1
    ∧ period_days r2 = days_of req2
    ∧ (total_scans (report_summary r1) ≤ total_scans (report_summary r2))%Z
    ∧ (compliant_scans (report_summary r1) ≤ compliant_scans (report_summary r2))%Z
    ∧ (non_compliant_scans (report_summary r1)
       ≤ non_compliant_scans (report_summary r2))%Z.
Proof.
  intros Hv1 Hv2 Hh Ha Hd.
  destruct (get_compliance_report_summary env req1 w Hv1 Hh)
    as (r1 & w1 & Hr1 & _ & Hp1 & _ & Ht1 & Hc1 & Hn1 & _).
  destruct (get_compliance_report_summary env req2 w Hv2 Hh)
    as (r2 & w2 & Hr2 & _ & Hp2 & _ & Ht2 & Hc2 & Hn2 & _).
  exists r1, r2, w1, w2.
  split; [exact Hr1 | split; [exact Hr2 | split; [exact Hp1 | split; [exact Hp2 |]]]].
  rewrite Ht1, Ht2, Hc1, Hc2, Hn1, Hn2. unfold window_rows. rewrite Ha.
  split; [| split].
  - apply inj_le, window_monotone, Hd.
  - apply count_status_wider, Hd.
  - apply count_status_wider, Hd.
Qed.

Lemma longer_period_counts_no_fewer_witness :
  ∃ r1 r2 w1 w2,
    @get_compliance_report Reference.runtime sample_env (days_request "7")
      populated_world = (Response (ReportBody r1) 200, w1)
    ∧ @get_compliance_report Reference.runtime sample_env (days_request "400")
        populated_world = (Response (ReportBody r2) 200, w2)
    ∧ period_days r1 = 7
    ∧ period_days r2 = 400
    ∧ (total_scans (report_summary r1) ≤ total_scans (report_summary r2))%Z
    ∧ (compliant_scans (report_summary r1) ≤ compliant_scans (report_summary r2))%Z
    ∧ (non_compliant_scans (report_summary r1)
       ≤ non_compliant_scans (report_summary r2))%Z.
Proof.
  exact (@longer_period_counts_no_fewer Reference.runtime sample_env
           (days_request "7") (days_request "400") populated_world
           eq_refl eq_refl sample_env_healthy eq_refl ltac:(vm_compute; discriminate)).
Defined.


(* ===================================================================== *)
(** * Further properties: a stored scan as the read handlers see it *)
(* ===================================================================== *)

Section after_ingestion.
Context `{Runtime}.

(** The application column of the row an answer 201 stands for. *)
Lemma receive_security_scan_stored (env : environment) (req : request) (w w' : world)
    (resp : response) (d md : pydict) :
  receive_security_scan env req w = (resp, w') →
  resp_code resp = 201 →
  get_json req = Json (PDict d) →
  default (PDict ∅) (d !! "scan_metadata") = PDict md →
  ∃ r, table w' = (table w ++ [r])%list
       ∧ row_id r = next_id w
       ∧ column_value TText (default (PStr "") (md !! "application"))
         = Some (row_application r).
Proof.
  intros Hr Hc Hj Hmd.
  destruct (receive_security_scan_201 env req w w' resp Hr Hc)
    as (d' & t & p & cols & Hj' & _ & Hp & _ & Ha & _ & Ht & _).
  rewrite Hj in Hj'. injection Hj' as <-.
  exists (Row (next_id w) cols). split; [exact Ht | split; [done |]].
  apply insert_params_columns in Hp as (_ & _ & _ & Happ & _).
  rewrite Hmd in Happ. cbn in Happ. injection Happ as Happ.
  apply store_row_columns in Ha as (_ & _ & Hcol & _).
  rewrite Happ. exact Hcol.
Qed.

(** A record of another application does not change what the status query
    finds. *)
Lemma latest_scan_query_snoc_other (app : string) (tbl : list row) (r : row) :
  ¬ record_of app r →
  latest_scan_query app (tbl ++ [r]) = latest_scan_query app tbl.
Proof.
  intros Hno. unfold latest_scan_query. rewrite filter_app, filter_cons, filter_nil.
  rewrite decide_False; [by rewrite app_nil_r |].
  unfold sql_eq_text. rewrite bool_decide_eq_true. exact Hno.
Qed.

End after_ingestion.

(** X16: a stored scan is found by the status lookup.  After an answer 201
    to a payload whose [application] is the text [app], a status lookup of
    [app] with a valid credential and a working storage layer answers 200,
    never not-found; and when the stored record is later than every earlier
    record of [app], the answer describes the stored record. *)
Theorem stored_scan_is_found_by_status_lookup `{Runtime}
    (env env2 : environment) (req req2 : request) (w w' : world) (resp : response)
    (d md : pydict) (app : string) :
  receive_security_scan env req w = (resp, w') →
  resp_code resp = 201 →
  get_json req = Json (PDict d) →
  default (PDict ∅) (d !! "scan_metadata") = PDict md →
  md !! "application" = Some (PStr app) →
  validate_api_key env2 req2 = true →
  healthy env2 →
  ∃ r,
    table w' = (table w ++ [r])%list
    ∧ record_of app r
    ∧ (∃ s, (get_application_status env2 req2 app w').1 = Response (StatusBody s) 200
            ∧ status_application s = app)
    ∧ ((∀ r', r' ∈ table w → record_of app r' → (row_timestamp r' < row_timestamp r)%Z) →
       (get_application_status env2 req2 app w').1
       = Response (StatusBody (status_of_row app r)) 200).
Proof.
  intros Hr Hc Hj Hmd Happ Hv Hh.
  destruct (receive_security_scan_stored env req w w' resp d md Hr Hc Hj Hmd)
    as (r & Ht & _ & Ha).
  rewrite Happ in Ha. cbn in Ha.
  assert (Hrec : record_of app r) by (unfold record_of; congruence).
  exists r. split; [exact Ht | split; [exact Hrec |]].
  destruct (get_application_status_healthy env2 req2 app w' Hv Hh) as (w2 & Hs & _).
  rewrite Hs. cbn [fst].
  pose proof (latest_scan_query_spec app (table w')) as Hq.
  assert (Hin : r ∈ table w') by (rewrite Ht; apply elem_of_app; right; left).
  destruct (head (latest_scan_query app (table w'))) as [r0 |].
  - destruct Hq as (Hin0 & Hrec0 & Hmax). split; [by eexists |].
    intros Hlater. rewrite Ht in Hin0.
    apply elem_of_app in Hin0 as [Hold | Hnew].
    + specialize (Hlater r0 Hold Hrec0). specialize (Hmax r Hin Hrec). lia.
    + apply list_elem_of_singleton in Hnew as ->. reflexivity.
  - by destruct (Hq r Hin).
Qed.

Lemma stored_scan_is_found_by_status_lookup_witness :
  ∃ r,
    table (@receive_security_scan Reference.runtime sample_env non_compliant_request
             populated_world).2
    = (table populated_world ++ [r])%list
    ∧ record_of "svc-a" r
    ∧ (∃ s, (@get_application_status Reference.runtime sample_env (get_request ∅) "svc-a"
               (@receive_security_scan Reference.runtime sample_env
                  non_compliant_request populated_world).2).1
            = Response (StatusBody s) 200
            ∧ status_application s = "svc-a")
    ∧ ((∀ r', r' ∈ table populated_world → record_of "svc-a" r' →
              (row_timestamp r' < row_timestamp r)%Z) →
       (@get_application_status Reference.runtime sample_env (get_request ∅) "svc-a"
          (@receive_security_scan Reference.runtime sample_env
             non_compliant_request populated_world).2).1
       = Response (StatusBody (@status_of_row Reference.runtime "svc-a" r)) 200).
Proof.
  exact (@stored_scan_is_found_by_status_lookup Reference.runtime sample_env sample_env
           non_compliant_request (get_request ∅) populated_world _ _
           [("scan_metadata", PDict [("application", PStr "svc-a")]);
            ("compliance_status",
             PDict [("overall_status", PStr "NON_COMPLIANT");
                    ("total_issues", PInt 5)])]
           [("application", PStr "svc-a")] "svc-a"
           (surjective_pairing _) eq_refl eq_refl eq_refl eq_refl eq_refl
           sample_env_healthy).
Defined.

(** X17: storing a scan leaves the status of every other application as it
    was.  After an answer 201 to a payload whose [application] is a text
    (the empty text when it is missing) other than [other], a status lookup
    of [other] answers what it answered before. *)
Theorem stored_scan_keeps_status_of_other_applications `{Runtime}
    (env env2 : environment) (req req2 : request) (w w' : world) (resp : response)
    (d md : pydict) (app other : string) :
  receive_security_scan env req w = (resp, w') →
  resp_code resp = 201 →
  get_json req = Json (PDict d) →
  default (PDict ∅) (d !! "scan_metadata") = PDict md →
  default (PStr "") (md !! "application") = PStr app →
  app ≠ other →
  validate_api_key env2 req2 = true →
  healthy env2 →
  (get_application_status env2 req2 other w').1
  = (get_application_status env2 req2 other w).1.
Proof.
  intros Hr Hc Hj Hmd Happ Hne Hv Hh.
  destruct (receive_security_scan_stored env req w w' resp d md Hr Hc Hj Hmd)
    as (r & Ht & _ & Ha).
  destruct (get_application_status_healthy env2 req2 other w' Hv Hh) as (w2 & Hs' & _).
  destruct (get_application_status_healthy env2 req2 other w Hv Hh) as (w1 & Hs & _).
  rewrite Hs', Hs, Ht. cbn [fst].
  rewrite latest_scan_query_snoc_other; [done |].
  unfold record_of. intros Hrec. rewrite Happ, Hrec in Ha.
  cbn in Ha. congruence.
Qed.

Lemma stored_scan_keeps_status_of_other_applications_witness :
  (@get_application_status Reference.runtime sample_env (get_request ∅) "svc-b"
     (@receive_security_scan Reference.runtime sample_env non_compliant_request
        populated_world).2).1
  = (@get_application_status Reference.runtime sample_env (get_request ∅) "svc-b"
       populated_world).1.
Proof.
  exact (@stored_scan_keeps_status_of_other_applications Reference.runtime
           sample_env sample_env
           non_compliant_request (get_request ∅) populated_world _ _
           [("scan_metadata", PDict [("application", PStr "svc-a")]);
            ("compliance_status",
             PDict [("overall_status", PStr "NON_COMPLIANT");
                    ("total_issues", PInt 5)])]
           [("application", PStr "svc-a")] "svc-a" "svc-b"
           (surjective_pairing _) eq_refl eq_refl eq_refl eq_refl ltac:(discriminate)
           eq_refl
           sample_env_healthy).
Defined.

(** X18: a stored scan is counted by the next report exactly when it
    satisfies the WHERE clause of that report.  After an answer 201 the
    report on the new table has [total_scans] one higher than the report on
    the old table when the stored record lies in the period and passes the
    application filter, and equal otherwise; [compliant_scans] and
    [non_compliant_scans] rise by one under the same condition when the
    stored status is the respective text. *)
Theorem stored_scan_is_counted_by_report `{Runtime}
    (env env2 : environment) (req req2 : request) (w w' : world) (resp : response) :
  receive_security_scan env req w = (resp, w') →
  resp_code resp = 201 →
  validate_api_key env2 req2 = true →
  healthy env2 →
  ∃ r rep rep' w1 w2,
    table w' = (table w ++ [r])%list
    ∧ get_compliance_report env2 req2 w = (Response (ReportBody rep) 200, w1)
    ∧ get_compliance_report env2 req2 w' = (Response (ReportBody rep') 200, w2)
    ∧ let counted :=
        base_where env2 (days_of req2) (filter_of (args req2 !! "application")) r in
      total_scans (report_summary rep')
      = (total_scans (report_summary rep) + Z.b2z counted)%Z
      ∧ compliant_scans (report_summary rep')
        = (compliant_scans (report_summary rep)
           + Z.b2z (counted && sql_eq_text (row_overall_status r) "COMPLIANT"))%Z
      ∧ non_compliant_scans (report_summary rep')
        = (non_compliant_scans (report_summary rep)
           + Z.b2z (counted && sql_eq_text (row_overall_status r) "NON_COMPLIANT"))%Z.
Proof.
  intros Hr Hc Hv Hh.
  destruct (receive_security_scan_201 env req w w' resp Hr Hc)
    as (d & t & p & cols & _ & _ & _ & _ & _ & _ & Ht & _).
  destruct (get_compliance_report_summary env2 req2 w Hv Hh)
    as (rep & w1 & Hrep & _ & _ & _ & Ht1 & Hc1 & Hn1 & _).
  destruct (get_compliance_report_summary env2 req2 w' Hv Hh)
    as (rep' & w2 & Hrep' & _ & _ & _ & Ht2 & Hc2 & Hn2 & _).
  exists (Row (next_id w) cols), rep, rep', w1, w2.
  split; [exact Ht | split; [exact Hrep | split; [exact Hrep' |]]].
  cbn zeta. rewrite Ht1, Ht2, Hc1, Hc2, Hn1, Hn2, Ht, window_rows_snoc.
  rewrite !count_status_app, length_app.
  destruct (base_where env2 _ _ (Row (next_id w) cols)); cbn [andb Z.b2z].
  - unfold count_status. rewrite !filter_cons, !filter_nil.
    split; [cbn; lia |].
    split.
    + destruct (sql_eq_text _ "COMPLIANT");
        [rewrite decide_True by done | rewrite decide_False by done]; cbn; lia.
    + destruct (sql_eq_text _ "NON_COMPLIANT");
        [rewrite decide_True by done | rewrite decide_False by done]; cbn; lia.
  - unfold count_status. rewrite !filter_nil. cbn. lia.
Qed.

Lemma stored_scan_is_counted_by_report_witness :
  ∃ r rep rep' w1 w2,
    table (@receive_security_scan Reference.runtime sample_env non_compliant_request
             populated_world).2
    = (table populated_world ++ [r])%list
    ∧ @get_compliance_report Reference.runtime sample_env (get_request ∅)
        populated_world = (Response (ReportBody rep) 200, w1)
    ∧ @get_compliance_report Reference.runtime sample_env (get_request ∅)
        (@receive_security_scan Reference.runtime sample_env non_compliant_request
           populated_world).2 = (Response (ReportBody rep') 200, w2)
    ∧ let counted :=
        @base_where sample_env (@days_of Reference.runtime (get_request ∅))
          (filter_of (args (get_request ∅) !! "application")) r in
      total_scans (report_summary rep')
      = (total_scans (report_summary rep) + Z.b2z counted)%Z
      ∧ compliant_scans (report_summary rep')
        = (compliant_scans (report_summary rep)
           + Z.b2z (counted && sql_eq_text (row_overall_status r) "COMPLIANT"))%Z
      ∧ non_compliant_scans (report_summary rep')
        = (non_compliant_scans (report_summary rep)
           + Z.b2z (counted && sql_eq_text (row_overall_status r) "NON_COMPLIANT"))%Z.
Proof.
  exact (@stored_scan_is_counted_by_report Reference.runtime sample_env sample_env
           non_compliant_request (get_request ∅) populated_world _ _
           (surjective_pairing _) eq_refl eq_refl sample_env_healthy).
Defined.

(** X19: ids stay unique.  When every id of the table is below the next
    value of the sequence and no two rows share an id, the same holds after
    any request to the ingestion handler, whatever its credential, its
    payload and the failures of the storage layer; and the [scan_id] of an
    answer 201 is the id of no row that was in the table before. *)
Theorem ingestion_keeps_ids_unique `{Runtime}
    (env : environment) (req : request) (w : world) :
  ids_from_sequence w →
  ids_from_sequence (receive_security_scan env req w).2
  ∧ (next_id w ≤ next_id (receive_security_scan env req w).2)%Z
  ∧ ∀ c, resp_body (receive_security_scan env req w).1 = CreatedBody c →
         created_scan_id c = Some (next_id w)
         ∧ ∀ r, r ∈ table w → created_scan_id c ≠ Some (row_id r).
Proof.
  intros [Hlt Hnd].
  assert (Hkeep : ∀ nid tr lg resp,
            (next_id w ≤ nid)%Z →
            (∀ c, resp_body resp ≠ CreatedBody c) →
            ids_from_sequence (World (table w) nid tr lg)
            ∧ (next_id w ≤ nid)%Z
            ∧ ∀ c, resp_body resp = CreatedBody c →
                   created_scan_id c = Some (next_id w)
                   ∧ ∀ r, r ∈ table w → created_scan_id c ≠ Some (row_id r)).
  { intros nid tr lg resp Hle Hbody.
    split; [split; [| done] | split; [done |]].
    - eapply Forall_impl; [exact Hlt |]. cbn. intros; lia.
    - intros c Hc. by destruct (Hbody c). }
  assert (Hadd : ∀ cols tr lg resp,
            (∀ c, resp_body resp = CreatedBody c →
                  created_scan_id c = Some (next_id w)) →
            ids_from_sequence
              (World (table w ++ [Row (next_id w) cols]) (next_id w + 1) tr lg)
            ∧ (next_id w ≤ next_id w + 1)%Z
            ∧ ∀ c, resp_body resp = CreatedBody c →
                   created_scan_id c = Some (next_id w)
                   ∧ ∀ r, r ∈ table w → created_scan_id c ≠ Some (row_id r)).
  { intros cols tr lg resp Hid. unfold ids_from_sequence. cbn [table next_id].
    split; [split |]; [| | split; [lia |]].
    - apply Forall_app. split.
      + eapply Forall_impl; [exact Hlt |]. cbn. intros; lia.
      + apply Forall_singleton. cbn. lia.
    - rewrite fmap_app. apply NoDup_app. split; [done | split].
      + intros i Hi Hi'. cbn in Hi'. apply list_elem_of_singleton in Hi' as ->.
        apply list_elem_of_fmap in Hi as (r & Hid' & Hin).
        rewrite Forall_forall in Hlt. specialize (Hlt r Hin). lia.
      + cbn. apply NoDup_singleton.
    - intros c Hc. rewrite (Hid c Hc). split; [done |].
      intros r Hin [= Hid']. rewrite Forall_forall in Hlt.
      specialize (Hlt r Hin). lia. }
  destruct (validate_api_key env req) eqn:Hv.
  - ingestion_ends env req w Hv;
      first
        [ apply Hkeep; [lia | done]
        | apply Hadd; intros c' [= <-]; done
        | apply Hadd; discriminate ].
  - unfold receive_security_scan. rewrite Hv. cbn.
    split; [by split | split; [lia | done]].
Qed.

Lemma ingestion_keeps_ids_unique_witness :
  ids_from_sequence (@receive_security_scan Reference.runtime sample_env
                       non_compliant_request populated_world).2
  ∧ (next_id populated_world
     ≤ next_id (@receive_security_scan Reference.runtime sample_env
                  non_compliant_request populated_world).2)%Z
  ∧ ∀ c, resp_body (@receive_security_scan Reference.runtime sample_env
                      non_compliant_request populated_world).1 = CreatedBody c →
         created_scan_id c = Some (next_id populated_world)
         ∧ ∀ r, r ∈ table populated_world → created_scan_id c ≠ Some (row_id r).
Proof.
  apply (@ingestion_keeps_ids_unique Reference.runtime sample_env
           non_compliant_request populated_world).
  split; apply (bool_decide_unpack _); vm_compute; exact I.
Defined.


(* ===================================================================== *)
(** * Further properties: the health endpoint *)
(* ===================================================================== *)

(** X20: the health endpoint answers healthy (200) with the current time
    exactly when connecting and closing both succeed, and otherwise
    unhealthy (500) with the text of the exception.  It never touches the
    table or the sequence; a failed connection is logged and then nothing
    is closed, and a connection that was obtained gets its one close call,
    nothing being logged. *)
Theorem health_check_reflects_the_connection `{Runtime}
    (env : environment) (error_text : string) (w : world) :
  let r := health_check env error_text w in
  (calls_succeed env w 2 →
   r.1 = HealthResponse (Healthy (isoformat (utcnow env))) 200)
  ∧ (¬ calls_succeed env w 2 → r.1 = HealthResponse (Unhealthy error_text) 500)
  ∧ table r.2 = table w
  ∧ next_id r.2 = next_id w
  ∧ (storage_fails env (length (trace w)) = true →
     trace r.2 = (trace w ++ [OpConnect])%list
     ∧ logs r.2 = (logs w ++ [(ERROR, MsgConnectionFailed)])%list)
  ∧ (storage_fails env (length (trace w)) = false →
     trace r.2 = (trace w ++ [OpConnect; OpClose])%list
     ∧ logs r.2 = logs w).
Proof.
  cbn zeta. unfold health_check, health_check_try, get_db_connection.
  unfold mbind, M_bind, mret, M_ret, storage_call, calls_succeed.
  cbn [new_frame f_world with_world add_op add_log trace f_conn f_cur table next_id logs].
  destruct (storage_fails env (length (trace w))) eqn:H0.
  - cbn. repeat split; try done.
    + intros Hall. specialize (Hall 0%nat ltac:(lia)).
      rewrite Nat.add_0_r in Hall. congruence.
  - cbn. rewrite length_app. cbn [length].
    destruct (storage_fails env (length (trace w) + 1)) eqn:H1.
    + cbn. rewrite <- app_assoc. repeat split; try done.
      intros Hall. specialize (Hall 1%nat ltac:(lia)). congruence.
    + cbn. rewrite <- app_assoc. repeat split; try done.
      intros Hno. destruct Hno. intros j Hj.
      destruct j as [| [| j]]; [by rewrite Nat.add_0_r | done | lia].
Qed.

Lemma health_check_reflects_the_connection_witness :
  (@health_check Reference.runtime sample_env "connection refused" sample_world).1
  = HealthResponse (Healthy (@isoformat Reference.runtime (utcnow sample_env))) 200
  ∧ (@health_check Reference.runtime (failing_call_env 0) "connection refused"
       sample_world).1
    = HealthResponse (Unhealthy "connection refused") 500
  ∧ logs (@health_check Reference.runtime (failing_call_env 0) "connection refused"
            sample_world).2
    = [(ERROR, MsgConnectionFailed)].
Proof.
  split; [| split].
  - apply (@health_check_reflects_the_connection Reference.runtime sample_env
             "connection refused" sample_world).
    intros j _. reflexivity.
  - apply (@health_check_reflects_the_connection Reference.runtime (failing_call_env 0)
             "connection refused" sample_world).
    intros Hall. discriminate (Hall 0%nat ltac:(lia)).
  - apply (@health_check_reflects_the_connection Reference.runtime (failing_call_env 0)
             "connection refused" sample_world).
    reflexivity.
Defined.

